(** * Single-table entity / repository layer of clkk-mobile-backend

    A shallow embedding of the data-access layer (constants layer, common
    layer, entities layer, repositories layer) and of the part of the
    DynamoDB document client the layer talks to, followed by the
    properties of the layer.

    Conventions of the embedding.
    - A JavaScript string is a [string]: the sequence of its UTF-8 bytes,
      which is also what [Buffer.from(s)] holds.  Its [length] is counted
      in UTF-16 code units ([utf16_length]).  [toLowerCase] folds the
      ASCII letters, and the properties that rest on it are stated for
      ASCII text.
    - [undefined] is [None]; a JavaScript value that can be stored in the
      table or appear in a JSON text is a [json].
    - A thrown exception is the [Err] branch of [result].
    - [new Date().toISOString()] is a clock reading passed as the
      argument [now].
    - The DynamoDB table is a finite map from primary keys to items; what
      the service may do on its own account (a transient failure, keys of
      a batch left unprocessed) is an explicit argument of every request.
      Where the service is free in the order of its answer (the items of
      a batch get, the rows of an index partition) the embedding takes
      one order, and the properties do not depend on which. *)

From Stdlib Require Import Ascii String NArith ZArith Lia.
From stdpp Require Import base option list gmap strings pretty.

Set Default Proof Using "Type".
Local Open Scope string_scope.
Local Open Scope list_scope.

(** ** JavaScript values *)

(** Values of JSON texts and of DynamoDB document attributes.  A number
    is kept as its decimal lexeme. *)
Local Unset Elimination Schemes.
Inductive json : Type :=
  | JNull
  | JBool (b : bool)
  | JNum (lexeme : string)
  | JStr (s : string)
  | JArr (elems : list json)
  | JObj (members : list (string * json)).
Local Set Elimination Schemes.

(** A JavaScript object holding a structured attribute (kycDetails,
    address, metadata). *)
Abbreviation document := (list (string * json)).

(** An item of the table, and any [Record<string, any>] whose
    [undefined] entries the document client drops
    ([removeUndefinedValues: true]). *)
Abbreviation item := (gmap string json).

(** Truthiness of an optional string: [undefined] and [""] are falsy. *)
Definition truthy_str (v : option string) : bool :=
  match v with
  | Some s => negb (String.eqb s EmptyString)
  | None => false
  end.

(** Truthiness of an optional object: every object is truthy. *)
Definition truthy_doc (v : option document) : bool :=
  match v with Some _ => true | None => false end.

(** [`${v}`] inside a template literal. *)
Definition tmpl (v : option string) : string :=
  match v with Some s => s | None => "undefined" end.

(** [item[k] = v]: an [undefined] value never reaches the table. *)
Definition set_val (k : string) (v : option json) (it : item) : item :=
  match v with Some x => <[k := x]> it | None => it end.

Definition set_str (k : string) (v : option string) (it : item) : item :=
  set_val k (JStr <$> v) it.

Definition set_doc (k : string) (v : option document) (it : item) : item :=
  set_val k (JObj <$> v) it.

(** [if (v) item[k] = v] *)
Definition set_if_str (k : string) (v : option string) (it : item) : item :=
  if truthy_str v then set_str k v it else it.

Definition set_if_doc (k : string) (v : option document) (it : item) : item :=
  if truthy_doc v then set_doc k v it else it.

(** [item[k]] read at the type the entity declares for the attribute. *)
Definition get_str (it : item) (k : string) : option string :=
  match it !! k with Some (JStr s) => Some s | _ => None end.

Definition get_doc (it : item) (k : string) : option document :=
  match it !! k with Some (JObj d) => Some d | _ => None end.

Definition lower_ascii (c : ascii) : ascii :=
  let n := N_of_ascii c in
  if ((65 <=? n) && (n <=? 90))%N then ascii_of_N (n + 32) else c.

(** [String.prototype.toLowerCase] on ASCII text: the letters A to Z
    are folded and every other byte stays.  The properties that rest on
    the folding are stated for ASCII text. *)
Fixpoint toLowerCase (s : string) : string :=
  match s with
  | EmptyString => EmptyString
  | String c r => String (lower_ascii c) (toLowerCase r)
  end.

(** ** Errors *)

(** Transient failures of the service: throttling, timeouts, connectivity. *)
Inductive transient_error : Type :=
  | ProvisionedThroughputExceededException
  | RequestTimeout
  | NetworkingError.

(** Exceptions of the AWS SDK client. *)
Inductive sdk_error : Type :=
  | ConditionalCheckFailedException
  | ValidationException
  | Transient (t : transient_error).

(** What the layer can throw. *)
Inductive error : Type :=
  | SdkError (e : sdk_error)
    (* an SDK exception, rethrown as it is *)
  | UserValidationFailed
    (* new Error(`User validation failed: ...`) *)
  | AlreadyExists (entityType : string) (id : string)
    (* new Error(`${name} with id ${id} already exists`) *)
  | TypeError
    (* a method called on undefined *)
  | SyntaxError.
    (* thrown by JSON.parse *)

(** The error kinds of the layer's contract. *)
Inductive error_kind : Type :=
  | ValidationError
  | ConflictError
  | TransientEngineError
  | TokenDecodeError
  | GenericError.

(** The kind an error is raised as: the two errors the entities layer
    constructs itself carry their kind in the message; the transient SDK
    exceptions pass through; nothing in the layer constructs a token
    error, and the exceptions of the runtime are generic. *)
Definition kind_of (e : error) : error_kind :=
  match e with
  | UserValidationFailed => ValidationError
  | AlreadyExists _ _ => ConflictError
  | SdkError ConditionalCheckFailedException => ConflictError
  | SdkError (Transient _) => TransientEngineError
  | SdkError ValidationException => GenericError
  | TypeError => GenericError
  | SyntaxError => GenericError
  end.

Inductive result (A : Type) : Type :=
  | Ok (a : A)
  | Err (e : error).
Arguments Ok {A} a.
Arguments Err {A} e.

(** Sequencing of calls that may throw: [x ← r; k]. *)
Global Instance result_bind : MBind result := λ A B k r,
  match r with
  | Ok a => k a
  | Err e => Err e
  end.

(** ** Constants layer *)

Module ATTRIBUTES.
Definition PARTITION_KEY := "PK".
Definition SORT_KEY := "SK".
Definition EXTERNAL_ID_KEY := "ExternalIdKey".
Definition EMAIL_KEY := "EmailKey".
Definition CLKK_TAG_KEY := "ClkkTagKey".
Definition TIME_SORT_KEY := "TimeSortKey".
Definition TYPE_STATUS_KEY := "TypeStatusKey".
Definition ID := "id".
Definition CREATED_AT := "createdAt".
Definition UPDATED_AT := "updatedAt".
Definition CLERK_ID := "clerkId".
Definition EMAIL := "email".
Definition PHONE_NUMBER := "phoneNumber".
Definition FIRST_NAME := "firstName".
Definition LAST_NAME := "lastName".
Definition CLKK_TAG := "clkkTag".
Definition KYC_STATUS := "kycStatus".
Definition KYC_DETAILS := "kycDetails".
Definition PROFILE_IMAGE_URL := "profileImageUrl".
Definition DATE_OF_BIRTH := "dateOfBirth".
Definition ADDRESS := "address".
Definition METADATA := "metadata".
Definition USER_ID := "userId".
End ATTRIBUTES.

Module INDEXES.
Definition EXTERNAL_ID := "ExternalIdIndex".
Definition EMAIL := "EmailIndex".
Definition CLKK_TAG := "ClkkTagIndex".
Definition TIME_SORT := "TimeSortIndex".
Definition TYPE_STATUS := "TypeStatusIndex".
End INDEXES.

Module ENTITY_PREFIXES.
Definition USER := "USER".
Definition CLERK := "CLERK".
Definition EMAIL := "EMAIL".
Definition TAG := "TAG".
End ENTITY_PREFIXES.

Definition KYC_STATUS : list string :=
  ["NOT_STARTED"; "PENDING"; "IN_REVIEW"; "APPROVED"; "REJECTED"; "EXPIRED"].

Module KEY_BUILDERS.
Definition user (userId : option string) : item :=
  {[ ATTRIBUTES.PARTITION_KEY := JStr (ENTITY_PREFIXES.USER +:+ "#" +:+ tmpl userId);
     ATTRIBUTES.SORT_KEY := JStr (ENTITY_PREFIXES.USER +:+ "#" +:+ tmpl userId) ]}.

Definition userByClerkId (clerkId : option string) : item :=
  {[ ATTRIBUTES.EXTERNAL_ID_KEY := JStr (ENTITY_PREFIXES.CLERK +:+ "#" +:+ tmpl clerkId) ]}.

(** [email.toLowerCase()] throws on [undefined]. *)
Definition userByEmail (email : option string) : result item :=
  match email with
  | Some e => Ok {[ ATTRIBUTES.EMAIL_KEY := JStr (ENTITY_PREFIXES.EMAIL +:+ "#" +:+ toLowerCase e) ]}
  | None => Err TypeError
  end.

Definition userByClkkTag (clkkTag : option string) : result item :=
  match clkkTag with
  | Some t => Ok {[ ATTRIBUTES.CLKK_TAG_KEY := JStr (ENTITY_PREFIXES.TAG +:+ "#" +:+ toLowerCase t) ]}
  | None => Err TypeError
  end.
End KEY_BUILDERS.

(** ** Validation schemas (common layer, zod) *)

Definition in_range (lo hi : N) (c : ascii) : bool :=
  let n := N_of_ascii c in ((lo <=? n) && (n <=? hi))%N.

Definition is_digit (c : ascii) : bool := in_range 48 57 c.
Definition is_alpha (c : ascii) : bool := in_range 65 90 c || in_range 97 122 c.
Definition is_alnum (c : ascii) : bool := is_alpha c || is_digit c.

Fixpoint forallb_str (p : ascii -> bool) (s : string) : bool :=
  match s with
  | EmptyString => true
  | String c r => p c && forallb_str p r
  end.

(** [s.split(sep)] for a one-character separator. *)
Fixpoint split_chr (sep : ascii) (s : string) : list string :=
  match s with
  | EmptyString => [EmptyString]
  | String c r =>
      if Ascii.eqb c sep then EmptyString :: split_chr sep r
      else match split_chr sep r with
           | w :: ws => String c w :: ws
           | [] => [String c EmptyString]
           end
  end.

Fixpoint has_dotdot (s : string) : bool :=
  match s with
  | String "." (String "." _) => true
  | String _ r => has_dotdot r
  | EmptyString => false
  end.

Fixpoint last_chr (s : string) : option ascii :=
  match s with
  | EmptyString => None
  | String c EmptyString => Some c
  | String _ r => last_chr r
  end.

Definition email_local_chr (c : ascii) : bool :=
  is_alnum c || Ascii.eqb c "_" || Ascii.eqb c "'" || Ascii.eqb c "+"
  || Ascii.eqb c "-" || Ascii.eqb c ".".

Definition email_local_last (c : ascii) : bool :=
  is_alnum c || Ascii.eqb c "_" || Ascii.eqb c "+" || Ascii.eqb c "-".

Definition email_label (s : string) : bool :=
  match s with
  | String c r => is_alnum c && forallb_str (fun x => is_alnum x || Ascii.eqb x "-") r
  | EmptyString => false
  end.

Definition email_tld (s : string) : bool :=
  forallb_str is_alpha s && (2 <=? String.length s)%nat.

Fixpoint email_domain (labels : list string) : bool :=
  match labels with
  | [] => false
  | [_] => false
  | [l; tld] => email_label l && email_tld tld
  | l :: rest => email_label l && email_domain rest
  end.

(** Modelled from the spec: the pattern behind [z.string().email()] (zod
    3.22, library code that is not part of the repository):
    case-insensitive; the text does not begin with a dot and has no two
    dots in a row; the local part is a run of letters, digits and
    [_ ' + - .] whose last character is a letter, a digit or one of
    [_ + -]; after the [@] come one or more labels (a letter or digit,
    then letters, digits and [-]), each followed by a dot, and a final
    run of at least two letters.
    The schema's [toLowerCase()] transforms the parsed copy only, which
    [validate] throws away. *)
Definition zod_email (s : string) : bool :=
  match split_chr "@" s with
  | [loc; dom] =>
      negb (has_dotdot s)
      && match loc with String "." _ => false | _ => true end
      && forallb_str email_local_chr loc
      && match last_chr loc with Some c => email_local_last c | None => false end
      && email_domain (split_chr "." dom)
  | _ => false
  end.

(** [/^\+?[1-9]\d{1,14}$/] *)
Definition phone_regex (s : string) : bool :=
  let body := match s with String "+" r => r | _ => s end in
  match body with
  | String c r =>
      in_range 49 57 c && forallb_str is_digit r
      && (1 <=? String.length r)%nat && (String.length r <=? 14)%nat
  | EmptyString => false
  end.

(** The UTF-16 code units that the character led by the byte [c] takes:
    one for a character of one, two or three bytes, two (a surrogate
    pair) for a character of four bytes, none for a continuation byte. *)
Definition utf16_units (c : ascii) : nat :=
  let n := N_of_ascii c in
  if (n <? 128)%N then 1 else if (n <? 192)%N then 0 else if (n <? 240)%N then 1 else 2.

(** [s.length]: the number of UTF-16 code units of the text. *)
Fixpoint utf16_length (s : string) : nat :=
  match s with
  | EmptyString => 0
  | String c r => utf16_units c + utf16_length r
  end.

(** [z.string().min(lo).max(hi).optional()]; zod compares [s.length]. *)
Definition opt_len (lo hi : nat) (v : option string) : bool :=
  match v with
  | None => true
  | Some s => (lo <=? utf16_length s)%nat && (utf16_length s <=? hi)%nat
  end.

(** [z.string().min(1)]: a text that is not empty has a code unit. *)
Definition req_min1 (v : option string) : bool :=
  match v with
  | Some s => (1 <=? String.length s)%nat
  | None => false
  end.

(** ** Entities layer: the User entity *)

Record User : Type := mkUser {
  id : option string;
  createdAt : option string;
  updatedAt : option string;
  clerkId : option string;
  email : option string;
  phoneNumber : option string;
  firstName : option string;
  lastName : option string;
  clkkTag : option string;
  kycStatus : option string;
  kycDetails : option document;
  profileImageUrl : option string;
  dateOfBirth : option string;
  address : option document;
  metadata : option document
}.

Definition entityName : string := "User".

Definition getPrimaryKey (u : User) : item := KEY_BUILDERS.user (id u).

(** [User.toItem] *)
Definition toItem (u : User) : result item :=
  let it : item := ∅ in
  let it := set_str ATTRIBUTES.ID (id u) it in
  let it := set_str ATTRIBUTES.CLERK_ID (clerkId u) it in
  let it := set_str ATTRIBUTES.EMAIL (email u) it in
  let it := set_str ATTRIBUTES.KYC_STATUS (kycStatus u) it in
  let it := set_if_str ATTRIBUTES.PHONE_NUMBER (phoneNumber u) it in
  let it := set_if_str ATTRIBUTES.FIRST_NAME (firstName u) it in
  let it := set_if_str ATTRIBUTES.LAST_NAME (lastName u) it in
  let it := set_if_str ATTRIBUTES.CLKK_TAG (clkkTag u) it in
  let it := set_if_doc ATTRIBUTES.KYC_DETAILS (kycDetails u) it in
  let it := set_if_str ATTRIBUTES.PROFILE_IMAGE_URL (profileImageUrl u) it in
  let it := set_if_str ATTRIBUTES.DATE_OF_BIRTH (dateOfBirth u) it in
  let it := set_if_doc ATTRIBUTES.ADDRESS (address u) it in
  let it := set_if_doc ATTRIBUTES.METADATA (metadata u) it in
  let it := set_val ATTRIBUTES.EXTERNAL_ID_KEY
              (KEY_BUILDERS.userByClerkId (clerkId u) !! ATTRIBUTES.EXTERNAL_ID_KEY) it in
  ek ← KEY_BUILDERS.userByEmail (email u);
  let it := set_val ATTRIBUTES.EMAIL_KEY (ek !! ATTRIBUTES.EMAIL_KEY) it in
  if truthy_str (clkkTag u) then
    tk ← KEY_BUILDERS.userByClkkTag (clkkTag u);
    Ok (set_val ATTRIBUTES.CLKK_TAG_KEY (tk !! ATTRIBUTES.CLKK_TAG_KEY) it)
  else Ok it.

(** [User.fromItem].  The result names all fifteen attributes, so
    [Object.assign(new User(), fromItem(item))] leaves nothing of the
    fresh instance: the entity read back is this record. *)
Definition fromItem (it : item) : User :=
  {| id := get_str it ATTRIBUTES.ID;
     clerkId := get_str it ATTRIBUTES.CLERK_ID;
     email := get_str it ATTRIBUTES.EMAIL;
     phoneNumber := get_str it ATTRIBUTES.PHONE_NUMBER;
     firstName := get_str it ATTRIBUTES.FIRST_NAME;
     lastName := get_str it ATTRIBUTES.LAST_NAME;
     clkkTag := get_str it ATTRIBUTES.CLKK_TAG;
     kycStatus := get_str it ATTRIBUTES.KYC_STATUS;
     kycDetails := get_doc it ATTRIBUTES.KYC_DETAILS;
     profileImageUrl := get_str it ATTRIBUTES.PROFILE_IMAGE_URL;
     dateOfBirth := get_str it ATTRIBUTES.DATE_OF_BIRTH;
     address := get_doc it ATTRIBUTES.ADDRESS;
     metadata := get_doc it ATTRIBUTES.METADATA;
     createdAt := get_str it ATTRIBUTES.CREATED_AT;
     updatedAt := get_str it ATTRIBUTES.UPDATED_AT |}.

(** The zod schema of [User.validate]. *)
Definition schema_ok (u : User) : bool :=
  req_min1 (id u)
  && req_min1 (clerkId u)
  && match email u with Some e => zod_email e | None => false end
  && match phoneNumber u with Some p => phone_regex p | None => true end
  && opt_len 1 50 (firstName u)
  && opt_len 1 50 (lastName u)
  && opt_len 3 20 (clkkTag u)
  && match kycStatus u with
     | Some k => bool_decide (k ∈ KYC_STATUS)
     | None => false
     end.


(** ** Expression builders of the constants layer *)

Record condition : Type := mkCondition {
  ConditionExpression : string;
  ConditionNames : gmap string string
}.

Module CONDITION_BUILDERS.
Definition attributeExists (attribute : string) : condition :=
  {| ConditionExpression := "attribute_exists(#attr)";
     ConditionNames := {[ "#attr" := attribute ]} |}.

Definition attributeNotExists (attribute : string) : condition :=
  {| ConditionExpression := "attribute_not_exists(#attr)";
     ConditionNames := {[ "#attr" := attribute ]} |}.
End CONDITION_BUILDERS.

Record key_condition : Type := mkKeyCondition {
  expression : string;
  values : item
}.

Module QUERY_BUILDERS.
Definition keyCondition (attributeName value : string) : key_condition :=
  {| expression := attributeName +:+ " = :value";
     values := {[ ":value" := JStr value ]} |}.
End QUERY_BUILDERS.

Record update_params : Type := mkUpdateParams {
  UpdateExpression : string;
  ExpressionAttributeNames : gmap string string;
  ExpressionAttributeValues : item
}.

(** The accumulators of the two update-expression builders. *)
Record set_acc : Type := mkSetAcc {
  expressions : list string;
  expressionAttributeNames : gmap string string;
  expressionAttributeValues : item
}.

(** The body of [Object.entries(updates).forEach(([key, value], index) => ...)],
    from entry number [index] on. *)
Fixpoint set_entries (entries : list (string * option json)) (index : nat)
    (acc : set_acc) : set_acc :=
  match entries with
  | [] => acc
  | (key, value) :: rest =>
      set_entries rest (S index)
        match value with
        | Some v =>
            let placeholder := "#attr" +:+ pretty index in
            let valuePlaceholder := ":val" +:+ pretty index in
            {| expressions := expressions acc ++ [placeholder +:+ " = " +:+ valuePlaceholder];
               expressionAttributeNames := <[placeholder := key]> (expressionAttributeNames acc);
               expressionAttributeValues := <[valuePlaceholder := v]> (expressionAttributeValues acc) |}
        | None => acc
        end
  end.

Module UPDATE_BUILDERS.
(** [UPDATE_BUILDERS.set]; [now] is the [new Date().toISOString()] of
    the call. *)
Definition set (updates : list (string * option json)) (now : string) : update_params :=
  let acc := set_entries updates 0 (mkSetAcc [] ∅ ∅) in
  let updatedAtPlaceholder := "#attr" +:+ pretty (length updates) in
  let updatedAtValuePlaceholder := ":val" +:+ pretty (length updates) in
  let exprs := expressions acc ++ [updatedAtPlaceholder +:+ " = " +:+ updatedAtValuePlaceholder] in
  {| UpdateExpression := "SET " +:+ String.concat ", " exprs;
     ExpressionAttributeNames :=
       <[updatedAtPlaceholder := ATTRIBUTES.UPDATED_AT]> (expressionAttributeNames acc);
     ExpressionAttributeValues :=
       <[updatedAtValuePlaceholder := JStr now]> (expressionAttributeValues acc) |}.
End UPDATE_BUILDERS.

(** [buildUpdateExpression] of the common layer. *)
Definition buildUpdateExpression (updates : list (string * option json)) (now : string)
    : update_params :=
  let acc := set_entries updates 0 (mkSetAcc [] ∅ ∅) in
  {| UpdateExpression :=
       "SET " +:+ String.concat ", " (expressions acc) +:+ ", #updatedAt = :updatedAt";
     ExpressionAttributeNames := <["#updatedAt" := "updatedAt"]> (expressionAttributeNames acc);
     ExpressionAttributeValues := <[":updatedAt" := JStr now]> (expressionAttributeValues acc) |}.

(** ** The DynamoDB table behind the document client *)

(** Primary keys: the values of PK and SK. *)
Abbreviation pkey := (string * string)%type.
Abbreviation table := (gmap (string * string) (gmap string json)).

(** What the service does with one request beyond the request's own
    semantics: fail it with a transient exception, or leave some keys of
    a batch unprocessed. *)
Record behaviour : Type := mkBehaviour {
  fault : option transient_error;
  unprocessed : list pkey
}.

Definition healthy : behaviour := {| fault := None; unprocessed := [] |}.

Record query_input : Type := mkQuery {
  IndexName : string;
  KeyConditionExpression : string;
  QueryValues : item;
  Limit : Z;
  ExclusiveStartKey : option json;
  ScanIndexForward : bool
}.

(** The commands the layer sends. *)
Inductive command : Type :=
  | PutCommand (Item : item) (cond : option condition)
  | GetCommand (Key : item) (ProjectionExpression : option string)
  | UpdateCommand (Key : item) (params : update_params)
  | DeleteCommand (Key : item)
  | QueryCommand (q : query_input)
  | BatchGetCommand (Keys : list item)
  | BatchWriteCommand (Items : list item).

(** The world an operation runs in: the table, what the service will do
    with the coming requests (one entry per request, [healthy] once the
    list is used up), the commands sent so far and the lines logged so
    far. *)
Record world : Type := mkWorld {
  tbl : table;
  script : list behaviour;
  sent : list command;
  logged : list string
}.

(** Operations of the layer: they read and change the world, and return
    or throw. *)
Definition M (A : Type) : Type := world -> result A * world.

Global Instance M_ret : MRet M := λ A a w, (Ok a, w).
Global Instance M_bind : MBind M := λ A B k m w,
  match m w with
  | (Ok a, w') => k a w'
  | (Err e, w') => (Err e, w')
  end.

Definition throw {A : Type} (e : error) : M A := λ w, (Err e, w).

(** [try { m } catch (error) { h error }] *)
Definition try_catch {A : Type} (m : M A) (h : error -> M A) : M A := λ w,
  match m w with
  | (Ok a, w') => (Ok a, w')
  | (Err e, w') => h e w'
  end.

(** A pure computation that may throw. *)
Definition lift {A : Type} (r : result A) : M A := λ w, (r, w).

(** [logger.info], [logger.warn], [logger.error]. *)
Definition log (level message : string) : M unit := λ w,
  (Ok tt, {| tbl := tbl w; script := script w; sent := sent w;
             logged := logged w ++ [level +:+ ": " +:+ message] |}).

Definition key_of (k : item) : option pkey :=
  match k !! ATTRIBUTES.PARTITION_KEY, k !! ATTRIBUTES.SORT_KEY with
  | Some (JStr p), Some (JStr s) => Some (p, s)
  | _, _ => None
  end.

(** The key attributes of an item, as the service reports a key. *)
Definition key_item (k : pkey) : item :=
  {[ ATTRIBUTES.PARTITION_KEY := JStr k.1; ATTRIBUTES.SORT_KEY := JStr k.2 ]}.

Definition has_attr (existing : option item) (a : string) : bool :=
  match existing with
  | Some it => bool_decide (is_Some (it !! a))
  | None => false
  end.

(** The two condition expressions the layer builds. *)
Definition eval_condition (c : condition) (existing : option item) : option bool :=
  a ← ConditionNames c !! "#attr";
  if String.eqb (ConditionExpression c) "attribute_not_exists(#attr)"
  then Some (negb (has_attr existing a))
  else if String.eqb (ConditionExpression c) "attribute_exists(#attr)"
  then Some (has_attr existing a)
  else None.

Fixpoint ltrim (s : string) : string :=
  match s with
  | String " " r => ltrim r
  | _ => s
  end.

Fixpoint strip_prefix (p s : string) : option string :=
  match p, s with
  | EmptyString, _ => Some s
  | String a p', String b s' => if Ascii.eqb a b then strip_prefix p' s' else None
  | String _ _, EmptyString => None
  end.

(** One action [name = value] of a SET clause. *)
Definition parse_action (s : string) : option (string * string) :=
  match split_chr " " (ltrim s) with
  | [n; eq; v] => if String.eqb eq "=" then Some (n, v) else None
  | _ => None
  end.

(** [SET name = value, name = value, ...] *)
Definition parse_update_expression (e : string) : option (list (string * string)) :=
  rest ← strip_prefix "SET " e;
  mapM parse_action (split_chr "," rest).

(** [attr = :placeholder], the key condition of an index query. *)
Definition parse_key_condition (e : string) : option (string * string) :=
  parse_action e.

Definition resolve_action (names : gmap string string) (vals : item)
    (a : string * string) : option (string * json) :=
  n ← names !! a.1;
  v ← vals !! a.2;
  Some (n, v).

Definition apply_actions (acts : list (string * json)) (it : item) : item :=
  foldl (λ acc a, <[a.1 := a.2]> acc) it acts.

Definition is_key_attr (a : string) : bool :=
  String.eqb a ATTRIBUTES.PARTITION_KEY || String.eqb a ATTRIBUTES.SORT_KEY.

(** The item an update leaves at a key: the SET actions applied to the
    stored item, or to the bare key when nothing is stored.  The service
    rejects an expression it cannot parse, a placeholder that is not
    bound, an action on a key attribute and two actions on one
    attribute. *)
Definition updated_item (Key : item) (p : update_params) (existing : option item)
    : option item :=
  acts ← parse_update_expression (UpdateExpression p);
  res ← mapM (resolve_action (ExpressionAttributeNames p) (ExpressionAttributeValues p)) acts;
  if existsb is_key_attr res.*1 then None
  else if bool_decide (NoDup res.*1) then
    Some (apply_actions res (default Key existing))
  else None.

(** The hash key of each global secondary index of the table. *)
Definition index_hash_key (indexName : string) : option string :=
  if String.eqb indexName INDEXES.EXTERNAL_ID then Some ATTRIBUTES.EXTERNAL_ID_KEY
  else if String.eqb indexName INDEXES.EMAIL then Some ATTRIBUTES.EMAIL_KEY
  else if String.eqb indexName INDEXES.CLKK_TAG then Some ATTRIBUTES.CLKK_TAG_KEY
  else if String.eqb indexName INDEXES.TIME_SORT then Some ATTRIBUTES.PARTITION_KEY
  else if String.eqb indexName INDEXES.TYPE_STATUS then Some ATTRIBUTES.TYPE_STATUS_KEY
  else None.

Definition with_tbl (t : table) (w : world) : world :=
  {| tbl := t; script := script w; sent := sent w; logged := logged w |}.

(** Every [docClient.send]: the command is recorded and the next entry
    of the script says what the service does with it. *)
Definition next (c : command) (w : world) : behaviour * world :=
  (default healthy (head (script w)),
   {| tbl := tbl w; script := tail (script w); sent := sent w ++ [c];
      logged := logged w |}).

Definition sdk_throw {A : Type} (e : sdk_error) (w : world) : result A * world :=
  (Err (SdkError e), w).

Definition sendPut (Item : item) (cond : option condition) : M unit := λ w,
  let '(b, w) := next (PutCommand Item cond) w in
  match fault b, key_of Item with
  | Some e, _ => sdk_throw (Transient e) w
  | None, None => sdk_throw ValidationException w
  | None, Some k =>
      match cond with
      | None => (Ok tt, with_tbl (<[k := Item]> (tbl w)) w)
      | Some c =>
          match eval_condition c (tbl w !! k) with
          | None => sdk_throw ValidationException w
          | Some true => (Ok tt, with_tbl (<[k := Item]> (tbl w)) w)
          | Some false => sdk_throw ConditionalCheckFailedException w
          end
      end
  end.

(** The attributes a projection expression keeps (one attribute name, as
    the layer writes it). *)
Definition project (proj : option string) (it : item) : item :=
  match proj with
  | Some a => filter (λ kv, kv.1 = a) it
  | None => it
  end.

Definition sendGet (Key : item) (proj : option string) : M (option item) := λ w,
  let '(b, w) := next (GetCommand Key proj) w in
  match fault b, key_of Key with
  | Some e, _ => sdk_throw (Transient e) w
  | None, None => sdk_throw ValidationException w
  | None, Some k => (Ok (project proj <$> tbl w !! k), w)
  end.

(** [ReturnValues: 'ALL_NEW']: the output carries the item as updated. *)
Definition sendUpdate (Key : item) (p : update_params) : M (option item) := λ w,
  let '(b, w) := next (UpdateCommand Key p) w in
  match fault b, key_of Key with
  | Some e, _ => sdk_throw (Transient e) w
  | None, None => sdk_throw ValidationException w
  | None, Some k =>
      match updated_item Key p (tbl w !! k) with
      | Some it => (Ok (Some it), with_tbl (<[k := it]> (tbl w)) w)
      | None => sdk_throw ValidationException w
      end
  end.

Definition sendDelete (Key : item) : M unit := λ w,
  let '(b, w) := next (DeleteCommand Key) w in
  match fault b, key_of Key with
  | Some e, _ => sdk_throw (Transient e) w
  | None, None => sdk_throw ValidationException w
  | None, Some k => (Ok tt, with_tbl (delete k (tbl w)) w)
  end.

Definition str_attr_is (it : item) (a v : string) : bool :=
  match it !! a with
  | Some (JStr s) => String.eqb s v
  | _ => false
  end.

(** The rows of an index partition, in the order the service walks
    them.  The service fixes that order by the range key of the index
    where it has one and not at all where it has none; the embedding
    takes one order, and the properties below do not depend on which. *)
Definition index_partition (hash v : string) (forward : bool) (t : table)
    : list (pkey * item) :=
  let rows := filter (λ kv, str_attr_is kv.2 hash v = true) (map_to_list t) in
  if forward then rows else reverse rows.

Definition member_str (k : string) (o : document) : option string :=
  match list_find (λ kv, kv.1 = k) o with
  | Some (_, (_, JStr s)) => Some s
  | _ => None
  end.

(** The position a start key names. *)
Definition start_position (k : json) : option pkey :=
  match k with
  | JObj o =>
      p ← member_str ATTRIBUTES.PARTITION_KEY o;
      s ← member_str ATTRIBUTES.SORT_KEY o;
      Some (p, s)
  | _ => None
  end.

Fixpoint rows_after (k : pkey) (rows : list (pkey * item)) : option (list (pkey * item)) :=
  match rows with
  | [] => None
  | r :: rest => if bool_decide (r.1 = k) then Some rest else rows_after k rest
  end.

(** [obj[k] = v]: a name already in the object keeps its place and takes
    the new value. *)
Fixpoint obj_set (k : string) (v : json) (o : document) : document :=
  match o with
  | [] => [(k, v)]
  | (k', v') :: rest =>
      if String.eqb k' k then (k, v) :: rest else (k', v') :: obj_set k v rest
  end.

(** A key object: attribute names with string values. *)
Definition marker_json (m : list (string * string)) : json :=
  JObj ((λ kv, (kv.1, JStr kv.2)) <$> m).

(** The attributes of the marker of a page: the table key of its last row
    and the hash key of the index. *)
Definition marker_attrs (hash v : string) (k : pkey) : list (string * string) :=
  if is_key_attr hash
  then [(ATTRIBUTES.PARTITION_KEY, k.1); (ATTRIBUTES.SORT_KEY, k.2)]
  else [(ATTRIBUTES.PARTITION_KEY, k.1); (ATTRIBUTES.SORT_KEY, k.2); (hash, v)].

Definition last_evaluated_key (hash v : string) (k : pkey) : json :=
  marker_json (marker_attrs hash v k).

Record query_output : Type := mkQueryOutput {
  Items : list item;
  LastEvaluatedKey : option json;
  Count : Z
}.

(** A query reads the partition from the start key on and stops at the
    limit or at the end of the partition.  When it stops at the limit
    it reports the key of the last row it read, also when no row is
    left behind it; when it comes to the end it reports none. *)
Definition run_query (q : query_input) (t : table) : option query_output :=
  hash ← index_hash_key (IndexName q);
  '(a, ph) ← parse_key_condition (KeyConditionExpression q);
  if negb (String.eqb a hash) then None else
  match QueryValues q !! ph with
  | Some (JStr v) =>
      let rows := index_partition hash v (ScanIndexForward q) t in
      rows ← match ExclusiveStartKey q with
             | None => Some rows
             | Some k => pos ← start_position k; rows_after pos rows
             end;
      if (Limit q <? 1)%Z then None else
      let page := take (Z.to_nat (Limit q)) rows in
      Some {| Items := page.*2;
              LastEvaluatedKey :=
                if (Z.to_nat (Limit q) <=? length rows)%nat
                then last_evaluated_key hash v <$> (fst <$> last page)
                else None;
              Count := Z.of_nat (length page) |}
  | _ => None
  end.

Definition sendQuery (q : query_input) : M query_output := λ w,
  let '(b, w) := next (QueryCommand q) w in
  match fault b with
  | Some e => sdk_throw (Transient e) w
  | None =>
      match run_query q (tbl w) with
      | Some out => (Ok out, w)
      | None => sdk_throw ValidationException w
      end
  end.

(** A batch is well formed when it is not empty, within the limit of the
    service, every entry has a key and no key occurs twice. *)
Definition batch_keys (limit : nat) (entries : list item) : option (list pkey) :=
  ks ← mapM key_of entries;
  if (1 <=? length ks)%nat && (length ks <=? limit)%nat && bool_decide (NoDup ks)
  then Some ks else None.

Definition is_unprocessed (b : behaviour) (k : pkey) : bool :=
  bool_decide (k ∈ unprocessed b).

(** Responses and unprocessed keys of a batch get.  The service answers
    in no fixed order; the embedding takes the order of the keys, and
    the properties of what a batch get returns are stated up to the
    order. *)
Definition sendBatchGet (Keys : list item) : M (list item * list item) := λ w,
  let '(b, w) := next (BatchGetCommand Keys) w in
  match fault b, batch_keys 100 Keys with
  | Some e, _ => sdk_throw (Transient e) w
  | None, None => sdk_throw ValidationException w
  | None, Some ks =>
      let served := filter (λ k, is_unprocessed b k = false) ks in
      (Ok (omap (λ k, tbl w !! k) served,
           key_item <$> filter (λ k, is_unprocessed b k = true) ks), w)
  end.

Definition put_all (its : list item) (t : table) : table :=
  foldl (λ acc it, match key_of it with Some k => <[k := it]> acc | None => acc end) t its.

Definition item_unprocessed (b : behaviour) (it : item) : bool :=
  match key_of it with Some k => is_unprocessed b k | None => false end.

(** Unprocessed items of a batch write. *)
Definition sendBatchWrite (Items : list item) : M (list item) := λ w,
  let '(b, w) := next (BatchWriteCommand Items) w in
  match fault b, batch_keys 25 Items with
  | Some e, _ => sdk_throw (Transient e) w
  | None, None => sdk_throw ValidationException w
  | None, Some _ =>
      (Ok (filter (λ it, item_unprocessed b it = true) Items),
       with_tbl (put_all (filter (λ it, item_unprocessed b it = false) Items) (tbl w)) w)
  end.

(** ** Entities layer: BaseEntity *)

(** [User.validate]: the schema check, logged and thrown when it fails. *)
Definition validate (u : User) : M unit :=
  if schema_ok u then mret tt
  else log "error" "User validation failed";; throw UserValidationFailed.

Definition stamp (created updated : option string) (u : User) : User :=
  {| id := id u; createdAt := created; updatedAt := updated;
     clerkId := clerkId u; email := email u; phoneNumber := phoneNumber u;
     firstName := firstName u; lastName := lastName u; clkkTag := clkkTag u;
     kycStatus := kycStatus u; kycDetails := kycDetails u;
     profileImageUrl := profileImageUrl u; dateOfBirth := dateOfBirth u;
     address := address u; metadata := metadata u |}.

(** [{...this.getPrimaryKey(), ...this.toItem(), createdAt, updatedAt}] *)
Definition stored_item (u : User) : result item :=
  it ← toItem u;
  Ok (set_str ATTRIBUTES.UPDATED_AT (updatedAt u)
        (set_str ATTRIBUTES.CREATED_AT (createdAt u) (it ∪ getPrimaryKey u))).

(** [BaseEntity.save]; the result is the instance as the call leaves it. *)
Definition save (now : string) (u : User) : M User :=
  try_catch
    (validate u;;
     let u := stamp (if truthy_str (createdAt u) then createdAt u else Some now)
                    (Some now) u in
     it ← lift (stored_item u);
     log "info" "Saving entity";;
     sendPut it None;;
     mret u)
    (λ error,
       log "error" "Failed to save entity";;
       throw error).

(** [BaseEntity.create] *)
Definition create (now : string) (u : User) : M User :=
  try_catch
    (validate u;;
     let u := stamp (Some now) (Some now) u in
     it ← lift (stored_item u);
     let condition := CONDITION_BUILDERS.attributeNotExists ATTRIBUTES.PARTITION_KEY in
     log "info" "Creating new entity";;
     sendPut it (Some condition);;
     mret u)
    (λ error,
       match error with
       | SdkError ConditionalCheckFailedException =>
           log "warn" "Entity already exists";;
           throw (AlreadyExists entityName (tmpl (id u)))
       | _ =>
           log "error" "Failed to create entity";;
           throw error
       end).

(** [BaseEntity.update] *)
Definition update (now : string) (updates : list (string * option json)) (u : User)
    : M User :=
  try_catch
    (let updateExpression := UPDATE_BUILDERS.set updates now in
     log "info" "Updating entity";;
     attributes ← sendUpdate (getPrimaryKey u) updateExpression;
     mret match attributes with
          | Some it => fromItem it
          | None => u
          end)
    (λ error,
       log "error" "Failed to update entity";;
       throw error).

(** [BaseEntity.delete] *)
Definition delete_entity (u : User) : M unit :=
  try_catch
    (log "info" "Deleting entity";;
     sendDelete (getPrimaryKey u))
    (λ error,
       log "error" "Failed to delete entity";;
       throw error).

(** [BaseEntity.getByKey] *)
Definition getByKey (key : item) : M (option User) :=
  try_catch
    (log "info" "Getting entity by key";;
     found ← sendGet key None;
     mret (fromItem <$> found))
    (λ error,
       log "error" "Failed to get entity";;
       throw error).

(** [User.getById] *)
Definition getById (userId : string) : M (option User) :=
  getByKey (KEY_BUILDERS.user (Some userId)).

(** [BaseEntity.exists] *)
Definition exists_entity (u : User) : M bool :=
  try_catch
    (found ← sendGet (getPrimaryKey u) (Some ATTRIBUTES.PARTITION_KEY);
     mret (bool_decide (is_Some found)))
    (λ error,
       log "error" "Failed to check entity existence";;
       mret false).

(** ** Runtime: base64 and JSON

    [Buffer] and [JSON] belong to the runtime, not to the repository; the
    codec of the common layer is two lines over them. *)

Definition dquote : ascii := "034"%char.
Definition backslash : ascii := "092"%char.

Definition b64_alphabet : string :=
  "ABCDEFGHIJKLMNOPQRSTUVWXYZabcdefghijklmnopqrstuvwxyz0123456789+/".

Definition b64_char (n : N) : ascii :=
  default "="%char (String.get (N.to_nat n) b64_alphabet).

(** [buf.toString('base64')] *)
Fixpoint b64_encode (bs : string) : string :=
  match bs with
  | EmptyString => EmptyString
  | String a EmptyString =>
      let x := N_of_ascii a in
      String (b64_char (x / 4)) (String (b64_char (x mod 4 * 16)) "==")
  | String a (String b EmptyString) =>
      let x := N_of_ascii a in
      let y := N_of_ascii b in
      String (b64_char (x / 4)) (String (b64_char (x mod 4 * 16 + y / 16))
        (String (b64_char (y mod 16 * 4)) "="))
  | String a (String b (String c r)) =>
      let x := N_of_ascii a in
      let y := N_of_ascii b in
      let z := N_of_ascii c in
      String (b64_char (x / 4)) (String (b64_char (x mod 4 * 16 + y / 16))
        (String (b64_char (y mod 16 * 4 + z / 64)) (String (b64_char (z mod 64))
          (b64_encode r))))
  end%N.

(** The decoding table of Node: the standard and the URL-safe alphabet. *)
Definition unbase64 (c : ascii) : option N :=
  let n := N_of_ascii c in
  (if in_range 65 90 c then Some (n - 65)
   else if in_range 97 122 c then Some (n - 71)
   else if in_range 48 57 c then Some (n + 4)
   else if Ascii.eqb c "+" || Ascii.eqb c "-" then Some 62
   else if Ascii.eqb c "/" || Ascii.eqb c "_" then Some 63
   else None)%N.

(** The sextets Node reads off a base64 text: a character outside the
    alphabets is skipped, a padding character ends the text. *)
Fixpoint b64_sextets (s : string) : list N :=
  match s with
  | EmptyString => []
  | String c r =>
      if Ascii.eqb c "=" then []
      else match unbase64 c with
           | Some n => n :: b64_sextets r
           | None => b64_sextets r
           end
  end.

Fixpoint b64_bytes (l : list N) : string :=
  match l with
  | s1 :: s2 :: s3 :: s4 :: r =>
      String (ascii_of_N (s1 * 4 + s2 / 16))
        (String (ascii_of_N (s2 mod 16 * 16 + s3 / 4))
          (String (ascii_of_N (s3 mod 4 * 64 + s4)) (b64_bytes r)))
  | [s1; s2; s3] =>
      String (ascii_of_N (s1 * 4 + s2 / 16))
        (String (ascii_of_N (s2 mod 16 * 16 + s3 / 4)) EmptyString)
  | [s1; s2] => String (ascii_of_N (s1 * 4 + s2 / 16)) EmptyString
  | _ => EmptyString
  end%N.

(** [Buffer.from(s, 'base64')] *)
Definition b64_decode (s : string) : string := b64_bytes (b64_sextets s).

Definition hex_char (n : N) : ascii :=
  default "0"%char (String.get (N.to_nat n) "0123456789abcdef").

(** The escape JSON.stringify writes for one character of a string. *)
Definition json_escape_chr (c : ascii) : string :=
  let n := N_of_ascii c in
  if Ascii.eqb c dquote then String backslash (String dquote EmptyString)
  else if Ascii.eqb c backslash then String backslash (String backslash EmptyString)
  else if (n =? 8)%N then String backslash "b"
  else if (n =? 9)%N then String backslash "t"
  else if (n =? 10)%N then String backslash "n"
  else if (n =? 12)%N then String backslash "f"
  else if (n =? 13)%N then String backslash "r"
  else if (n <? 32)%N then
    String backslash (String "u" (String "0" (String "0"
      (String (hex_char (n / 16)) (String (hex_char (n mod 16)) EmptyString)))))
  else String c EmptyString.

Fixpoint json_escape (s : string) : string :=
  match s with
  | EmptyString => EmptyString
  | String c r => json_escape_chr c +:+ json_escape r
  end.

Definition json_quote (s : string) : string :=
  String dquote (json_escape s +:+ String dquote EmptyString).

(** [JSON.stringify] *)
Fixpoint JSON_stringify (j : json) : string :=
  match j with
  | JNull => "null"
  | JBool true => "true"
  | JBool false => "false"
  | JNum lexeme => lexeme
  | JStr s => json_quote s
  | JArr elems => "[" +:+ String.concat "," (map JSON_stringify elems) +:+ "]"
  | JObj members =>
      "{" +:+ String.concat ","
                (map (λ kv, json_quote kv.1 +:+ ":" +:+ JSON_stringify kv.2) members)
          +:+ "}"
  end.

Definition is_json_ws (c : ascii) : bool :=
  let n := N_of_ascii c in
  (n =? 32)%N || (n =? 9)%N || (n =? 10)%N || (n =? 13)%N.

Fixpoint skip_ws (s : string) : string :=
  match s with
  | String c r => if is_json_ws c then skip_ws r else s
  | EmptyString => EmptyString
  end.

Definition hex_val (c : ascii) : option N :=
  let n := N_of_ascii c in
  (if in_range 48 57 c then Some (n - 48)
   else if in_range 97 102 c then Some (n - 87)
   else if in_range 65 70 c then Some (n - 55)
   else None)%N.

(** The UTF-8 bytes of the code unit a [\u] escape names. *)
Definition utf8_unit (u : N) : string :=
  (if u <? 128 then String (ascii_of_N u) EmptyString
   else if u <? 2048 then
     String (ascii_of_N (192 + u / 64)) (String (ascii_of_N (128 + u mod 64)) EmptyString)
   else
     String (ascii_of_N (224 + u / 4096))
       (String (ascii_of_N (128 + u / 64 mod 64))
         (String (ascii_of_N (128 + u mod 64)) EmptyString)))%N.

(** The characters of a JSON string after its opening quote, up to the
    closing quote: the string read and the text left. *)
Fixpoint parse_string_body (s : string) : option (string * string) :=
  match s with
  | EmptyString => None
  | String c r =>
      if Ascii.eqb c dquote then Some (EmptyString, r)
      else if Ascii.eqb c backslash then
        match r with
        | String e r1 =>
            let simple (x : ascii) :=
              '(body, rest) ← parse_string_body r1; Some (String x body, rest) in
            if Ascii.eqb e dquote then simple dquote
            else if Ascii.eqb e backslash then simple backslash
            else if Ascii.eqb e "/" then simple "/"%char
            else if Ascii.eqb e "b" then simple "008"%char
            else if Ascii.eqb e "f" then simple "012"%char
            else if Ascii.eqb e "n" then simple "010"%char
            else if Ascii.eqb e "r" then simple "013"%char
            else if Ascii.eqb e "t" then simple "009"%char
            else if Ascii.eqb e "u" then
              match r1 with
              | String h1 (String h2 (String h3 (String h4 r2))) =>
                  match hex_val h1, hex_val h2, hex_val h3, hex_val h4 with
                  | Some a, Some b, Some c, Some d =>
                      '(body, rest) ← parse_string_body r2;
                      Some (utf8_unit (a * 4096 + b * 256 + c * 16 + d)%N +:+ body, rest)
                  | _, _, _, _ => None
                  end
              | _ => None
              end
            else None
        | EmptyString => None
        end
      else if (N_of_ascii c <? 32)%N then None
      else '(body, rest) ← parse_string_body r; Some (String c body, rest)
  end.

Fixpoint span_digits (s : string) : string * string :=
  match s with
  | String c r =>
      if is_digit c then let '(d, rest) := span_digits r in (String c d, rest)
      else (EmptyString, s)
  | EmptyString => (EmptyString, EmptyString)
  end.

(** A JSON number at the head of a text: its lexeme and the text left. *)
Definition parse_number (s : string) : option (string * string) :=
  let '(sign, s1) := match s with String "-" r => ("-", r) | _ => (EmptyString, s) end in
  '(int, s2) ← match s1 with
               | String "0" r => Some ("0", r)
               | String c r =>
                   if in_range 49 57 c then
                     let '(d, rest) := span_digits r in Some (String c d, rest)
                   else None
               | EmptyString => None
               end;
  '(frac, s3) ← match s2 with
                | String "." r =>
                    match span_digits r with
                    | (EmptyString, _) => None
                    | (d, rest) => Some (String "." d, rest)
                    end
                | _ => Some (EmptyString, s2)
                end;
  '(exp, s4) ← match s3 with
               | String e r =>
                   if Ascii.eqb e "e" || Ascii.eqb e "E" then
                     let '(sg, r1) :=
                       match r with
                       | String "+" r' => ("+", r')
                       | String "-" r' => ("-", r')
                       | _ => (EmptyString, r)
                       end in
                     match span_digits r1 with
                     | (EmptyString, _) => None
                     | (d, rest) => Some (String e (sg +:+ d), rest)
                     end
                   else Some (EmptyString, s3)
               | EmptyString => Some (EmptyString, s3)
               end;
  Some (sign +:+ int +:+ frac +:+ exp, s4).

(** The elements of an array after the first, up to the closing bracket. *)
Fixpoint parse_elements (n : nat) (value : string -> option (json * string))
    (acc : list json) (s : string) : option (json * string) :=
  match n with
  | O => None
  | S n' =>
      match skip_ws s with
      | String "]" r => Some (JArr acc, r)
      | String "," r => '(v, r') ← value r; parse_elements n' value (acc ++ [v]) r'
      | _ => None
      end
  end.

(** One member [name : value] of an object. *)
Definition parse_member (value : string -> option (json * string)) (s : string)
    : option (string * json * string) :=
  match skip_ws s with
  | String c r =>
      if Ascii.eqb c dquote then
        '(k, r1) ← parse_string_body r;
        match skip_ws r1 with
        | String ":" r2 => '(v, r3) ← value r2; Some (k, v, r3)
        | _ => None
        end
      else None
  | EmptyString => None
  end.

(** The members of an object after the first, up to the closing brace. *)
Fixpoint parse_members (n : nat) (value : string -> option (json * string))
    (acc : document) (s : string) : option (json * string) :=
  match n with
  | O => None
  | S n' =>
      match skip_ws s with
      | String "}" r => Some (JObj acc, r)
      | String "," r =>
          '(k, v, r') ← parse_member value r;
          parse_members n' value (obj_set k v acc) r'
      | _ => None
      end
  end.

(** A JSON value at the head of a text.  [fuel] bounds the nesting and the
    number of elements; the length of the text is always enough. *)
Fixpoint parse_value (fuel : nat) (s : string) : option (json * string) :=
  match fuel with
  | O => None
  | S f =>
      match skip_ws s with
      | EmptyString => None
      | String c r =>
          if Ascii.eqb c dquote then
            '(str, rest) ← parse_string_body r; Some (JStr str, rest)
          else if Ascii.eqb c "[" then
            match skip_ws r with
            | String "]" r' => Some (JArr [], r')
            | _ => '(v, r') ← parse_value f r; parse_elements f (parse_value f) [v] r'
            end
          else if Ascii.eqb c "{" then
            match skip_ws r with
            | String "}" r' => Some (JObj [], r')
            | _ =>
                '(k, v, r') ← parse_member (parse_value f) r;
                parse_members f (parse_value f) [(k, v)] r'
            end
          else if Ascii.eqb c "t" then r' ← strip_prefix "rue" r; Some (JBool true, r')
          else if Ascii.eqb c "f" then r' ← strip_prefix "alse" r; Some (JBool false, r')
          else if Ascii.eqb c "n" then r' ← strip_prefix "ull" r; Some (JNull, r')
          else '(lexeme, r') ← parse_number (String c r); Some (JNum lexeme, r')
      end
  end.

(** [JSON.parse]: [None] when it throws a SyntaxError. *)
Definition JSON_parse (text : string) : option json :=
  '(v, rest) ← parse_value (S (String.length text)) text;
  match skip_ws rest with
  | EmptyString => Some v
  | String _ _ => None
  end.

Fixpoint mantissa_nonzero (lexeme : string) : bool :=
  match lexeme with
  | EmptyString => false
  | String c r =>
      if Ascii.eqb c "e" || Ascii.eqb c "E" then false
      else in_range 49 57 c || mantissa_nonzero r
  end.

(** Truthiness of a value: [null], [false], zero and the empty string are
    falsy (a number so small that it reads as zero is not told apart
    here). *)
Definition truthy (v : option json) : bool :=
  match v with
  | None => false
  | Some JNull => false
  | Some (JBool b) => b
  | Some (JNum lexeme) => mantissa_nonzero lexeme
  | Some (JStr s) => negb (String.eqb s EmptyString)
  | Some (JArr _) => true
  | Some (JObj _) => true
  end.

(** ** Common layer: the pagination codec *)

Record PaginationParams : Type := mkPaginationParams {
  limit : option Z;
  nextToken : option string
}.

Module Paging.
Record t : Type := mk {
  Limit : Z;
  ExclusiveStartKey : option json
}.
End Paging.

(** [parsePaginationParams] *)
Definition parsePaginationParams (params : PaginationParams) : result Paging.t :=
  let Limit := match limit params with
               | Some n => if (n =? 0)%Z then 20%Z else n
               | None => 20%Z
               end in
  if truthy_str (nextToken params) then
    match JSON_parse (b64_decode (tmpl (nextToken params))) with
    | Some k => Ok (Paging.mk Limit (Some k))
    | None => Err SyntaxError
    end
  else Ok (Paging.mk Limit None).

(** [createNextToken] *)
Definition createNextToken (lastEvaluatedKey : option json) : option string :=
  match lastEvaluatedKey with
  | Some k =>
      if truthy (Some k) then Some (b64_encode (JSON_stringify k)) else None
  | None => None
  end.

(** ** Entities layer: User, continued *)

(** [{...a, ...b}] on objects. *)
Definition obj_spread (a b : document) : document :=
  foldl (λ acc kv, obj_set kv.1 kv.2 acc) a b.

Definition with_kyc (status : option string) (details : option document) (u : User) : User :=
  {| id := id u; createdAt := createdAt u; updatedAt := updatedAt u;
     clerkId := clerkId u; email := email u; phoneNumber := phoneNumber u;
     firstName := firstName u; lastName := lastName u; clkkTag := clkkTag u;
     kycStatus := status; kycDetails := details;
     profileImageUrl := profileImageUrl u; dateOfBirth := dateOfBirth u;
     address := address u; metadata := metadata u |}.

(** [User.updateKycStatus] *)
Definition updateKycStatus (now : string) (status : string) (details : option document)
    (u : User) : M User :=
  let u := with_kyc (Some status)
             match details with
             | Some d =>
                 Some (obj_set "status" (JStr status)
                         (obj_spread (default [] (kycDetails u)) d))
             | None => kycDetails u
             end u in
  update now [(ATTRIBUTES.KYC_STATUS, JStr <$> kycStatus u);
              (ATTRIBUTES.KYC_DETAILS, JObj <$> kycDetails u)] u.

(** ** Repositories layer: BaseRepository *)

Global Instance result_ret : MRet result := λ A a, Ok a.

(** The loop of [chunkArray] from index [i] on; [fuel] bounds the number
    of rounds, and the length of the array is enough for a positive
    [size]. *)
Fixpoint chunk_from {A : Type} (fuel i size : nat) (array : list A) : list (list A) :=
  match fuel with
  | O => []
  | S f =>
      if (i <? length array)%nat
      then take size (drop i array) :: chunk_from f (i + size) size array
      else []
  end.

(** [BaseRepository.chunkArray] *)
Definition chunkArray {A : Type} (array : list A) (size : nat) : list (list A) :=
  chunk_from (length array) 0 size array.

(** The options of [queryByIndex] the lookups of the user repository
    pass: a page request and a direction. *)
Record query_options : Type := mkQueryOptions {
  pagination : option PaginationParams;
  scanIndexForward : option bool
}.

Module Page.
Record t : Type := mk {
  items : list User;
  nextToken : option string;
  count : Z
}.
End Page.

(** [BaseRepository.queryByIndex] *)
Definition queryByIndex (indexName : string) (keyCondition : key_condition)
    (options : query_options) : M Page.t :=
  try_catch
    (paginationParams ←
       lift (parsePaginationParams
               (default (mkPaginationParams None None) (pagination options)));
     let params :=
       {| IndexName := indexName;
          KeyConditionExpression := expression keyCondition;
          QueryValues := values keyCondition;
          Limit := Paging.Limit paginationParams;
          ExclusiveStartKey := Paging.ExclusiveStartKey paginationParams;
          ScanIndexForward := default false (scanIndexForward options) |} in
     log "info" "Querying by index";;
     out ← sendQuery params;
     mret (Page.mk (fromItem <$> Items out)
                   (createNextToken (LastEvaluatedKey out))
                   (Count out)))
    (λ error,
       log "error" "Failed to query by index";;
       throw error).

(** The loop of [batchGet] over the chunks. *)
Fixpoint batchGet_chunks (chunks : list (list item)) (allItems : list User)
    : M (list User) :=
  match chunks with
  | [] => mret allItems
  | chunk :: rest =>
      '(responses, unprocessedKeys) ← sendBatchGet chunk;
      let allItems := allItems ++ (fromItem <$> responses) in
      match unprocessedKeys with
      | [] => mret tt
      | _ :: _ => log "warn" "Unprocessed keys in batch get"
      end;;
      batchGet_chunks rest allItems
  end.

(** [BaseRepository.batchGet] *)
Definition batchGet (keys : list item) : M (list User) :=
  try_catch
    (batchGet_chunks (chunkArray keys 100) [])
    (λ error,
       log "error" "Failed to batch get items";;
       throw error).

(** The item [batchWrite] puts for an entity.  The code reads the clock
    for each time stamp; [now] stands for these readings, and the
    properties of what is read back leave the time stamps open. *)
Definition put_request (now : string) (entity : User) : result item :=
  it ← toItem entity;
  Ok (set_str ATTRIBUTES.UPDATED_AT (Some now)
        (set_str ATTRIBUTES.CREATED_AT
           (if truthy_str (createdAt entity) then createdAt entity else Some now)
           (it ∪ getPrimaryKey entity))).

(** The loop of [batchWrite] over the chunks. *)
Fixpoint batchWrite_chunks (now : string) (chunks : list (list User)) : M unit :=
  match chunks with
  | [] => mret tt
  | chunk :: rest =>
      putRequests ← lift (mapM (put_request now) chunk);
      unprocessedItems ← sendBatchWrite putRequests;
      match unprocessedItems with
      | [] => mret tt
      | _ :: _ => log "warn" "Unprocessed items in batch write"
      end;;
      batchWrite_chunks now rest
  end.

(** [BaseRepository.batchWrite] *)
Definition batchWrite (now : string) (entities : list User) : M unit :=
  try_catch
    (batchWrite_chunks now (chunkArray entities 25))
    (λ error,
       log "error" "Failed to batch write items";;
       throw error).

(** ** Repositories layer: UserRepository *)

Definition limit_one : query_options :=
  {| pagination := Some (mkPaginationParams (Some 1%Z) None);
     scanIndexForward := None |}.

(** [UserRepository.getByClerkId] *)
Definition getByClerkId (clerkId : string) : M (option User) :=
  try_catch
    (let keyCondition :=
       QUERY_BUILDERS.keyCondition ATTRIBUTES.EXTERNAL_ID_KEY
         (tmpl (get_str (KEY_BUILDERS.userByClerkId (Some clerkId))
                        ATTRIBUTES.EXTERNAL_ID_KEY)) in
     page ← queryByIndex INDEXES.EXTERNAL_ID keyCondition limit_one;
     mret (head (Page.items page)))
    (λ error,
       log "error" "Failed to get user by Clerk ID";;
       throw error).

(** [UserRepository.getByEmail] *)
Definition getByEmail (email : string) : M (option User) :=
  try_catch
    (key ← lift (KEY_BUILDERS.userByEmail (Some email));
     let keyCondition :=
       QUERY_BUILDERS.keyCondition ATTRIBUTES.EMAIL_KEY
         (tmpl (get_str key ATTRIBUTES.EMAIL_KEY)) in
     page ← queryByIndex INDEXES.EMAIL keyCondition limit_one;
     mret (head (Page.items page)))
    (λ error,
       log "error" "Failed to get user by email";;
       throw error).

(** [UserRepository.getByClkkTag] *)
Definition getByClkkTag (clkkTag : string) : M (option User) :=
  try_catch
    (key ← lift (KEY_BUILDERS.userByClkkTag (Some clkkTag));
     let keyCondition :=
       QUERY_BUILDERS.keyCondition ATTRIBUTES.CLKK_TAG_KEY
         (tmpl (get_str key ATTRIBUTES.CLKK_TAG_KEY)) in
     page ← queryByIndex INDEXES.CLKK_TAG keyCondition limit_one;
     mret (head (Page.items page)))
    (λ error,
       log "error" "Failed to get user by CLKK tag";;
       throw error).

(** [UserRepository.getByIds] *)
Definition getByIds (userIds : list string) : M (list User) :=
  match userIds with
  | [] => mret []
  | _ :: _ =>
      try_catch
        (batchGet ((λ i, KEY_BUILDERS.user (Some i)) <$> userIds))
        (λ error,
           log "error" "Failed to get users by IDs";;
           throw error)
  end.

(** [UserRepository.createMany] *)
Definition createMany (now : string) (users : list User) : M unit :=
  match users with
  | [] => mret tt
  | _ :: _ =>
      try_catch
        (mapM validate users;;
         batchWrite now users;;
         log "info" "Created multiple users")
        (λ error,
           log "error" "Failed to create multiple users";;
           throw error)
  end.

(** A world with a given table, a given script, and nothing sent or
    logged yet. *)
Definition fresh (t : table) (s : list behaviour) : world :=
  {| tbl := t; script := s; sent := []; logged := [] |}.

(** ** Vocabulary of the statements *)

(** An optional string that is absent or not empty: [toItem] writes an
    optional string only when it is truthy. *)
Definition nonempty_opt (v : option string) : Prop := v ≠ Some EmptyString.

(** The primary key of the row of a user. *)
Definition user_key (u : User) : pkey :=
  (ENTITY_PREFIXES.USER +:+ "#" +:+ tmpl (id u),
   ENTITY_PREFIXES.USER +:+ "#" +:+ tmpl (id u)).

(** The service lets the next request through. *)
Definition next_ok (w : world) : Prop :=
  fault (default healthy (head (script w))) = None.

(** The service lets every coming request through. *)
Definition no_faults (w : world) : Prop :=
  Forall (λ b, fault b = None) (script w).

(** The service processes every coming request in full. *)
Definition all_healthy (w : world) : Prop :=
  Forall (λ b, b = healthy) (script w).

(** ** Sample data of the examples *)

Definition sample_user : User :=
  {| id := Some "u1"; createdAt := None; updatedAt := None;
     clerkId := Some "clerk_1"; email := Some "Test@Example.com";
     phoneNumber := Some "+15551234567"; firstName := Some "Ada";
     lastName := None; clkkTag := Some "ada0042";
     kycStatus := Some "NOT_STARTED"; kycDetails := None;
     profileImageUrl := None; dateOfBirth := None;
     address := Some [("city", JStr "Paris")]; metadata := None |}.

Definition sample_user_stamped : User :=
  stamp (Some "2024-01-01T00:00:00.000Z") (Some "2024-01-02T00:00:00.000Z") sample_user.

Definition with_image (v : option string) (u : User) : User :=
  {| id := id u; createdAt := createdAt u; updatedAt := updatedAt u;
     clerkId := clerkId u; email := email u; phoneNumber := phoneNumber u;
     firstName := firstName u; lastName := lastName u; clkkTag := clkkTag u;
     kycStatus := kycStatus u; kycDetails := kycDetails u;
     profileImageUrl := v; dateOfBirth := dateOfBirth u;
     address := address u; metadata := metadata u |}.

(** A second valid user with the id of [sample_user]. *)
Definition sample_rival : User :=
  {| id := Some "u1"; createdAt := None; updatedAt := None;
     clerkId := Some "clerk_2"; email := Some "rival@example.com";
     phoneNumber := None; firstName := None; lastName := None; clkkTag := None;
     kycStatus := Some "PENDING"; kycDetails := None;
     profileImageUrl := None; dateOfBirth := None;
     address := None; metadata := None |}.

(** A user with the id of [sample_user] that fails validation: its
    Clerk id is empty. *)
Definition sample_invalid : User :=
  {| id := Some "u1"; createdAt := None; updatedAt := None;
     clerkId := Some EmptyString; email := Some "rival@example.com";
     phoneNumber := None; firstName := None; lastName := None; clkkTag := None;
     kycStatus := Some "PENDING"; kycDetails := None;
     profileImageUrl := None; dateOfBirth := None;
     address := None; metadata := None |}.

(** The world after [sample_user] was created in an empty table. *)
Definition world_with_sample : world :=
  (create "2024-01-01T00:00:00.000Z" sample_user (fresh ∅ [])).2.

(** The service fails the next request with the transient error [t]. *)
Definition next_fails (t : transient_error) (w : world) : Prop :=
  fault (default healthy (head (script w))) = Some t.

(** A service whose first answer is a timeout. *)
Definition timeout_once : list behaviour :=
  [{| fault := Some RequestTimeout; unprocessed := [] |}].

(** The row of the table a key object names. *)
Definition row_at (t : table) (key : item) : option item :=
  k ← key_of key; t !! k.

(** An entry of a batch whose key the behaviour leaves unprocessed. *)
Definition entry_unprocessed {A : Type} (key : A -> option pkey) (b : behaviour) (x : A)
    : bool :=
  match key x with Some k => is_unprocessed b k | None => false end.

(** The entries of a batch that the service processes: chunk by chunk,
    the entries that the behaviour of the chunk's request does not
    leave unprocessed. *)
Fixpoint processed {A : Type} (key : A -> option pkey) (chunks : list (list A))
    (script : list behaviour) : list A :=
  match chunks with
  | [] => []
  | chunk :: rest =>
      filter (λ x, entry_unprocessed key (default healthy (head script)) x = false) chunk
      ++ processed key rest (tail script)
  end.

(** The warnings of a batch operation: the line [warning] once for each
    chunk of which the service leaves an entry unprocessed. *)
Fixpoint warnings {A : Type} (warning : string) (key : A -> option pkey)
    (chunks : list (list A)) (script : list behaviour) : list string :=
  match chunks with
  | [] => []
  | chunk :: rest =>
      (if existsb (entry_unprocessed key (default healthy (head script))) chunk
       then [warning] else [])
      ++ warnings warning key rest (tail script)
  end.

(** The service leaves nothing unprocessed. *)
Definition all_processed (w : world) : Prop :=
  Forall (λ b, unprocessed b = []) (script w).

(** Valid users u0, u1, ... with distinct ids. *)
Definition numbered_user (i : nat) : User :=
  {| id := Some ("u" +:+ pretty i); createdAt := None; updatedAt := None;
     clerkId := Some ("clerk_" +:+ pretty i); email := Some "user@example.com";
     phoneNumber := None; firstName := None; lastName := None; clkkTag := None;
     kycStatus := Some "NOT_STARTED"; kycDetails := None;
     profileImageUrl := None; dateOfBirth := None;
     address := None; metadata := None |}.

Definition numbered_users (n : nat) : list User := numbered_user <$> seq 0 n.

(** The table after a batch write of 120 users that the service
    processed in full. *)
Definition table_120 : table :=
  tbl (batchWrite "2024-01-01T00:00:00.000Z" (numbered_users 120) (fresh ∅ [])).2.

Definition keys_120 : list item := getPrimaryKey <$> numbered_users 120.

(** A service that leaves three keys of the first request unprocessed
    and processes every later request in full. *)
Definition three_unprocessed_once : list behaviour :=
  [{| fault := None;
      unprocessed := [user_key (numbered_user 3); user_key (numbered_user 4);
                      user_key (numbered_user 5)] |}].


(** The value of the email index key the read path asks for. *)
Definition email_index_value (email : string) : string :=
  ENTITY_PREFIXES.EMAIL +:+ "#" +:+ toLowerCase email.

(** The text [JSON.stringify] writes for the members of a key object
    after the first one. *)
Definition members_tail (m : list (string * string)) : string :=
  foldr (λ kv t, "," +:+ json_quote kv.1 +:+ ":" +:+ json_quote kv.2 +:+ t)
        EmptyString m.

(** A token decodes to a position of the table. *)
Definition names_position (tok : string) : Prop :=
  exists k, JSON_parse (b64_decode tok) = Some k /\ is_Some (start_position k).

(** ** Vocabulary of the update expressions *)

(** The entries of an update object that have a value, in the order of
    the object. *)
Definition defined_entries (updates : list (string * option json))
    : list (string * json) :=
  omap (λ kv, v ← kv.2; Some (kv.1, v)) updates.

(** The same entries with their position in the object, counted from
    [index]. *)
Fixpoint defined_from (entries : list (string * option json)) (index : nat)
    : list (nat * (string * json)) :=
  match entries with
  | [] => []
  | (key, Some v) :: rest => (index, (key, v)) :: defined_from rest (S index)
  | (_, None) :: rest => defined_from rest (S index)
  end.

(** The two placeholders of entry number [index] and the SET action
    written with them. *)
Definition name_placeholder (index : nat) : string := "#attr" +:+ pretty index.
Definition value_placeholder (index : nat) : string := ":val" +:+ pretty index.
Definition set_action (index : nat) : string :=
  name_placeholder index +:+ " = " +:+ value_placeholder index.

(** A string without the character [c]. *)
Definition free_of (c : ascii) (s : string) : bool :=
  forallb_str (λ d, negb (Ascii.eqb d c)) s.

(** The attributes and values that the SET actions of an update
    expression name, read as the service reads them. *)
Definition resolved_actions (p : update_params) : option (list (string * json)) :=
  acts ← parse_update_expression (UpdateExpression p);
  mapM (resolve_action (ExpressionAttributeNames p) (ExpressionAttributeValues p)) acts.

(** The row of [sample_user] in [world_with_sample]. *)
Definition sample_row : item :=
  default ∅ (tbl world_with_sample !! user_key sample_user).

(** An update object with a value for the first name and an undefined
    phone number. *)
Definition sample_updates : list (string * option json) :=
  [("firstName", Some (JStr "Al")); ("phoneNumber", None)].

(** * The rest of the layer *)

(** ** Entities layer: BaseEntity, continued *)

Module BaseEntity.
(** The loop of the static [BaseEntity.batchGet]: one [getByKey] per
    key. *)
Fixpoint batchGet_loop (keys : list item) (results : list User) : M (list User) :=
  match keys with
  | [] => mret results
  | key :: rest =>
      found ← getByKey key;
      batchGet_loop rest match found with
                         | Some entity => results ++ [entity]
                         | None => results
                         end
  end.

(** [BaseEntity.batchGet] *)
Definition batchGet (keys : list item) : M (list User) := batchGet_loop keys [].
End BaseEntity.

(** ** Repositories layer: UserRepository, continued *)

(** [UserRepository.emailExists] *)
Definition emailExists (email : string) : M bool :=
  user ← getByEmail email;
  mret (bool_decide (is_Some user)).

(** [UserRepository.clkkTagExists] *)
Definition clkkTagExists (clkkTag : string) : M bool :=
  user ← getByClkkTag clkkTag;
  mret (bool_decide (is_Some user)).


(** A service that leaves the key of user number 1 unprocessed once. *)
Definition one_unprocessed : behaviour :=
  {| fault := None; unprocessed := [user_key (numbered_user 1)] |}.

(** ** Vocabulary of the index queries *)

(** The query [queryByIndex] sends for a key condition of
    [QUERY_BUILDERS.keyCondition] on the attribute [hash]. *)
Definition index_query (indexName hash v : string) (lim : Z) (start : option json)
    (forward : bool) : query_input :=
  {| IndexName := indexName;
     KeyConditionExpression := expression (QUERY_BUILDERS.keyCondition hash v);
     QueryValues := values (QUERY_BUILDERS.keyCondition hash v);
     Limit := lim;
     ExclusiveStartKey := start;
     ScanIndexForward := forward |}.

(** The page of at most [n] rows at the front of [rows], as a query
    reports it. *)
Definition page_of (hash v : string) (n : nat) (rows : list (pkey * item)) : query_output :=
  {| Items := (take n rows).*2;
     LastEvaluatedKey :=
       if (n <=? length rows)%nat
       then last_evaluated_key hash v <$> (fst <$> last (take n rows))
       else None;
     Count := Z.of_nat (length (take n rows)) |}.


(** The limit [parsePaginationParams] passes on: [limit || 20]. *)
Definition limit_or_20 (lim : option Z) : Z :=
  match lim with
  | Some n => if (n =? 0)%Z then 20%Z else n
  | None => 20%Z
  end.

(** The values of the Clerk-id index key and of the tag index key the
    lookups ask for. *)
Definition clerk_index_value (clerkId : string) : string :=
  ENTITY_PREFIXES.CLERK +:+ "#" +:+ clerkId.

Definition tag_index_value (clkkTag : string) : string :=
  ENTITY_PREFIXES.TAG +:+ "#" +:+ toLowerCase clkkTag.


(** ** Repositories layer: BaseRepository, continued *)

(** [array.slice(0, end)] *)
Definition slice0 {A : Type} (array : list A) (stop : Z) : list A :=
  if (stop <? 0)%Z then take (Z.to_nat (Z.of_nat (length array) + stop)) array
  else take (Z.to_nat stop) array.

(** The do-while loop of [queryAllPages], for a call without sort-key
    condition and filter.  [fuel] bounds the number of rounds: [None] is
    a loop that has not come to its end within the bound. *)
Fixpoint queryAllPages_loop (fuel : nat) (indexName : string)
    (keyCondition : key_condition) (maxItems : Z)
    (allItems : list User) (nextToken : option string) : M (option (list User)) :=
  match fuel with
  | O => mret None
  | S fuel =>
      result ← queryByIndex indexName keyCondition
                 {| pagination :=
                      Some (mkPaginationParams
                              (Some (Z.min 100 (maxItems - Z.of_nat (length allItems))))
                              nextToken);
                    scanIndexForward := None |};
      let allItems := allItems ++ Page.items result in
      let nextToken := Page.nextToken result in
      if (maxItems <=? Z.of_nat (length allItems))%Z then mret (Some allItems)
      else if truthy_str nextToken
           then queryAllPages_loop fuel indexName keyCondition maxItems allItems nextToken
           else mret (Some allItems)
  end.

(** [BaseRepository.queryAllPages]; [options?.maxItems || 1000]. *)
Definition queryAllPages (fuel : nat) (indexName : string) (keyCondition : key_condition)
    (maxItems : option Z) : M (option (list User)) :=
  let maxItems := match maxItems with
                  | Some n => if (n =? 0)%Z then 1000%Z else n
                  | None => 1000%Z
                  end in
  allItems ← queryAllPages_loop fuel indexName keyCondition maxItems [] None;
  mret ((λ l, slice0 l maxItems) <$> allItems).

(** The token [tok] stands for position [c] in [rows]: no token at the
    start, and later the token of the marker of the row before [c]. *)
Definition at_position (hash v : string) (rows : list (pkey * item)) (c : nat)
    (tok : option string) : Prop :=
  (c = 0%nat /\ tok = None) \/
  (exists k r, (1 <= c)%nat /\ rows !! (c - 1)%nat = Some (k, r) /\
               tok = createNextToken (Some (last_evaluated_key hash v k))).

(** [maxItems || 1000] *)
Definition maxItems_or_1000 (maxItems : option Z) : Z :=
  match maxItems with
  | Some n => if (n =? 0)%Z then 1000%Z else n
  | None => 1000%Z
  end.

(** The number of queries of the walk of [queryAllPages] from position
    [c] on, over a partition of [size] rows: the pages of a hundred up
    to [maxItems] rows when the partition has that many, and otherwise
    the full pages of a hundred and one page more. *)
Definition pages_from (maxItems : Z) (size c : nat) : nat :=
  if (maxItems <=? Z.of_nat size)%Z
  then ((Z.to_nat maxItems - c + 99) / 100)%nat
  else ((size - c) / 100 + 1)%nat.

(** A table with one row that carries an email index key. *)
Definition one_email_row : table :=
  {[ user_key sample_user := {[ ATTRIBUTES.EMAIL_KEY := JStr "EMAIL#a@b.c" ]} ]}.

(** A table of [n] rows that carry the same email index key. *)
Definition shared_email_table (n : nat) : table :=
  list_to_map ((λ i, (user_key (numbered_user i),
                      ({[ ATTRIBUTES.EMAIL_KEY := JStr "EMAIL#a@b.c" ]} : item)))
               <$> seq 0 n).

(** ** Constants layer, continued *)

(** The other entries of [ENTITY_PREFIXES]. *)
Module ENTITY_PREFIXES'.
Definition WALLET := "WALLET".
Definition TRANSACTION := "TXN".
Definition KYC_DOCUMENT := "KYC#DOC".
Definition DATE := "DATE".
End ENTITY_PREFIXES'.

(** The other entries of [KEY_BUILDERS]. *)
Module KEY_BUILDERS'.
Definition wallet (userId walletId : option string) : item :=
  {[ ATTRIBUTES.PARTITION_KEY := JStr (ENTITY_PREFIXES.USER +:+ "#" +:+ tmpl userId);
     ATTRIBUTES.SORT_KEY := JStr (ENTITY_PREFIXES'.WALLET +:+ "#" +:+ tmpl walletId) ]}.

Definition transaction (userId timestamp transactionId : option string) : item :=
  {[ ATTRIBUTES.PARTITION_KEY := JStr (ENTITY_PREFIXES.USER +:+ "#" +:+ tmpl userId);
     ATTRIBUTES.SORT_KEY :=
       JStr (ENTITY_PREFIXES'.TRANSACTION +:+ "#" +:+ tmpl timestamp +:+ "#"
             +:+ tmpl transactionId) ]}.

Definition transactionByDate (userId date : option string) : item :=
  {[ ATTRIBUTES.PARTITION_KEY := JStr (ENTITY_PREFIXES.USER +:+ "#" +:+ tmpl userId);
     ATTRIBUTES.TIME_SORT_KEY := JStr (ENTITY_PREFIXES'.DATE +:+ "#" +:+ tmpl date) ]}.

Definition kycDocument (userId documentId : option string) : item :=
  {[ ATTRIBUTES.PARTITION_KEY := JStr (ENTITY_PREFIXES.USER +:+ "#" +:+ tmpl userId);
     ATTRIBUTES.SORT_KEY :=
       JStr (ENTITY_PREFIXES'.KYC_DOCUMENT +:+ "#" +:+ tmpl documentId) ]}.
End KEY_BUILDERS'.

(** ** Common layer, continued *)

(** [TableKeys], the key builders of the common layer. *)
Module TableKeys.
Definition user (userId : option string) : item :=
  {[ "PK" := JStr ("USER#" +:+ tmpl userId); "SK" := JStr ("USER#" +:+ tmpl userId) ]}.

Definition userByClerkId (clerkId : option string) : item :=
  {[ "ExternalIdKey" := JStr ("CLERK#" +:+ tmpl clerkId) ]}.

Definition userByEmail (email : option string) : result item :=
  match email with
  | Some e => Ok {[ "EmailKey" := JStr ("EMAIL#" +:+ toLowerCase e) ]}
  | None => Err TypeError
  end.

Definition userByClkkTag (clkkTag : option string) : result item :=
  match clkkTag with
  | Some t => Ok {[ "ClkkTagKey" := JStr ("TAG#" +:+ toLowerCase t) ]}
  | None => Err TypeError
  end.

Definition wallet (userId walletId : option string) : item :=
  {[ "PK" := JStr ("USER#" +:+ tmpl userId); "SK" := JStr ("WALLET#" +:+ tmpl walletId) ]}.

Definition transaction (userId timestamp transactionId : option string) : item :=
  {[ "PK" := JStr ("USER#" +:+ tmpl userId);
     "SK" := JStr ("TXN#" +:+ tmpl timestamp +:+ "#" +:+ tmpl transactionId) ]}.

Definition kycDocument (userId documentId : option string) : item :=
  {[ "PK" := JStr ("USER#" +:+ tmpl userId);
     "SK" := JStr ("KYC#DOC#" +:+ tmpl documentId) ]}.
End TableKeys.

(** How a call ends that may throw a value that is no error:
    [withRetry] throws [undefined] when it never called [fn]. *)
Inductive outcome (A : Type) : Type :=
  | Returned (a : A)
  | Thrown (e : option error).
Arguments Returned {A} a.
Arguments Thrown {A} e.

(** The loop of [withRetry] from round [i] on; [rounds] is the number
    of rounds left, [slept] the delays of the timers awaited so far, in
    milliseconds. *)
Fixpoint withRetry_from {A : Type} (fn : M A) (maxRetries backoffMs : Z)
    (rounds : nat) (i : Z) (lastError : option error) (slept : list Z) (w : world)
    : outcome A * list Z * world :=
  match rounds with
  | O => (Thrown lastError, slept, w)
  | S rounds =>
      match fn w with
      | (Ok a, w) => (Returned a, slept, w)
      | (Err e, w) =>
          let slept := if (i <? maxRetries - 1)%Z
                       then slept ++ [(backoffMs * 2 ^ i)%Z] else slept in
          withRetry_from fn maxRetries backoffMs rounds (i + 1) (Some e) slept w
      end
  end.

(** [withRetry], for whole numbers of retries; the defaults are 3
    retries and 100 ms. *)
Definition withRetry {A : Type} (fn : M A) (maxRetries backoffMs : option Z) (w : world)
    : outcome A * list Z * world :=
  let maxRetries := default 3%Z maxRetries in
  let backoffMs := default 100%Z backoffMs in
  withRetry_from fn maxRetries backoffMs (Z.to_nat maxRetries) 0 None [] w.

(** [fn] called [k] times in a row throws each time: the world after
    the calls and the error of the last one. *)
Fixpoint run_failures {A : Type} (fn : M A) (k : nat) (w : world)
    : option (world * option error) :=
  match k with
  | O => Some (w, None)
  | S k =>
      match fn w with
      | (Err e, w) =>
          match run_failures fn k w with
          | Some (w, Some e') => Some (w, Some e')
          | Some (w, None) => Some (w, Some e)
          | None => None
          end
      | (Ok _, _) => None
      end
  end.

(** The delays [backoffMs], 2 [backoffMs], 4 [backoffMs], ...: [n] of
    them. *)
Definition doubling (backoffMs : Z) (n : nat) : list Z :=
  (λ j, (backoffMs * 2 ^ Z.of_nat j)%Z) <$> seq 0 n.

(** ** Common layer: ids and tags *)

(** [generateId(prefix)]; [uuid] is the value of [uuidv4()]. *)
Definition generateId (prefix : option string) (uuid : string) : string :=
  if truthy_str prefix then tmpl prefix +:+ "_" +:+ uuid else uuid.

Definition generateUserId (uuid : string) : string := generateId (Some "user") uuid.

(** The white space of [String.prototype.trim] and of the class [\s]
    among the ASCII characters: tab, line feed, vertical tab, form feed,
    carriage return and space. *)
Definition is_space (c : ascii) : bool :=
  let n := N_of_ascii c in ((9 <=? n) && (n <=? 13) || (n =? 32))%N.

(** The white space beyond ASCII, by its UTF-8 bytes: U+00A0 is C2 A0,
    and U+1680, U+2000 to U+200A, U+2028, U+2029, U+202F, U+205F, U+3000
    and U+FEFF are E1 9A 80, E2 80 80 to E2 80 8A, E2 80 A8, E2 80 A9,
    E2 80 AF, E2 81 9F, E3 80 80 and EF BB BF. *)
Definition is_space2 (a b : ascii) : bool :=
  ((N_of_ascii a =? 194) && (N_of_ascii b =? 160))%N.

Definition is_space3 (a b c : ascii) : bool :=
  let '(x, y, z) := (N_of_ascii a, N_of_ascii b, N_of_ascii c) in
  ((x =? 225) && (y =? 154) && (z =? 128)
   || (x =? 226) && (y =? 128)
      && ((128 <=? z) && (z <=? 138) || (z =? 168) || (z =? 169) || (z =? 175))
   || (x =? 226) && (y =? 129) && (z =? 159)
   || (x =? 227) && (y =? 128) && (z =? 128)
   || (x =? 239) && (y =? 187) && (z =? 191))%N.

(** The class [\w]: letters, digits and the underscore. *)
Definition is_word (c : ascii) : bool := is_alnum c || Ascii.eqb c "_".

Definition is_ascii_chr (c : ascii) : bool := (N_of_ascii c <? 128)%N.

(** The text after its leading white space; [p2] and [p3] recognise the
    white space of two and of three bytes. *)
Fixpoint drop_spaces (p2 : ascii -> ascii -> bool) (p3 : ascii -> ascii -> ascii -> bool)
    (s : string) : string :=
  match s with
  | String a r =>
      if is_space a then drop_spaces p2 p3 r
      else match r with
           | String b r2 =>
               if p2 a b then drop_spaces p2 p3 r2
               else match r2 with
                    | String c r3 => if p3 a b c then drop_spaces p2 p3 r3 else s
                    | EmptyString => s
                    end
           | EmptyString => s
           end
  | EmptyString => EmptyString
  end.

Definition trimStart (s : string) : string := drop_spaces is_space2 is_space3 s.

(** The trailing white space is the leading white space of the text
    read backwards. *)
Definition trimEnd (s : string) : string :=
  String.rev (drop_spaces (λ b a, is_space2 a b) (λ c b a, is_space3 a b c) (String.rev s)).

(** [String.prototype.trim] *)
Definition trim (s : string) : string := trimEnd (trimStart s).

(** [s.replace(/[^\w\s-]/g, '')]: the characters of the class stay.  A
    character beyond ASCII that is no white space goes, and so do all
    its bytes: none of them is below 128, and none but the first can
    start a white space. *)
Fixpoint keep_word_space_hyphen (s : string) : string :=
  match s with
  | String a r =>
      if is_word a || is_space a || Ascii.eqb a "-"
      then String a (keep_word_space_hyphen r)
      else match r with
           | String b r2 =>
               if is_space2 a b then String a (String b (keep_word_space_hyphen r2))
               else match r2 with
                    | String c r3 =>
                        if is_space3 a b c
                        then String a (String b (String c (keep_word_space_hyphen r3)))
                        else keep_word_space_hyphen r
                    | EmptyString => keep_word_space_hyphen r
                    end
           | EmptyString => EmptyString
           end
  | EmptyString => EmptyString
  end.

(** [sanitizeString]: [str.trim().replace(/[^\w\s-]/g, '')]. *)
Definition sanitizeString (str : string) : string := keep_word_space_hyphen (trim str).

Fixpoint repeat_chr (n : nat) (c : ascii) : string :=
  match n with
  | O => EmptyString
  | S n => String c (repeat_chr n c)
  end.

(** [s.padStart(n, c)] for a one-character filler. *)
Definition padStart (n : nat) (c : ascii) (s : string) : string :=
  repeat_chr (n - String.length s) c +:+ s.

(** [generateClkkTag]; [random] is the value of
    [Math.floor(Math.random() * 9999)], a whole number from 0 to 9998.
    What [sanitizeString] leaves beyond ASCII is white space, which has
    no lower case of its own. *)
Definition generateClkkTag (firstName lastName : string) (random : N) : string :=
  let sanitizedFirst := toLowerCase (sanitizeString firstName) in
  let sanitizedLast := toLowerCase (sanitizeString lastName) in
  let randomNum := padStart 4 "0" (pretty random) in
  sanitizedFirst +:+ sanitizedLast +:+ randomNum.

(** ** Entities layer: User, from GraphQL input *)

(** [CreateUserInput]; an optional field that is [null] or not given is
    [None]. *)
Record CreateUserInput : Type := mkCreateUserInput {
  input_clerkId : string;
  input_email : string;
  input_firstName : option string;
  input_lastName : option string;
  input_phoneNumber : option string
}.

(** [v || undefined] *)
Definition or_undefined (v : option string) : option string :=
  if truthy_str v then v else None.

(** [User.fromGraphQLInput]: the constructor gives the user a fresh id
    and the first KYC status, and a tag is generated when both names are
    there. *)
Definition fromGraphQLInput (input : CreateUserInput) (uuid : string) (random : N) : User :=
  let firstName := or_undefined (input_firstName input) in
  let lastName := or_undefined (input_lastName input) in
  {| id := Some (generateUserId uuid); createdAt := None; updatedAt := None;
     clerkId := Some (input_clerkId input); email := Some (input_email input);
     phoneNumber := or_undefined (input_phoneNumber input);
     firstName := firstName; lastName := lastName;
     clkkTag := if truthy_str firstName && truthy_str lastName
                then Some (generateClkkTag (tmpl firstName) (tmpl lastName) random)
                else None;
     kycStatus := Some "NOT_STARTED"; kycDetails := None;
     profileImageUrl := None; dateOfBirth := None;
     address := None; metadata := None |}.

(** The primary key of the user with the id [i]. *)
Definition id_key (i : string) : pkey :=
  (ENTITY_PREFIXES.USER +:+ "#" +:+ i, ENTITY_PREFIXES.USER +:+ "#" +:+ i).

(** An input with two long names. *)
Definition long_names_input : CreateUserInput :=
  {| input_clerkId := "clerk_9"; input_email := "chris@example.com";
     input_firstName := Some "Christopher"; input_lastName := Some "Montgomery";
     input_phoneNumber := None |}.

(** ** Users service: the handler of the Clerk webhook *)

(** An entry of [email_addresses], with its [verification.status]. *)
Record EmailAddress : Type := mkEmailAddress {
  email_address : string;
  verification_status : string
}.

(** The [data] of a [ClerkWebhookEvent]; an entry of [phone_numbers] is
    its [phone_number]. *)
Record ClerkUser : Type := mkClerkUser {
  clerk_user_id : string;
  email_addresses : option (list EmailAddress);
  first_name : option string;
  last_name : option string;
  phone_numbers : option (list string)
}.

Record ClerkWebhookEvent : Type := mkClerkWebhookEvent {
  webhook_type : string;
  data : ClerkUser
}.

Record WebhookResponse : Type := mkWebhookResponse {
  success : bool;
  message : string;
  userId : option string
}.

(** How a handler ends, when no layer below it throws: with its
    response, or with the error it constructs itself
    ([throw new Error(message)]). *)
Inductive handled : Type :=
  | Responded (response : WebhookResponse)
  | Failed (message : string).

(** [email_addresses?.find(email => email.verification.status === 'verified')?.email_address] *)
Definition verified_email (clerkUser : ClerkUser) : option string :=
  emails ← email_addresses clerkUser;
  email_address <$> List.find (λ email, String.eqb (verification_status email) "verified") emails.

(** [phone_numbers?.[0]?.phone_number] *)
Definition first_phone (clerkUser : ClerkUser) : option string :=
  phone_numbers clerkUser ≫= head.

Definition with_email (v : option string) (u : User) : User :=
  {| id := id u; createdAt := createdAt u; updatedAt := updatedAt u;
     clerkId := clerkId u; email := v; phoneNumber := phoneNumber u;
     firstName := firstName u; lastName := lastName u; clkkTag := clkkTag u;
     kycStatus := kycStatus u; kycDetails := kycDetails u;
     profileImageUrl := profileImageUrl u; dateOfBirth := dateOfBirth u;
     address := address u; metadata := metadata u |}.

Definition with_firstName (v : option string) (u : User) : User :=
  {| id := id u; createdAt := createdAt u; updatedAt := updatedAt u;
     clerkId := clerkId u; email := email u; phoneNumber := phoneNumber u;
     firstName := v; lastName := lastName u; clkkTag := clkkTag u;
     kycStatus := kycStatus u; kycDetails := kycDetails u;
     profileImageUrl := profileImageUrl u; dateOfBirth := dateOfBirth u;
     address := address u; metadata := metadata u |}.

Definition with_lastName (v : option string) (u : User) : User :=
  {| id := id u; createdAt := createdAt u; updatedAt := updatedAt u;
     clerkId := clerkId u; email := email u; phoneNumber := phoneNumber u;
     firstName := firstName u; lastName := v; clkkTag := clkkTag u;
     kycStatus := kycStatus u; kycDetails := kycDetails u;
     profileImageUrl := profileImageUrl u; dateOfBirth := dateOfBirth u;
     address := address u; metadata := metadata u |}.

Definition with_phoneNumber (v : option string) (u : User) : User :=
  {| id := id u; createdAt := createdAt u; updatedAt := updatedAt u;
     clerkId := clerkId u; email := email u; phoneNumber := v;
     firstName := firstName u; lastName := lastName u; clkkTag := clkkTag u;
     kycStatus := kycStatus u; kycDetails := kycDetails u;
     profileImageUrl := profileImageUrl u; dateOfBirth := dateOfBirth u;
     address := address u; metadata := metadata u |}.

Definition with_clkkTag (v : option string) (u : User) : User :=
  {| id := id u; createdAt := createdAt u; updatedAt := updatedAt u;
     clerkId := clerkId u; email := email u; phoneNumber := phoneNumber u;
     firstName := firstName u; lastName := lastName u; clkkTag := v;
     kycStatus := kycStatus u; kycDetails := kycDetails u;
     profileImageUrl := profileImageUrl u; dateOfBirth := dateOfBirth u;
     address := address u; metadata := metadata u |}.

Definition with_metadata (v : option document) (u : User) : User :=
  {| id := id u; createdAt := createdAt u; updatedAt := updatedAt u;
     clerkId := clerkId u; email := email u; phoneNumber := phoneNumber u;
     firstName := firstName u; lastName := lastName u; clkkTag := clkkTag u;
     kycStatus := kycStatus u; kycDetails := kycDetails u;
     profileImageUrl := profileImageUrl u; dateOfBirth := dateOfBirth u;
     address := address u; metadata := v |}.

(** [if (user.firstName && user.lastName) user.clkkTag = generateClkkTag(...)] *)
Definition tag_from_names (random : N) (user : User) : User :=
  if truthy_str (firstName user) && truthy_str (lastName user)
  then with_clkkTag (Some (generateClkkTag (tmpl (firstName user)) (tmpl (lastName user))
                             random)) user
  else user.

(** [handleUserCreated]; [uuid] and [random] are what [uuidv4()] and the
    random number of the tag give when they are asked. *)
Definition handleUserCreated (now uuid : string) (random : N) (webhook : ClerkWebhookEvent)
    : M handled :=
  let clerkUser := data webhook in
  existingUser ← getByClerkId (clerk_user_id clerkUser);
  match existingUser with
  | Some existingUser =>
      log "info" "User already exists";;
      mret (Responded {| success := true; message := "User already exists";
                         userId := id existingUser |})
  | None =>
      let primaryEmail := verified_email clerkUser in
      if negb (truthy_str primaryEmail) then
        log "error" "No verified email address found";;
        mret (Failed "No verified email address found")
      else
        let primaryPhone := first_phone clerkUser in
        let user :=
          {| id := Some (generateUserId uuid); createdAt := None; updatedAt := None;
             clerkId := Some (clerk_user_id clerkUser); email := primaryEmail;
             phoneNumber := primaryPhone;
             firstName := first_name clerkUser; lastName := last_name clerkUser;
             clkkTag := None; kycStatus := Some "NOT_STARTED"; kycDetails := None;
             profileImageUrl := None; dateOfBirth := None;
             address := None; metadata := None |} in
        let user := tag_from_names random user in
        user ← create now user;
        log "info" "User created successfully";;
        mret (Responded {| success := true; message := "User created successfully";
                           userId := id user |})
  end.

(** The block of [handleUserUpdated] that takes the fields of the
    webhook over into the user found: the user it leaves and
    [hasChanges]. *)
Definition take_over (clerkUser : ClerkUser) (random : N) (user : User) : User * bool :=
  let hasChanges := false in
  let primaryEmail := verified_email clerkUser in
  let '(user, hasChanges) :=
    if truthy_str primaryEmail && bool_decide (primaryEmail ≠ email user)
    then (with_email primaryEmail user, true) else (user, hasChanges) in
  let '(user, hasChanges) :=
    if bool_decide (first_name clerkUser ≠ None)
       && bool_decide (first_name clerkUser ≠ firstName user)
    then (with_firstName (first_name clerkUser) user, true) else (user, hasChanges) in
  let '(user, hasChanges) :=
    if bool_decide (last_name clerkUser ≠ None)
       && bool_decide (last_name clerkUser ≠ lastName user)
    then (with_lastName (last_name clerkUser) user, true) else (user, hasChanges) in
  let primaryPhone := first_phone clerkUser in
  let '(user, hasChanges) :=
    if truthy_str primaryPhone && bool_decide (primaryPhone ≠ phoneNumber user)
    then (with_phoneNumber primaryPhone user, true) else (user, hasChanges) in
  if negb (truthy_str (clkkTag user)) && truthy_str (firstName user)
     && truthy_str (lastName user)
  then (with_clkkTag (Some (generateClkkTag (tmpl (firstName user)) (tmpl (lastName user))
                              random)) user, true)
  else (user, hasChanges).

(** [handleUserUpdated] *)
Definition handleUserUpdated (now uuid : string) (random : N) (webhook : ClerkWebhookEvent)
    : M handled :=
  let clerkUser := data webhook in
  user ← getByClerkId (clerk_user_id clerkUser);
  match user with
  | None =>
      log "warn" "User not found for update";;
      handleUserCreated now uuid random webhook
  | Some user =>
      let '(user, hasChanges) := take_over clerkUser random user in
      (if hasChanges then
         save now user;;
         log "info" "User updated successfully"
       else log "info" "No changes detected for user");;
      mret (Responded {| success := true;
                         message := if hasChanges then "User updated successfully"
                                    else "No changes detected";
                         userId := id user |})
  end.

(** [handleUserDeleted]; [deletedAt] is the clock reading that goes into
    the metadata, [now] the one of the save. *)
Definition handleUserDeleted (deletedAt now : string) (webhook : ClerkWebhookEvent)
    : M WebhookResponse :=
  let clerkId := clerk_user_id (data webhook) in
  user ← getByClerkId clerkId;
  match user with
  | None =>
      log "warn" "User not found for deletion";;
      mret {| success := true; message := "User not found"; userId := None |}
  | Some user =>
      let user :=
        with_metadata (Some (obj_set "deletedBy" (JStr "clerk_webhook")
                               (obj_set "deletedAt" (JStr deletedAt)
                                  (default [] (metadata user))))) user in
      save now user;;
      log "info" "User marked as deleted";;
      mret {| success := true; message := "User marked as deleted"; userId := id user |}
  end.

(** A webhook about the Clerk user [c]. *)
Definition webhook_of (type : string) (clerkUser : ClerkUser) : ClerkWebhookEvent :=
  {| webhook_type := type; data := clerkUser |}.

Definition ada_clerk : ClerkUser :=
  {| clerk_user_id := "clerk_7";
     email_addresses := Some [ {| email_address := "old@example.com";
                                  verification_status := "unverified" |};
                               {| email_address := "ada@example.com";
                                  verification_status := "verified" |} ];
     first_name := Some "Ada"; last_name := Some "Lovelace";
     phone_numbers := None |}.

(** The Clerk user behind [sample_user], without any change. *)
Definition sample_clerk : ClerkUser :=
  {| clerk_user_id := "clerk_1"; email_addresses := None;
     first_name := None; last_name := None; phone_numbers := None |}.

(** The Clerk user behind [sample_user] after a change of the mail
    address and of the last name. *)
Definition ada_update : ClerkUser :=
  {| clerk_user_id := "clerk_1";
     email_addresses := Some [ {| email_address := "ada@example.com";
                                  verification_status := "verified" |} ];
     first_name := Some "Ada"; last_name := Some "Lovelace";
     phone_numbers := Some ["+15551234567"] |}.

(** * Properties *)

(** ** Items: reading an attribute after writes *)

Section item_lookup.
Implicit Types (it : item) (k a : string).

Lemma get_str_lookup it k s : it !! k = Some (JStr s) -> get_str it k = Some s.
Proof. unfold get_str. by intros ->. Qed.

Lemma get_doc_lookup it k d : it !! k = Some (JObj d) -> get_doc it k = Some d.
Proof. unfold get_doc. by intros ->. Qed.

Lemma get_str_absent it k : it !! k = None -> get_str it k = None.
Proof. unfold get_str. by intros ->. Qed.

Lemma get_doc_absent it k : it !! k = None -> get_doc it k = None.
Proof. unfold get_doc. by intros ->. Qed.

Lemma lookup_set_val_ne it k a v : k ≠ a -> set_val k v it !! a = it !! a.
Proof. intros. destruct v; simpl; [by rewrite lookup_insert_ne|done]. Qed.

Lemma lookup_set_val_eq it k v : set_val k (Some v) it !! k = Some v.
Proof. apply lookup_insert_eq. Qed.

Lemma lookup_set_str_ne it k a v : k ≠ a -> set_str k v it !! a = it !! a.
Proof. apply lookup_set_val_ne. Qed.

Lemma lookup_set_doc_ne it k a v : k ≠ a -> set_doc k v it !! a = it !! a.
Proof. apply lookup_set_val_ne. Qed.

Lemma lookup_set_str_eq it k v : set_str k v it !! k = from_option (Some ∘ JStr) (it !! k) v.
Proof. destruct v; simpl; [apply lookup_insert_eq|done]. Qed.

Lemma lookup_set_doc_eq it k v : set_doc k v it !! k = from_option (Some ∘ JObj) (it !! k) v.
Proof. destruct v; simpl; [apply lookup_insert_eq|done]. Qed.

(** The guarded writes of [toItem]. *)
Lemma lookup_if_str_ne it k a v : k ≠ a -> set_if_str k v it !! a = it !! a.
Proof.
  intros. unfold set_if_str. destruct (truthy_str v); [by apply lookup_set_str_ne|done].
Qed.

Lemma lookup_if_doc_ne it k a v : k ≠ a -> set_if_doc k v it !! a = it !! a.
Proof.
  intros. unfold set_if_doc. destruct (truthy_doc v); [by apply lookup_set_doc_ne|done].
Qed.

Lemma lookup_if_str_eq it k v :
  it !! k = None ->
  set_if_str k v it !! k = if truthy_str v then JStr <$> v else None.
Proof.
  intros Hk. unfold set_if_str. destruct v as [s|]; simpl; [|done].
  destruct (negb _); [apply lookup_insert_eq|done].
Qed.

Lemma lookup_if_doc_eq it k v :
  it !! k = None -> set_if_doc k v it !! k = JObj <$> v.
Proof. intros Hk. destruct v; simpl; [apply lookup_insert_eq|done]. Qed.
End item_lookup.

(** Walks a chain of attribute writes down to the write of the attribute
    read, or to the empty item. *)
Ltac item_chain :=
  repeat first
    [ rewrite lookup_set_val_ne by done
    | rewrite lookup_set_str_ne by done
    | rewrite lookup_set_doc_ne by done
    | rewrite lookup_if_str_ne by done
    | rewrite lookup_if_doc_ne by done
    | rewrite lookup_insert_ne by done ].

(** An optional string that passed a length check with a positive lower
    bound is absent or not empty. *)
Lemma nonempty_truthy v :
  v ≠ Some EmptyString ->
  (if truthy_str v then JStr <$> v else None) = JStr <$> v.
Proof. intros Hv. by destruct v as [[|c s]|]. Qed.

(** The length checks of the schema count code units, not bytes: a tag
    of two accented letters is too short, and a first name of twenty-six
    of them is not too long. *)
Lemma opt_len_counts_code_units :
  String.length "éé" = 4%nat /\ opt_len 3 20 (Some "éé") = false /\
  String.length "éééééééééééééééééééééééééé" = 52%nat /\
  opt_len 1 50 (Some "éééééééééééééééééééééééééé") = true.
Proof. by vm_compute. Qed.

(** What a valid user holds. *)
Lemma schema_ok_inv u :
  schema_ok u = true ->
  (exists i, id u = Some i) /\ (exists c, clerkId u = Some c) /\
  (exists e, email u = Some e) /\ (exists k, kycStatus u = Some k) /\
  nonempty_opt (phoneNumber u) /\ nonempty_opt (firstName u) /\
  nonempty_opt (lastName u) /\ nonempty_opt (clkkTag u).
Proof.
  unfold schema_ok, nonempty_opt. rewrite !andb_true_iff.
  intros [[[[[[[Hid Hc] He] Hp] Hf] Hl] Ht] Hk].
  destruct (id u), (clerkId u), (email u), (kycStatus u); try done.
  repeat split; eauto.
  - destruct (phoneNumber u) as [[|]|]; done.
  - destruct (firstName u) as [[|]|]; done.
  - destruct (lastName u) as [[|]|]; done.
  - destruct (clkkTag u) as [[|]|]; done.
Qed.

(** ** The User entity: item projection and back *)

Lemma get_str_fmap (it : item) k v : it !! k = JStr <$> v -> get_str it k = v.
Proof. unfold get_str. intros ->. by destruct v. Qed.

Lemma get_doc_fmap (it : item) k v : it !! k = JObj <$> v -> get_doc it k = v.
Proof. unfold get_doc. intros ->. by destruct v. Qed.

Ltac in_list := rewrite !elem_of_cons; tauto.

Ltac absent := item_chain; by rewrite ?lookup_empty.

(** Reads one attribute off the writes of [toItem]. *)
Ltac read_attr :=
  first [apply get_str_fmap | apply get_doc_fmap];
  item_chain;
  first
    [ rewrite lookup_set_str_eq; item_chain; rewrite ?lookup_empty;
      by repeat match goal with H : _ = Some _ |- _ => rewrite H end
    | rewrite lookup_if_str_eq by absent; by apply nonempty_truthy
    | rewrite lookup_if_doc_eq by absent; done
    | by rewrite ?lookup_empty ].

Lemma toItem_total u e :
  email u = Some e -> exists it, toItem u = Ok it.
Proof.
  intros He. unfold toItem. rewrite He. simpl.
  destruct (truthy_str (clkkTag u)) eqn:Ht; [|by eexists].
  destruct (clkkTag u); [by eexists|done].
Qed.

(** [fromItem] after [toItem] gives back every attribute of a valid user
    but the two timestamps. *)
Lemma fromItem_toItem_valid u it :
  schema_ok u = true ->
  nonempty_opt (profileImageUrl u) -> nonempty_opt (dateOfBirth u) ->
  toItem u = Ok it ->
  fromItem it = stamp None None u.
Proof.
  intros Hok Hp Hd.
  pose proof (schema_ok_inv u Hok) as (_ & _ & [e He] & _ & Hph & Hf & Hl & Ht).
  unfold toItem. rewrite He. simpl.
  destruct (truthy_str (clkkTag u)) eqn:Htag.
  - destruct (clkkTag u) as [t|] eqn:Etag; [|done]. simpl. intros [= <-].
    unfold fromItem, stamp. f_equal; rewrite <- ?Etag in *; read_attr.
  - intros [= <-]. unfold fromItem, stamp. f_equal; read_attr.
Qed.

(** [toItem] writes neither timestamp and neither key attribute. *)
Lemma toItem_lookup_other u it a :
  toItem u = Ok it ->
  a ∈ [ATTRIBUTES.CREATED_AT; ATTRIBUTES.UPDATED_AT;
       ATTRIBUTES.PARTITION_KEY; ATTRIBUTES.SORT_KEY] ->
  it !! a = None.
Proof.
  unfold toItem. intros Hit Ha.
  destruct (email u) as [e|]; [simpl in Hit|done].
  rewrite !elem_of_cons, elem_of_nil in Ha.
  destruct (truthy_str (clkkTag u)).
  - destruct (clkkTag u); [simpl in Hit|done]. injection Hit as <-.
    destruct Ha as [->|[->|[->|[->|[]]]]]; absent.
  - injection Hit as <-.
    destruct Ha as [->|[->|[->|[->|[]]]]]; absent.
Qed.

Lemma getPrimaryKey_lookup_other u a :
  a ≠ ATTRIBUTES.PARTITION_KEY -> a ≠ ATTRIBUTES.SORT_KEY ->
  getPrimaryKey u !! a = None.
Proof.
  intros. unfold getPrimaryKey, KEY_BUILDERS.user.
  rewrite lookup_insert_ne by done. by rewrite lookup_singleton_ne.
Qed.

Lemma getPrimaryKey_key u : key_of (getPrimaryKey u) = Some (user_key u).
Proof. done. Qed.

(** The attributes of [toItem] are read through the key and the
    timestamps that the write operations add. *)
Lemma lookup_stamped u it c d a :
  a ≠ ATTRIBUTES.CREATED_AT -> a ≠ ATTRIBUTES.UPDATED_AT ->
  a ≠ ATTRIBUTES.PARTITION_KEY -> a ≠ ATTRIBUTES.SORT_KEY ->
  set_str ATTRIBUTES.UPDATED_AT d
    (set_str ATTRIBUTES.CREATED_AT c (it ∪ getPrimaryKey u)) !! a = it !! a.
Proof.
  intros. rewrite !lookup_set_str_ne by done.
  by rewrite lookup_union_l by by apply getPrimaryKey_lookup_other.
Qed.

Lemma lookup_stamped_key u it c d a :
  toItem u = Ok it ->
  a ∈ [ATTRIBUTES.PARTITION_KEY; ATTRIBUTES.SORT_KEY] ->
  set_str ATTRIBUTES.UPDATED_AT d
    (set_str ATTRIBUTES.CREATED_AT c (it ∪ getPrimaryKey u)) !! a
  = getPrimaryKey u !! a.
Proof.
  intros Hit Ha.
  assert (it !! a = None) as Hnone.
  { eapply toItem_lookup_other; [done|].
    rewrite !elem_of_cons in Ha. destruct Ha as [->|[->|Ha]]; [in_list|in_list|by apply elem_of_nil in Ha]. }
  assert (a ≠ ATTRIBUTES.CREATED_AT /\ a ≠ ATTRIBUTES.UPDATED_AT) as [??].
  { rewrite !elem_of_cons, elem_of_nil in Ha. by destruct Ha as [->|[->|[]]]. }
  rewrite !lookup_set_str_ne by done. by rewrite lookup_union_r.
Qed.

Lemma fromItem_stamped u it c d :
  toItem u = Ok it ->
  fromItem (set_str ATTRIBUTES.UPDATED_AT d
              (set_str ATTRIBUTES.CREATED_AT c (it ∪ getPrimaryKey u)))
  = stamp c d (fromItem it).
Proof.
  intros Hit. unfold fromItem, stamp. simpl.
  f_equal; unfold get_str, get_doc; rewrite ?lookup_stamped by done; try done.
  - apply get_str_fmap. rewrite lookup_set_str_ne by done.
    rewrite lookup_set_str_eq.
    rewrite lookup_union_r by (eapply toItem_lookup_other; [done|in_list]).
    rewrite getPrimaryKey_lookup_other by done. by destruct c.
  - apply get_str_fmap. rewrite lookup_set_str_eq, lookup_set_str_ne by done.
    rewrite lookup_union_r by (eapply toItem_lookup_other; [done|in_list]).
    rewrite getPrimaryKey_lookup_other by done. by destruct d.
Qed.

(** The item of a write operation carries the key of the user. *)
Lemma stored_item_key u it : stored_item u = Ok it -> key_of it = Some (user_key u).
Proof.
  unfold stored_item. destruct (toItem u) as [it0|] eqn:Hit; [simpl|done].
  intros [= <-]. unfold key_of.
  rewrite !(lookup_stamped_key u it0) by (done || in_list). done.
Qed.

Lemma stored_item_has_key u it :
  stored_item u = Ok it -> is_Some (it !! ATTRIBUTES.PARTITION_KEY).
Proof.
  unfold stored_item. destruct (toItem u) as [it0|] eqn:Hit; [simpl|done].
  intros [= <-]. rewrite (lookup_stamped_key u it0) by (done || in_list). done.
Qed.

(** C3, as amended. [fromItem] after [toItem] gives back every attribute
    of a valid user whose optional strings are absent or not empty, except
    createdAt and updatedAt, which [toItem] does not write and which come
    back absent; [fromItem] of the item that create and save write
    ([toItem] under the key and the two timestamps) gives back the user
    with its timestamps. *)
Theorem fromItem_toItem u :
  schema_ok u = true ->
  nonempty_opt (profileImageUrl u) -> nonempty_opt (dateOfBirth u) ->
  (exists it, toItem u = Ok it /\ fromItem it = stamp None None u) /\
  (exists it, stored_item u = Ok it /\ fromItem it = u).
Proof.
  intros Hok Hp Hd.
  pose proof (schema_ok_inv u Hok) as (_ & _ & [e He] & _).
  destruct (toItem_total u e He) as [it Hit].
  pose proof (fromItem_toItem_valid u it Hok Hp Hd Hit) as Hback.
  split; [by exists it|].
  unfold stored_item. rewrite Hit. simpl. eexists; split; [done|].
  rewrite (fromItem_stamped u it) by done. rewrite Hback. by destruct u.
Qed.

(** C3, the claim as stated fails: a valid user with a creation time
    comes back from [fromItem (toItem e)] without it. *)
Lemma fromItem_toItem_drops_timestamps :
  schema_ok sample_user_stamped = true /\
  exists it, toItem sample_user_stamped = Ok it /\
             createdAt sample_user_stamped = Some "2024-01-01T00:00:00.000Z" /\
             createdAt (fromItem it) = None /\
             fromItem it ≠ sample_user_stamped.
Proof.
  split; [done|]. eexists. split; [reflexivity|].
  split; [done|]. split; [done|]. intros H. by apply (f_equal createdAt) in H.
Qed.

Lemma fromItem_toItem_witness :
  (exists it, toItem sample_user = Ok it /\ fromItem it = stamp None None sample_user) /\
  (exists it, stored_item sample_user = Ok it /\ fromItem it = sample_user).
Proof. apply fromItem_toItem; [reflexivity|done|done]. Defined.

(** An optional string that validation does not look at is lost when it
    is empty. *)
Lemma fromItem_toItem_drops_empty :
  let u := with_image (Some EmptyString) sample_user in
  schema_ok u = true /\
  exists it, toItem u = Ok it /\ profileImageUrl (fromItem it) = None.
Proof. split; [done|]. eexists. split; [reflexivity|done]. Qed.

(** ** BaseEntity: create, save, update, get, exists *)

(** A request that the service lets through carries no fault. *)
Lemma next_ok_fault c w : next_ok w -> fault (next c w).1 = None.
Proof. done. Qed.

Section entity_ops.
Implicit Types (u e : User) (w : world) (it : item).

Lemma validate_ok u w : schema_ok u = true -> validate u w = (Ok tt, w).
Proof. unfold validate. by intros ->. Qed.

Lemma validate_fails u w :
  schema_ok u = false ->
  exists w', validate u w = (Err UserValidationFailed, w') /\
             tbl w' = tbl w /\ sent w' = sent w /\ script w' = script w.
Proof. unfold validate. intros ->. by eexists. Qed.

(** A create of an invalid entity throws the validation error and sends
    nothing. *)
Lemma create_invalid now u w :
  schema_ok u = false ->
  exists w', create now u w = (Err UserValidationFailed, w') /\
             tbl w' = tbl w /\ sent w' = sent w /\ script w' = script w.
Proof.
  intros Hbad. unfold create, try_catch, validate, mbind, M_bind.
  rewrite Hbad. simpl. by eexists.
Qed.

Lemma save_invalid now u w :
  schema_ok u = false ->
  exists w', save now u w = (Err UserValidationFailed, w') /\
             tbl w' = tbl w /\ sent w' = sent w /\ script w' = script w.
Proof.
  intros Hbad. unfold save, try_catch, validate, mbind, M_bind.
  rewrite Hbad. simpl. by eexists.
Qed.

(** What a create that returned has done. *)
Lemma create_returned now e w u w1 :
  create now e w = (Ok u, w1) ->
  schema_ok e = true /\ u = stamp (Some now) (Some now) e /\
  exists it, stored_item u = Ok it /\
    tbl w1 = <[user_key e := it]> (tbl w) /\
    script w1 = tail (script w).
Proof.
  unfold create, try_catch, validate, mbind, M_bind.
  destruct (schema_ok e) eqn:Hok; [simpl|by simpl].
  destruct (stored_item (stamp (Some now) (Some now) e)) as [it|err] eqn:Hit; simpl.
  2: { destruct err as [[]| | | |]; simpl; done. }
  unfold sendPut. simpl.
  pose proof (stored_item_key _ _ Hit) as Hk. rewrite Hk.
  destruct (fault _); [done|].
  unfold eval_condition, CONDITION_BUILDERS.attributeNotExists. simpl.
  rewrite lookup_singleton_eq. simpl.
  destruct (has_attr _ _) eqn:Hattr; simpl; [done|].
  intros [= <- <-]. split; [done|]. split; [done|]. by exists it.
Qed.

(** A create of a valid entity over a stored row that carries its key
    attribute fails on the condition, and create throws its conflict
    error; the table is as before. *)
Lemma create_conflict now e w row :
  schema_ok e = true -> next_ok w ->
  tbl w !! user_key e = Some row ->
  is_Some (row !! ATTRIBUTES.PARTITION_KEY) ->
  exists w', create now e w = (Err (AlreadyExists entityName (tmpl (id e))), w') /\
             tbl w' = tbl w /\ script w' = tail (script w).
Proof.
  intros Hok Hnext Hrow Hpk.
  pose proof (schema_ok_inv e Hok) as (_ & _ & [m Hm] & _).
  destruct (toItem_total (stamp (Some now) (Some now) e) m Hm) as [it0 Hit0].
  unfold create, try_catch, validate, mbind, M_bind. rewrite Hok. simpl.
  unfold stored_item at 1. rewrite Hit0. simpl.
  unfold sendPut. simpl.
  match goal with |- context [key_of ?i] =>
    assert (key_of i = Some (user_key e)) as ->
  end.
  { apply (stored_item_key (stamp (Some now) (Some now) e)).
    unfold stored_item. by rewrite Hit0. }
  rewrite Hnext.
  unfold eval_condition, CONDITION_BUILDERS.attributeNotExists. simpl.
  rewrite lookup_singleton_eq. simpl. rewrite Hrow. simpl.
  rewrite bool_decide_eq_true_2 by done. simpl. by eexists.
Qed.

(** A get at a key of the table, when the service lets it through. *)
Lemma getByKey_found key k row w :
  next_ok w -> key_of key = Some k -> tbl w !! k = Some row ->
  exists w', getByKey key w = (Ok (Some (fromItem row)), w') /\ tbl w' = tbl w.
Proof.
  intros Hnext Hk Hrow.
  unfold getByKey, try_catch, mbind, M_bind, sendGet. simpl.
  rewrite Hnext, Hk. simpl. rewrite Hrow. simpl. by eexists.
Qed.
End entity_ops.

(** C1, as amended. After a create of [e] that returned, a create of a
    valid [e'] with the same id that the service lets through throws the
    conflict error of [create] (the put fails on its
    attribute_not_exists condition), the table is as the first create
    left it, and a get at the key returns the entity read from the item
    of the first create: [e] with its timestamps when the optional
    strings of [e] are absent or not empty. A create of an entity that
    fails validation throws the validation error instead, sends
    nothing and leaves the table as it is. *)
Theorem create_twice_conflict now1 now2 e e' w u w1 :
  create now1 e w = (Ok u, w1) ->
  schema_ok e' = true -> id e' = id e -> next_ok w1 ->
  exists w2,
    create now2 e' w1 = (Err (AlreadyExists entityName (tmpl (id e))), w2) /\
    kind_of (AlreadyExists entityName (tmpl (id e))) = ConflictError /\
    tbl w2 = tbl w1 /\
    exists it,
      stored_item u = Ok it /\ u = stamp (Some now1) (Some now1) e /\
      (next_ok w2 ->
       exists w3, getByKey (getPrimaryKey e) w2 = (Ok (Some (fromItem it)), w3)) /\
      (nonempty_opt (profileImageUrl e) -> nonempty_opt (dateOfBirth e) ->
       fromItem it = u) /\
      (forall now3 e'', schema_ok e'' = false ->
         exists w3,
           create now3 e'' w1 = (Err UserValidationFailed, w3) /\
           tbl w3 = tbl w1 /\ sent w3 = sent w1).
Proof.
  intros Hfirst Hok' Hid Hnext.
  destruct (create_returned _ _ _ _ _ Hfirst) as (Hok & Hu & it & Hit & Htbl & _).
  assert (user_key e' = user_key e) as Hkey by (unfold user_key; by rewrite Hid).
  assert (tbl w1 !! user_key e' = Some it) as Hrow.
  { rewrite Hkey, Htbl. apply lookup_insert_eq. }
  destruct (create_conflict now2 e' w1 it Hok' Hnext Hrow) as (w2 & Hsecond & Htbl2 & _).
  { by eapply stored_item_has_key. }
  exists w2. rewrite <- Hid. split; [done|]. split; [done|]. split; [done|].
  exists it. split; [done|]. split; [done|]. split_and!.
  - intros Hnext2.
    destruct (getByKey_found (getPrimaryKey e) (user_key e) it w2) as (w3 & Hget & _);
      [done|apply getPrimaryKey_key|by rewrite Htbl2, <- Hkey|by exists w3].
  - intros Hp Hd. subst u. revert Hit. unfold stored_item.
    destruct (toItem (stamp (Some now1) (Some now1) e)) as [it0|] eqn:Hit0; [simpl|done].
    intros [= <-]. rewrite (fromItem_stamped _ it0) by done.
    rewrite (fromItem_toItem_valid (stamp (Some now1) (Some now1) e) it0 Hok Hp Hd Hit0).
    by destruct e.
  - intros now3 e'' Hbad.
    destruct (create_invalid now3 e'' w1 Hbad) as (w3 & ? & ? & ? & _). by exists w3.
Qed.

Lemma create_twice_conflict_witness :
  exists w2,
    create "2024-02-02T00:00:00.000Z" sample_rival world_with_sample
      = (Err (AlreadyExists entityName "u1"), w2) /\
    tbl w2 = tbl world_with_sample.
Proof.
  destruct (create_twice_conflict
              "2024-01-01T00:00:00.000Z" "2024-02-02T00:00:00.000Z"
              sample_user sample_rival (fresh ∅ [])
              (stamp (Some "2024-01-01T00:00:00.000Z")
                     (Some "2024-01-01T00:00:00.000Z") sample_user)
              world_with_sample)
    as (w2 & H1 & _ & H2 & _).
  - vm_compute. reflexivity.
  - reflexivity.
  - reflexivity.
  - reflexivity.
  - exists w2. by split.
Defined.

(** C1, the claim as stated fails: a second create with the same id whose
    entity does not pass validation throws the validation error, not the
    conflict error. *)
Lemma create_twice_invalid_second :
  schema_ok sample_user = true /\
  id sample_invalid = id sample_user /\
  (create "2024-01-01T00:00:00.000Z" sample_user (fresh ∅ [])).1
    = Ok (stamp (Some "2024-01-01T00:00:00.000Z")
                (Some "2024-01-01T00:00:00.000Z") sample_user) /\
  (create "2024-02-02T00:00:00.000Z" sample_invalid world_with_sample).1
    = Err UserValidationFailed /\
  kind_of UserValidationFailed ≠ ConflictError.
Proof. repeat split; try done; vm_compute; reflexivity. Qed.

(** ** Validation before writes *)

(** C2, the code at the failing input and beyond: [update] does not call
    [validate]. For an entity that fails validation it sends its
    UpdateCommand all the same and never throws the validation error. *)
Theorem update_skips_validation now updates u w :
  schema_ok u = false ->
  exists r w',
    update now updates u w = (r, w') /\
    sent w' = sent w ++ [UpdateCommand (getPrimaryKey u) (UPDATE_BUILDERS.set updates now)] /\
    r ≠ Err UserValidationFailed.
Proof.
  intros _. unfold update, try_catch, mbind, M_bind, sendUpdate. simpl.
  destruct (fault (default healthy (head (script w)))); simpl.
  { eexists _, _. split; [reflexivity|]. by split. }
  rewrite getPrimaryKey_key.
  destruct (updated_item (getPrimaryKey u) (UPDATE_BUILDERS.set updates now)
              (tbl w !! user_key u)); simpl;
    (eexists _, _; split; [reflexivity|]; by split).
Qed.

Lemma update_skips_validation_witness :
  schema_ok sample_invalid = false /\
  exists r w',
    update "2024-03-03T00:00:00.000Z" [("firstName", Some (JStr "Al"))]
      sample_invalid world_with_sample = (r, w') /\
    sent w' = sent world_with_sample ++
      [UpdateCommand (getPrimaryKey sample_invalid)
         (UPDATE_BUILDERS.set [("firstName", Some (JStr "Al"))] "2024-03-03T00:00:00.000Z")] /\
    r ≠ Err UserValidationFailed.
Proof. split; [reflexivity|]. apply update_skips_validation. reflexivity. Defined.

(** At the failing input the update goes through and rewrites the stored
    row: the first name read back was Ada and is now Al. *)
Lemma update_invalid_entity_writes :
  let ran := update "2024-03-03T00:00:00.000Z" [("firstName", Some (JStr "Al"))]
               sample_invalid world_with_sample in
  schema_ok sample_invalid = false /\
  (exists u', ran.1 = Ok u' /\ firstName u' = Some "Al") /\
  (firstName ∘ fromItem) <$> (tbl world_with_sample !! user_key sample_invalid)
    = Some (Some "Ada") /\
  (firstName ∘ fromItem) <$> (tbl ran.2 !! user_key sample_invalid)
    = Some (Some "Al").
Proof.
  split; [reflexivity|]. split; [|split; vm_compute; reflexivity].
  eexists. split; [vm_compute; reflexivity|reflexivity].
Qed.

(** A create or a save of an entity that fails validation throws the
    validation error, sends nothing and leaves the table as it is. *)
Lemma create_save_validate_first now u w :
  schema_ok u = false ->
  (exists w', create now u w = (Err UserValidationFailed, w') /\
              tbl w' = tbl w /\ sent w' = sent w) /\
  (exists w', save now u w = (Err UserValidationFailed, w') /\
              tbl w' = tbl w /\ sent w' = sent w).
Proof.
  intros Hbad. split.
  - destruct (create_invalid now u w Hbad) as (w' & ? & ? & ? & _). by exists w'.
  - destruct (save_invalid now u w Hbad) as (w' & ? & ? & ? & _). by exists w'.
Qed.

(** ** Transient errors of the service *)

(** C8, as amended. A transient error of the service on the request of
    save, create, update, delete or get is thrown on to the caller
    unchanged; [exists] catches it, logs it and returns false. *)
Theorem transient_error_propagation t now updates key u w :
  next_fails t w ->
  (schema_ok u = true ->
   (create now u w).1 = Err (SdkError (Transient t)) /\
   (save now u w).1 = Err (SdkError (Transient t))) /\
  (update now updates u w).1 = Err (SdkError (Transient t)) /\
  (delete_entity u w).1 = Err (SdkError (Transient t)) /\
  (getByKey key w).1 = Err (SdkError (Transient t)) /\
  kind_of (SdkError (Transient t)) = TransientEngineError /\
  (exists_entity u w).1 = Ok false /\
  logged (exists_entity u w).2 = logged w ++ ["error: Failed to check entity existence"].
Proof.
  unfold next_fails. intros Hf. repeat split.
  - pose proof (schema_ok_inv u H) as (_ & _ & [m Hm] & _).
    destruct (toItem_total (stamp (Some now) (Some now) u) m Hm) as [it Hit].
    unfold create, try_catch, validate, mbind, M_bind. rewrite H. simpl.
    unfold stored_item at 1. rewrite Hit. simpl.
    unfold sendPut. simpl. by rewrite Hf.
  - pose proof (schema_ok_inv u H) as (_ & _ & [m Hm] & _).
    set (u' := stamp (if truthy_str (createdAt u) then createdAt u else Some now)
                     (Some now) u).
    destruct (toItem_total u' m Hm) as [it Hit].
    unfold save, try_catch, validate, mbind, M_bind. rewrite H. simpl.
    fold u'. unfold stored_item at 1. rewrite Hit. simpl.
    unfold sendPut. simpl. by rewrite Hf.
  - unfold update, try_catch, mbind, M_bind, sendUpdate. simpl. by rewrite Hf.
  - unfold delete_entity, try_catch, mbind, M_bind, sendDelete. simpl. by rewrite Hf.
  - unfold getByKey, try_catch, mbind, M_bind, sendGet. simpl. by rewrite Hf.
  - unfold exists_entity, try_catch, mbind, M_bind, sendGet. simpl. by rewrite Hf.
  - unfold exists_entity, try_catch, mbind, M_bind, sendGet. simpl. by rewrite Hf.
Qed.

Lemma transient_error_propagation_witness :
  (getByKey (getPrimaryKey sample_user) (fresh ∅ timeout_once)).1
    = Err (SdkError (Transient RequestTimeout)) /\
  (exists_entity sample_user (fresh ∅ timeout_once)).1 = Ok false.
Proof.
  destruct (transient_error_propagation RequestTimeout EmptyString []
              (getPrimaryKey sample_user) sample_user (fresh ∅ timeout_once))
    as (_ & _ & _ & Hget & _ & Hex & _).
  - reflexivity.
  - by split.
Defined.

(** C8, the claim as stated fails: when the service times out, [exists]
    returns false instead of throwing. *)
Lemma exists_swallows_timeout :
  next_fails RequestTimeout (fresh ∅ timeout_once) /\
  (exists_entity sample_user (fresh ∅ timeout_once)).1 = Ok false /\
  (getByKey (getPrimaryKey sample_user) (fresh ∅ timeout_once)).1
    = Err (SdkError (Transient RequestTimeout)).
Proof. by vm_compute. Qed.

(** ** chunkArray *)

Section chunks.
Context {A : Type}.
Implicit Types (l : list A) (n i fuel : nat).

Lemma chunk_from_more fuel i n l :
  (i < length l)%nat ->
  chunk_from (S fuel) i n l = take n (drop i l) :: chunk_from fuel (i + n) n l.
Proof. intros Hi. simpl. by apply Nat.ltb_lt in Hi as ->. Qed.

Lemma chunk_from_done fuel i n l :
  (length l <= i)%nat -> chunk_from fuel i n l = [].
Proof. intros Hi. destruct fuel; [done|]. simpl. by apply Nat.ltb_ge in Hi as ->. Qed.

(** With enough fuel the chunks from index [i] on are the array from
    [i] on, cut in order. *)
Lemma concat_chunk_from fuel : forall i n l,
  (0 < n)%nat -> (length l <= i + fuel)%nat ->
  concat (chunk_from fuel i n l) = drop i l.
Proof.
  induction fuel as [|fuel IH]; intros i n l Hn Hfuel.
  - simpl. rewrite drop_ge; [done|lia].
  - destruct (decide (i < length l)%nat) as [Hi|Hi].
    + rewrite chunk_from_more by done. simpl.
      rewrite IH by lia. rewrite <- drop_drop. apply take_drop.
    + rewrite chunk_from_done by lia. rewrite drop_ge; [done|lia].
Qed.

Lemma Forall_chunk_from fuel : forall i n l,
  (0 < n)%nat ->
  Forall (λ c, 1 <= length c <= n)%nat (chunk_from fuel i n l).
Proof.
  induction fuel as [|fuel IH]; intros i n l Hn; [constructor|].
  destruct (decide (i < length l)%nat) as [Hi|Hi].
  - rewrite chunk_from_more by done. constructor; [|by apply IH].
    rewrite length_take, length_drop. lia.
  - rewrite chunk_from_done by lia. constructor.
Qed.

(** Every chunk but the last is full. *)
Lemma chunk_from_full fuel : forall i n l c rest,
  (0 < n)%nat ->
  chunk_from fuel i n l = c :: rest -> rest ≠ [] -> length c = n.
Proof.
  destruct fuel as [|fuel]; intros i n l c rest Hn; [done|].
  destruct (decide (i < length l)%nat) as [Hi|Hi].
  - rewrite chunk_from_more by done. intros [= <- <-] Hrest.
    rewrite length_take, length_drop.
    destruct (decide (i + n < length l)%nat); [lia|].
    by rewrite chunk_from_done in Hrest by lia.
  - by rewrite chunk_from_done by lia.
Qed.

Lemma length_chunk_from fuel : forall i n l,
  (0 < n)%nat -> (length l <= i + fuel)%nat ->
  length (chunk_from fuel i n l) = ((length l - i + (n - 1)) / n)%nat.
Proof.
  induction fuel as [|fuel IH]; intros i n l Hn Hfuel.
  - simpl. replace (length l - i)%nat with 0%nat by lia.
    symmetry. apply Nat.div_small. lia.
  - destruct (decide (i < length l)%nat) as [Hi|Hi].
    + rewrite chunk_from_more by done. simpl. rewrite IH by lia.
      destruct (decide (i + n <= length l)%nat) as [Hfull|Hlast].
      * replace (length l - i + (n - 1))%nat
          with (length l - (i + n) + (n - 1) + 1 * n)%nat by lia.
        rewrite Nat.div_add by lia. lia.
      * replace (length l - (i + n))%nat with 0%nat by lia.
        rewrite (Nat.div_small (0 + (n - 1))) by lia.
        apply Nat.div_unique with (r := (length l - i - 1)%nat); lia.
    + rewrite chunk_from_done by lia.
      replace (length l - i)%nat with 0%nat by lia.
      symmetry. apply Nat.div_small. lia.
Qed.

(** [chunkArray] for a positive size: the chunks, in order, are the
    array; no chunk is empty or longer than the size; there are
    ceil(length / size) of them. *)
Lemma chunkArray_spec l n :
  (0 < n)%nat ->
  concat (chunkArray l n) = l /\
  Forall (λ c, 1 <= length c <= n)%nat (chunkArray l n) /\
  length (chunkArray l n) = ((length l + (n - 1)) / n)%nat.
Proof.
  intros Hn. unfold chunkArray. split; [|split].
  - by rewrite concat_chunk_from by lia.
  - by apply Forall_chunk_from.
  - rewrite length_chunk_from by lia. by rewrite Nat.sub_0_r.
Qed.

(** The three chunks of 57 elements cut by 25. *)
Lemma chunkArray_57 l :
  length l = 57%nat ->
  chunkArray l 25 = [take 25 l; take 25 (drop 25 l); drop 50 l].
Proof.
  intros Hlen. unfold chunkArray. rewrite Hlen.
  rewrite chunk_from_more by lia. rewrite chunk_from_more by lia.
  rewrite chunk_from_more by lia. rewrite chunk_from_done by (simpl; lia).
  simpl. rewrite (take_ge (drop 50 l)); [done|]. rewrite length_drop. lia.
Qed.
End chunks.

(** ** The service script *)

Lemma no_faults_next_ok w : no_faults w -> next_ok w.
Proof.
  unfold no_faults, next_ok. destruct (script w) as [|b s]; [done|].
  simpl. by inversion 1.
Qed.

Lemma all_healthy_no_faults w : all_healthy w -> no_faults w.
Proof.
  unfold all_healthy, no_faults. intros H.
  eapply Forall_impl; [exact H|]. by intros b ->.
Qed.

Lemma all_healthy_head w : all_healthy w -> default healthy (head (script w)) = healthy.
Proof.
  unfold all_healthy. destruct (script w) as [|b s]; [done|].
  simpl. by inversion 1.
Qed.

Lemma Forall_tail {A} (P : A -> Prop) (l : list A) : Forall P l -> Forall P (tail l).
Proof. destruct 1; [constructor|done]. Qed.

(** ** batchGet *)

Lemma batch_keys_inv limit entries ks :
  batch_keys limit entries = Some ks ->
  mapM key_of entries = Some ks /\ (1 <= length ks <= limit)%nat /\ NoDup ks.
Proof.
  unfold batch_keys. destruct (mapM key_of entries) as [ks'|]; [simpl|done].
  destruct (_ && _) eqn:Hc; [|done]. intros [= <-].
  apply andb_true_iff in Hc as [Hc Hnd]. apply andb_true_iff in Hc as [Hlo Hhi].
  apply Nat.leb_le in Hhi. apply bool_decide_eq_true in Hnd.
  split; [done|]. split; [|done]. split; [|done]. destruct ks'; [done|simpl; lia].
Qed.

Lemma batch_keys_intro limit entries ks :
  mapM key_of entries = Some ks -> (1 <= length ks <= limit)%nat -> NoDup ks ->
  batch_keys limit entries = Some ks.
Proof.
  intros Hks [Hlo Hhi] Hnd. unfold batch_keys. rewrite Hks.
  change (Some ks ≫= _) with
    (if (1 <=? length ks)%nat && (length ks <=? limit)%nat && bool_decide (NoDup ks)
     then Some ks else None).
  apply Nat.leb_le in Hlo as ->. apply Nat.leb_le in Hhi as ->.
  by rewrite bool_decide_eq_true_2.
Qed.

Lemma omap_row_at (t : table) entries ks :
  mapM key_of entries = Some ks -> omap (row_at t) entries = omap (t !!.) ks.
Proof.
  rewrite mapM_Some. induction 1 as [|key k entries ks Hk _ IH]; [done|].
  simpl. unfold row_at at 1. rewrite Hk. simpl.
  change (list_omap item item (row_at t) entries) with (omap (row_at t) entries).
  by rewrite IH.
Qed.

Lemma length_omap_le {A B} (f : A -> option B) l : (length (omap f l) <= length l)%nat.
Proof.
  induction l as [|x l IH]; simpl; [done|].
  change (list_omap A B f l) with (omap f l). destruct (f x); simpl; lia.
Qed.

Lemma filter_all {A} (P : A -> Prop) `{forall x, Decision (P x)} (l : list A) :
  Forall P l -> filter P l = l.
Proof.
  induction 1 as [|x l Hx _ IH]; [done|].
  rewrite filter_cons_True by done. by rewrite IH.
Qed.

Lemma filter_none {A} (P : A -> Prop) `{forall x, Decision (P x)} (l : list A) :
  Forall (λ x, ¬ P x) l -> filter P l = [].
Proof.
  induction 1 as [|x l Hx _ IH]; [done|]. by rewrite filter_cons_False.
Qed.

Lemma processed_sublist {A} (key : A -> option pkey) chunks : forall script,
  processed key chunks script `sublist_of` concat chunks.
Proof.
  induction chunks as [|c chunks IH]; intros script; [done|].
  simpl. apply sublist_app; [apply sublist_filter|apply IH].
Qed.

Lemma processed_all {A} (key : A -> option pkey) chunks : forall script,
  Forall (λ b, unprocessed b = []) script ->
  processed key chunks script = concat chunks.
Proof.
  induction chunks as [|c chunks IH]; intros script Hall; [done|].
  simpl. rewrite IH by by apply Forall_tail. f_equal.
  apply filter_all, Forall_forall. intros x _. unfold entry_unprocessed, is_unprocessed.
  destruct (key x); [|done]. apply bool_decide_eq_false_2.
  destruct script as [|b script]; simpl; [set_solver|].
  apply Forall_cons in Hall as [-> _]. set_solver.
Qed.

Lemma warnings_none {A} line (key : A -> option pkey) chunks : forall script,
  Forall (λ b, unprocessed b = []) script ->
  warnings line key chunks script = [].
Proof.
  induction chunks as [|c chunks IH]; intros script Hall; [done|].
  simpl. rewrite IH by by apply Forall_tail. rewrite app_nil_r.
  assert (existsb (entry_unprocessed key (default healthy (head script))) c = false) as ->;
    [|done].
  apply not_true_is_false. intros (x & _ & Hx)%existsb_exists.
  unfold entry_unprocessed, is_unprocessed in Hx. destruct (key x); [|done].
  apply bool_decide_eq_true in Hx.
  destruct script as [|b script]; simpl in Hx; [set_solver|].
  apply Forall_cons in Hall as [Hb _]. rewrite Hb in Hx. set_solver.
Qed.

(** The loop of [batchGet] when the service fails no request: one
    request per chunk, the rows of the processed keys, a warning for
    each chunk with an unprocessed key. *)
Lemma batchGet_chunks_run chunks : forall acc w,
  no_faults w ->
  Forall (λ c, is_Some (batch_keys 100 c)) chunks ->
  exists r w',
    batchGet_chunks chunks acc w = (Ok r, w') /\
    sent w' = sent w ++ (BatchGetCommand <$> chunks) /\
    tbl w' = tbl w /\
    script w' = drop (length chunks) (script w) /\
    r = acc ++ (fromItem <$> omap (row_at (tbl w)) (processed key_of chunks (script w))) /\
    logged w' = logged w
                ++ warnings "warn: Unprocessed keys in batch get" key_of chunks (script w).
Proof.
  induction chunks as [|c chunks IH]; intros acc w Hnf Hwf.
  - exists acc, w. simpl. rewrite !app_nil_r. repeat split; done.
  - inversion Hwf as [|? ? [ks Hks] Hwf']; subst.
    destruct (batch_keys_inv _ _ _ Hks) as (Hmap & Hlen & Hnd).
    pose proof (no_faults_next_ok w Hnf) as Hnext. unfold next_ok in Hnext.
    simpl. unfold mbind at 1, M_bind at 1, sendBatchGet. simpl.
    rewrite Hnext, Hks.
    set (b := default healthy (head (script w))).
    set (served := filter (λ k, is_unprocessed b k = false) ks).
    set (left := filter (λ k, is_unprocessed b k = true) ks).
    set (w1 := {| tbl := tbl w; script := tail (script w);
                  sent := sent w ++ [BatchGetCommand c]; logged := logged w |}).
    assert (omap (tbl w !!.) served
            = omap (row_at (tbl w)) (filter (λ x, entry_unprocessed key_of b x = false) c)
            /\ (left = [] <-> existsb (entry_unprocessed key_of b) c = false))
      as [Hserved Hleft].
    { clear -Hmap. unfold served, left. apply mapM_Some in Hmap.
      induction Hmap as [|x k c ks Hk _ [IH1 IH2]]; [done|].
      assert (entry_unprocessed key_of b x = is_unprocessed b k) as Hx
        by (unfold entry_unprocessed; by rewrite Hk).
      rewrite !filter_cons. cbn [existsb]. rewrite Hx.
      destruct (is_unprocessed b k) eqn:Hu.
      - by repeat case_decide.
      - repeat case_decide; try done. cbn [omap list_omap orb].
        unfold row_at at 1. rewrite Hk. cbn [mbind option_bind].
        fold (omap (tbl w !!.) (filter (λ k, is_unprocessed b k = false) ks)).
        fold (omap (row_at (tbl w))
                (filter (λ x, entry_unprocessed key_of b x = false) c)).
        by rewrite IH1. }
    assert (exists w2, (match key_item <$> left with
                        | [] => mret tt
                        | _ :: _ => log "warn" "Unprocessed keys in batch get"
                        end) w1 = (Ok tt, w2) /\ tbl w2 = tbl w /\
                       script w2 = tail (script w) /\
                       sent w2 = sent w ++ [BatchGetCommand c] /\
                       logged w2 = logged w ++
                         (if existsb (entry_unprocessed key_of b) c
                          then ["warn: Unprocessed keys in batch get"] else []))
      as (w2 & Hlog & Ht2 & Hs2 & Hsent2 & Hlogged2).
    { destruct (existsb (entry_unprocessed key_of b) c) eqn:Hex.
      - destruct left as [|k left']; [by pose proof (proj1 Hleft eq_refl)|by eexists].
      - rewrite (proj2 Hleft eq_refl). eexists. split; [reflexivity|].
        by rewrite app_nil_r. }
    unfold mbind at 1, M_bind at 1. rewrite Hlog.
    destruct (IH (acc ++ (fromItem <$> omap (tbl w !!.) served)) w2)
      as (r & w' & Hrun & Hsent & Htbl & Hscript & Hr & Hlogged); [|done|].
    { unfold no_faults. rewrite Hs2. by apply Forall_tail. }
    exists r, w'. split; [done|]. split_and!.
    + rewrite Hsent, Hsent2. by rewrite <- app_assoc.
    + by rewrite Htbl.
    + rewrite Hscript, Hs2. destruct (script w); simpl; by rewrite ?drop_nil.
    + rewrite Hr, Ht2, Hs2, Hserved. fold b.
      by rewrite omap_app, fmap_app, app_assoc.
    + rewrite Hlogged, Hlogged2, Hs2. fold b. by rewrite <- app_assoc.
Qed.

Lemma chunk_from_shape {A} fuel : forall i n (l : list A),
  Forall (λ c, exists j, c = take n (drop j l)) (chunk_from fuel i n l).
Proof.
  induction fuel as [|fuel IH]; intros i n l; [constructor|].
  simpl. destruct (i <? length l)%nat; [|constructor].
  constructor; [by exists i|apply IH].
Qed.

Lemma chunks_are_batches limit keys ks :
  (0 < limit)%nat ->
  mapM key_of keys = Some ks -> NoDup ks ->
  Forall (λ c, is_Some (batch_keys limit c)) (chunkArray keys limit).
Proof.
  intros Hlim Hks Hnd.
  destruct (chunkArray_spec keys limit Hlim) as (_ & Hlen & _).
  pose proof (chunk_from_shape (length keys) 0 limit keys) as Hshape.
  fold (chunkArray keys limit) in Hshape.
  rewrite Forall_forall in Hlen, Hshape. apply Forall_forall. intros c Hc.
  destruct (Hshape c Hc) as [j ->]. specialize (Hlen _ Hc).
  exists (take limit (drop j ks)). apply batch_keys_intro.
  - apply mapM_Some. apply Forall2_take, Forall2_drop. by apply mapM_Some.
  - apply mapM_Some in Hks. apply (Forall2_drop _ _ _ j) in Hks.
    apply (Forall2_take _ _ _ limit) in Hks. apply Forall2_length in Hks.
    by rewrite <- Hks.
  - apply (sublist_NoDup _ ks); [done|].
    transitivity (drop j ks); [apply sublist_take|apply sublist_drop].
Qed.

(** C4, as amended. [batchGet] cuts the keys into chunks of at most 100
    and sends one request per chunk, in order, and no other request.
    It never asks again for a key that the service leaves unprocessed:
    it logs one warning for each chunk with such a key and returns,
    in the order in which the service answers, the entities of the rows
    of the processed keys and of no other key, at most one for each
    key; when the service leaves no key unprocessed these are the rows
    of all the keys. The table is not touched. *)
Theorem batchGet_no_retry keys ks w :
  mapM key_of keys = Some ks -> NoDup ks -> no_faults w ->
  let chunks := chunkArray keys 100 in
  let asked := processed key_of chunks (script w) in
  concat chunks = keys /\
  Forall (λ c, 1 <= length c <= 100)%nat chunks /\
  asked `sublist_of` keys /\
  exists r w',
    batchGet keys w = (Ok r, w') /\
    sent w' = sent w ++ (BatchGetCommand <$> chunks) /\
    tbl w' = tbl w /\
    r ≡ₚ fromItem <$> omap (row_at (tbl w)) asked /\
    (length r <= length keys)%nat /\
    logged w' = logged w
                ++ warnings "warn: Unprocessed keys in batch get" key_of chunks (script w) /\
    (all_processed w ->
     r ≡ₚ fromItem <$> omap (row_at (tbl w)) keys /\ logged w' = logged w).
Proof.
  intros Hks Hnd Hnf chunks asked.
  destruct (chunkArray_spec keys 100) as (Hcat & Hlen & _); [lia|].
  assert (asked `sublist_of` keys) as Hsub.
  { unfold asked, chunks. etransitivity; [apply processed_sublist|]. by rewrite Hcat. }
  split; [done|]. split; [done|]. split; [done|].
  destruct (batchGet_chunks_run chunks [] w Hnf)
    as (r & w' & Hrun & Hsent & Htbl & _ & Hr & Hlogged).
  { apply (chunks_are_batches 100 keys ks); [lia|done|done]. }
  rewrite app_nil_l in Hr. fold asked in Hr.
  exists r, w'. unfold batchGet, try_catch. fold chunks. rewrite Hrun.
  split_and!; [done|done|done|by rewrite Hr| |done|].
  - rewrite Hr, length_fmap.
    etransitivity; [apply length_omap_le|]. by apply sublist_length.
  - intros Hall. split.
    + rewrite Hr. unfold asked, chunks. by rewrite processed_all, Hcat.
    + rewrite Hlogged, warnings_none by done. by rewrite app_nil_r.
Qed.

Lemma batchGet_no_retry_witness :
  exists r w',
    batchGet keys_120 (fresh table_120 three_unprocessed_once) = (Ok r, w') /\
    sent w' = BatchGetCommand <$> chunkArray keys_120 100 /\
    r ≡ₚ fromItem <$> omap (row_at table_120)
                        (processed key_of (chunkArray keys_120 100) three_unprocessed_once) /\
    (length r <= 120)%nat.
Proof.
  destruct (batchGet_no_retry keys_120 (user_key <$> numbered_users 120)
              (fresh table_120 three_unprocessed_once))
    as (_ & _ & _ & r & w' & Hrun & Hsent & _ & Hr & Hlen & _).
  - vm_compute. reflexivity.
  - apply (bool_decide_eq_true_1 (NoDup (user_key <$> numbered_users 120))).
    vm_compute. reflexivity.
  - repeat constructor.
  - exists r, w'. split; [exact Hrun|]. split; [exact Hsent|]. split; [exact Hr|exact Hlen].
Defined.

(** C4, the claim as stated fails: of 120 stored keys the service leaves
    three unprocessed on the first request; [batchGet] sends the two
    chunk requests and no retry, logs a warning and returns 117
    entities. *)
Lemma batchGet_120_returns_117 :
  let ran := batchGet keys_120 (fresh table_120 three_unprocessed_once) in
  length keys_120 = 120%nat /\
  length (omap (row_at table_120) keys_120) = 120%nat /\
  (exists r, ran.1 = Ok r /\ length r = 117%nat) /\
  length (sent ran.2) = 2%nat /\
  logged ran.2 = ["warn: Unprocessed keys in batch get"].
Proof.
  split; [vm_compute; reflexivity|]. split; [vm_compute; reflexivity|].
  split; [|split; vm_compute; reflexivity].
  eexists. split; [vm_compute; reflexivity|vm_compute; reflexivity].
Qed.

(** ** batchWrite *)

Lemma toItem_id u it : toItem u = Ok it -> get_str it ATTRIBUTES.ID = id u.
Proof.
  unfold toItem. destruct (email u) as [e|]; [simpl|done].
  destruct (truthy_str (clkkTag u)).
  - destruct (clkkTag u); [simpl|done]. intros [= <-]. read_attr.
  - intros [= <-]. read_attr.
Qed.

(** The item [batchWrite] puts for a valid user: it sits at the key of
    the user and reads back with the id of the user. *)
Lemma put_request_valid now e :
  schema_ok e = true ->
  exists it, put_request now e = Ok it /\ key_of it = Some (user_key e) /\
             id (fromItem it) = id e.
Proof.
  intros Hok. pose proof (schema_ok_inv e Hok) as (_ & _ & [m Hm] & _).
  destruct (toItem_total e m Hm) as [it0 Hit0].
  unfold put_request. rewrite Hit0. unfold mbind, result_bind.
  eexists. split; [done|]. split.
  - unfold key_of. by rewrite !(lookup_stamped_key e it0) by (done || in_list).
  - rewrite (fromItem_stamped e it0) by done. simpl. by apply toItem_id.
Qed.

(** What reads back from the item [batchWrite] puts for a valid user
    whose optional strings are absent or not empty: the user, with the
    creation time it carries, or the time of the call when it carries
    none, and the time of the call as the time of the update. *)
Lemma put_request_reads_back now e it :
  schema_ok e = true ->
  nonempty_opt (profileImageUrl e) -> nonempty_opt (dateOfBirth e) ->
  put_request now e = Ok it ->
  fromItem it = stamp (if truthy_str (createdAt e) then createdAt e else Some now)
                  (Some now) e.
Proof.
  intros Hok Hp Hd. unfold put_request.
  destruct (toItem e) as [it0|] eqn:Hit0; [simpl|done]. intros [= <-].
  rewrite (fromItem_stamped e it0) by done.
  by rewrite (fromItem_toItem_valid e it0).
Qed.

Lemma put_request_key now e it :
  schema_ok e = true -> put_request now e = Ok it -> key_of it = Some (user_key e).
Proof.
  intros Hok Hit. destruct (put_request_valid now e Hok) as (it' & Hit' & Hk & _).
  rewrite Hit in Hit'. by injection Hit' as <-.
Qed.

Lemma mapM_put_request now c :
  Forall (λ e, schema_ok e = true) c ->
  exists its, mapM (put_request now) c = Ok its /\
              Forall2 (λ e it, put_request now e = Ok it) c its.
Proof.
  induction 1 as [|e c He _ (its & Hits & Hall)]; [by exists []|].
  destruct (put_request_valid now e He) as (it & Hit & _).
  exists (it :: its). simpl. rewrite Hit. simpl. rewrite Hits. simpl.
  split; [done|]. by constructor.
Qed.

Lemma put_requests_keys now c its :
  Forall (λ e, schema_ok e = true) c ->
  Forall2 (λ e it, put_request now e = Ok it) c its ->
  Forall2 (λ it k, key_of it = Some k) its (user_key <$> c).
Proof.
  intros Hok Hall. induction Hall as [|e it c its Hit _ IH]; [constructor|].
  inversion Hok; subst. simpl. constructor; [by eapply put_request_key|by apply IH].
Qed.

Lemma put_all_cons it k its t :
  key_of it = Some k -> put_all (it :: its) t = put_all its (<[k := it]> t).
Proof. intros Hk. unfold put_all. simpl. by rewrite Hk. Qed.

Lemma put_all_lookup_other its ks : forall t k,
  Forall2 (λ it k, key_of it = Some k) its ks -> k ∉ ks ->
  put_all its t !! k = t !! k.
Proof.
  intros t k Hall. revert t.
  induction Hall as [|it k' its ks Hk _ IH]; intros t Hnotin; [done|].
  rewrite (put_all_cons it k') by done. rewrite not_elem_of_cons in Hnotin.
  destruct Hnotin as [Hne Hnotin]. rewrite IH by done. by rewrite lookup_insert_ne.
Qed.

(** After the puts of a batch with distinct keys every item is stored at
    its key. *)
Lemma put_all_lookup its ks : forall t i it k,
  Forall2 (λ it k, key_of it = Some k) its ks -> NoDup ks ->
  its !! i = Some it -> ks !! i = Some k ->
  put_all its t !! k = Some it.
Proof.
  intros t i it k Hall. revert t i.
  induction Hall as [|it' k' its ks Hk Hall IH]; intros t i Hnd Hi Hki; [done|].
  rewrite (put_all_cons it' k') by done. apply NoDup_cons in Hnd as [Hnotin Hnd].
  destruct i as [|i]; simpl in Hi, Hki.
  - injection Hi as ->. injection Hki as ->.
    rewrite (put_all_lookup_other its ks) by done. apply lookup_insert_eq.
  - by eapply IH.
Qed.

Lemma Forall2_concat_chunks {A B} (R : A -> B -> Prop) ls ks :
  Forall2 (Forall2 R) ls ks -> Forall2 R (concat ls) (concat ks).
Proof. induction 1; simpl; [constructor|by apply Forall2_app]. Qed.

(** The loop of [batchWrite]: when the service fails no request and
    leaves nothing unprocessed, every chunk of valid users with distinct
    keys is sent once, in order, as the batch of its items, and all the
    items are put. *)
Lemma batchWrite_chunks_run now chunks : forall w,
  all_healthy w ->
  Forall (λ c, Forall (λ e, schema_ok e = true) c /\ (1 <= length c <= 25)%nat /\
               NoDup (user_key <$> c)) chunks ->
  exists w' batches,
    batchWrite_chunks now chunks w = (Ok tt, w') /\
    Forall2 (Forall2 (λ e it, put_request now e = Ok it)) chunks batches /\
    sent w' = sent w ++ (BatchWriteCommand <$> batches) /\
    tbl w' = put_all (concat batches) (tbl w) /\
    script w' = drop (length chunks) (script w).
Proof.
  induction chunks as [|c chunks IH]; intros w Hh Hwf.
  - exists w, []. simpl. rewrite app_nil_r. repeat split; constructor.
  - inversion Hwf as [|? ? (Hok & Hlen & Hnd) Hwf']; subst.
    destruct (mapM_put_request now c Hok) as (its & Hits & Hall).
    pose proof (put_requests_keys now c its Hok Hall) as Hkeys.
    assert (batch_keys 25 its = Some (user_key <$> c)) as Hbatch.
    { apply batch_keys_intro; [by apply mapM_Some|by rewrite length_fmap|done]. }
    simpl. unfold mbind at 1, M_bind at 1, lift. rewrite Hits.
    unfold mbind at 1, M_bind at 1, sendBatchWrite. simpl.
    rewrite (all_healthy_head w Hh). simpl. rewrite Hbatch.
    rewrite (filter_all (λ it, item_unprocessed healthy it = false)).
    2: { apply Forall_forall. intros it _. unfold item_unprocessed.
         by destruct (key_of it). }
    replace (filter (λ it, item_unprocessed healthy it = true) its) with (@nil item).
    2: { symmetry. apply filter_none, Forall_forall. intros it _.
         unfold item_unprocessed. by destruct (key_of it). }
    unfold mbind at 1, M_bind at 1. simpl.
    set (w1 := with_tbl _ _).
    destruct (IH w1) as (w' & batches & Hrun & Hfa & Hsent & Htbl & Hscript); [|done|].
    { unfold all_healthy, w1. simpl. by apply Forall_tail. }
    exists w', (its :: batches). split; [done|]. split; [by constructor|].
    split; [|split].
    + rewrite Hsent. unfold w1. simpl. by rewrite <- app_assoc.
    + rewrite Htbl. unfold w1. simpl. unfold put_all. by rewrite foldl_app.
    + rewrite Hscript. unfold w1. simpl. destruct (script w); simpl; by rewrite ?drop_nil.
Qed.

Lemma user_key_NoDup (l : list User) :
  Forall (λ e, schema_ok e = true) l -> NoDup (id <$> l) -> NoDup (user_key <$> l).
Proof.
  intros Hok Hnd.
  set (g := λ o : option string,
         (ENTITY_PREFIXES.USER +:+ "#" +:+ tmpl o,
          ENTITY_PREFIXES.USER +:+ "#" +:+ tmpl o)).
  change (user_key <$> l) with ((g ∘ id) <$> l). rewrite list_fmap_compose.
  apply NoDup_fmap_2_strong; [|done].
  intros o1 o2 H1 H2 Hg. rewrite Forall_forall in Hok.
  apply list_elem_of_fmap in H1 as (e1 & -> & H1).
  apply list_elem_of_fmap in H2 as (e2 & -> & H2).
  destruct (schema_ok_inv e1 (Hok _ H1)) as ([i1 Hi1] & _).
  destruct (schema_ok_inv e2 (Hok _ H2)) as ([i2 Hi2] & _).
  rewrite Hi1, Hi2 in Hg |- *. unfold g in Hg. simpl in Hg.
  injection Hg as Hg _. change (i1 = i2) in Hg. by subst.
Qed.

Lemma Forall2_lengths {A B} (R : A -> B -> Prop) ls ks :
  Forall2 (Forall2 R) ls ks -> length <$> ks = length <$> ls.
Proof.
  induction 1 as [|l k ls ks Hlk _ IH]; [done|].
  rewrite !fmap_cons, IH. f_equal. symmetry. by eapply Forall2_length.
Qed.

(** C9. A batch write of 57 valid entities with distinct ids, which the
    service processes in full, cuts them into chunks of 25, 25 and 7 that
    are the input in order (so every entity is in exactly one chunk),
    sends exactly these three batches, and leaves every entity
    retrievable by a get at its key: the get returns the entity read
    from the row stored at the key, which has the id of the entity and,
    for an entity whose optional strings are absent or not empty, is
    the entity itself in every attribute, with time stamps, of which
    the creation time is the one the entity carried when it carried
    one. *)
Theorem batchWrite_57 now entities w :
  length entities = 57%nat ->
  Forall (λ e, schema_ok e = true) entities ->
  NoDup (id <$> entities) ->
  all_healthy w ->
  length <$> chunkArray entities 25 = [25; 25; 7]%nat /\
  concat (chunkArray entities 25) = entities /\
  exists w' batches,
    batchWrite now entities w = (Ok tt, w') /\
    sent w' = sent w ++ (BatchWriteCommand <$> batches) /\
    length <$> batches = [25; 25; 7]%nat /\
    Forall2 (Forall2 (λ e it, put_request now e = Ok it))
      (chunkArray entities 25) batches /\
    forall e, e ∈ entities ->
      exists it w'',
        tbl w' !! user_key e = Some it /\
        getByKey (getPrimaryKey e) w' = (Ok (Some (fromItem it)), w'') /\
        id (fromItem it) = id e /\
        (nonempty_opt (profileImageUrl e) -> nonempty_opt (dateOfBirth e) ->
         exists created updated,
           fromItem it = stamp created updated e /\
           (truthy_str (createdAt e) = true -> created = createdAt e)).
Proof.
  intros Hlen Hok Hids Hh.
  pose proof (user_key_NoDup entities Hok Hids) as Hnd.
  destruct (chunkArray_spec entities 25) as (Hcat & _ & _); [lia|].
  assert (length <$> chunkArray entities 25 = [25; 25; 7]%nat) as Hsizes.
  { rewrite (chunkArray_57 entities Hlen). simpl.
    rewrite !length_take, !length_drop, Hlen. done. }
  split; [done|]. split; [done|].
  destruct (batchWrite_chunks_run now (chunkArray entities 25) w Hh)
    as (w' & batches & Hrun & Hfa & Hsent & Htbl & Hscript).
  { rewrite (chunkArray_57 entities Hlen).
    assert (forall i n, NoDup (user_key <$> take n (drop i entities))) as Hsub.
    { intros i n. rewrite fmap_take, fmap_drop.
      apply (sublist_NoDup _ (user_key <$> entities)); [done|].
      transitivity (drop i (user_key <$> entities));
        [apply sublist_take|apply sublist_drop]. }
    assert (forall i n, Forall (λ e, schema_ok e = true) (take n (drop i entities)))
      as Hvalid by (intros; by apply Forall_take, Forall_drop).
    rewrite <- (take_ge (drop 50 entities) 25) by (rewrite length_drop; lia).
    change (take 25 entities) with (take 25 (drop 0 entities)).
    repeat apply Forall_cons_2; try apply Forall_nil_2;
      (split; [apply Hvalid|split; [|apply Hsub]]);
      rewrite length_take, length_drop; lia. }
  exists w', batches. unfold batchWrite, try_catch. rewrite Hrun.
  split; [done|]. split; [done|].
  split; [by rewrite (Forall2_lengths _ _ _ Hfa)|]. split; [done|].
  intros e He.
  pose proof (Forall2_concat_chunks _ _ _ Hfa) as Hitems. rewrite Hcat in Hitems.
  pose proof (put_requests_keys now entities _ Hok Hitems) as Hkeys.
  apply list_elem_of_lookup_1 in He as [i Hi].
  destruct (Forall2_lookup_l _ _ _ _ _ Hitems Hi) as (it & Hiti & Hput).
  assert (tbl w' !! user_key e = Some it) as Hrow.
  { rewrite Htbl. eapply (put_all_lookup _ _ _ i); [done|done|done|].
    by rewrite list_lookup_fmap, Hi. }
  destruct (getByKey_found (getPrimaryKey e) (user_key e) it w') as (w'' & Hget & _);
    [|apply getPrimaryKey_key|done|].
  { apply no_faults_next_ok, all_healthy_no_faults.
    unfold all_healthy. rewrite Hscript. by apply Forall_drop. }
  exists it, w''. split; [done|]. split; [done|].
  rewrite Forall_forall in Hok.
  assert (schema_ok e = true) as He by (apply Hok; by eapply list_elem_of_lookup_2).
  split.
  - destruct (put_request_valid now e He) as (it' & Hput' & _ & Hid).
    rewrite Hput in Hput'. by injection Hput' as <-.
  - intros Hp Hd. eexists _, _.
    split; [by apply (put_request_reads_back now e it)|]. by intros ->.
Qed.

Lemma batchWrite_57_witness :
  length <$> chunkArray (numbered_users 57) 25 = [25; 25; 7]%nat /\
  exists w' batches,
    batchWrite "2024-01-01T00:00:00.000Z" (numbered_users 57) (fresh ∅ []) = (Ok tt, w') /\
    sent w' = BatchWriteCommand <$> batches /\
    length <$> batches = [25; 25; 7]%nat /\
    exists it w'' created updated,
      getByKey (getPrimaryKey (numbered_user 56)) w' = (Ok (Some (fromItem it)), w'') /\
      fromItem it = stamp created updated (numbered_user 56).
Proof.
  destruct (batchWrite_57 "2024-01-01T00:00:00.000Z" (numbered_users 57) (fresh ∅ []))
    as (Hsizes & _ & w' & batches & Hrun & Hsent & Hlens & _ & Hget).
  - reflexivity.
  - apply (bool_decide_eq_true_1
             (Forall (λ e, schema_ok e = true) (numbered_users 57))).
    vm_compute. reflexivity.
  - apply (bool_decide_eq_true_1 (NoDup (id <$> numbered_users 57))).
    vm_compute. reflexivity.
  - constructor.
  - split; [exact Hsizes|]. exists w', batches.
    split; [exact Hrun|]. split; [exact Hsent|]. split; [exact Hlens|].
    destruct (Hget (numbered_user 56)) as (it & w'' & _ & Hrun' & _ & Hback).
    { apply (list_elem_of_lookup_2 _ 56). reflexivity. }
    destruct Hback as (created & updated & Hfrom & _); [discriminate|discriminate|].
    exists it, w'', created, updated. split; [exact Hrun'|exact Hfrom].
Defined.

(** ** Lookups by email *)

Lemma NoDup_only {A} (l : list A) a :
  NoDup l -> a ∈ l -> (forall x, x ∈ l -> x = a) -> l = [a].
Proof.
  intros Hnd Ha Hall. destruct l as [|x [|y l]].
  - by apply elem_of_nil in Ha.
  - f_equal. apply Hall. by left.
  - assert (x = a) as -> by (apply Hall; by left).
    assert (y = a) as -> by (apply Hall; right; by left).
    apply NoDup_cons in Hnd as [Hnotin _]. destruct Hnotin. by left.
Qed.

(** An index partition with one row. *)
Lemma index_partition_one (hash v : string) (forward : bool) (t : table) (k : pkey) (row : item) :
  t !! k = Some row ->
  str_attr_is row hash v = true ->
  (forall k' row', t !! k' = Some row' -> k' ≠ k -> str_attr_is row' hash v = false) ->
  index_partition hash v forward t = [(k, row)].
Proof.
  intros Hrow Hmatch Hothers. unfold index_partition.
  assert (filter (λ kv : pkey * item, str_attr_is kv.2 hash v = true) (map_to_list t)
          = [(k, row)]) as ->.
  { apply NoDup_only.
    - apply NoDup_filter, NoDup_map_to_list.
    - apply list_elem_of_filter. split; [done|]. by apply elem_of_map_to_list.
    - intros [k' row'] [Hm Hin]%list_elem_of_filter.
      apply elem_of_map_to_list in Hin. simpl in Hm.
      destruct (decide (k' = k)) as [->|Hne].
      + rewrite Hrow in Hin. by injection Hin as <-.
      + by rewrite (Hothers k' row' Hin Hne) in Hm. }
  by destruct forward.
Qed.




(** The write path of the entities layer: [toItem] writes the email
    index key lower-cased under its prefix, and the tag index key
    likewise. *)
Lemma toItem_email_key u it m :
  toItem u = Ok it -> email u = Some m ->
  it !! ATTRIBUTES.EMAIL_KEY = Some (JStr (email_index_value m)).
Proof.
  unfold toItem. intros Hit Hm. rewrite Hm in Hit. simpl in Hit.
  destruct (truthy_str (clkkTag u)).
  - destruct (clkkTag u); [simpl in Hit|done]. injection Hit as <-.
    rewrite lookup_set_val_ne by done. rewrite lookup_singleton_eq.
    apply lookup_set_val_eq.
  - injection Hit as <-. rewrite lookup_singleton_eq. apply lookup_set_val_eq.
Qed.

Lemma toItem_tag_key u it t :
  toItem u = Ok it -> clkkTag u = Some t -> t ≠ EmptyString ->
  it !! ATTRIBUTES.CLKK_TAG_KEY
  = Some (JStr (ENTITY_PREFIXES.TAG +:+ "#" +:+ toLowerCase t)).
Proof.
  unfold toItem. intros Hit Ht Hne.
  destruct (email u) as [m|]; [simpl in Hit|done]. rewrite Ht in Hit.
  destruct t as [|c t]; [done|]. simpl in Hit. injection Hit as <-.
  rewrite lookup_singleton_eq. apply lookup_set_val_eq.
Qed.

(** The read path: the lookups ask for the same canonical values. *)
Lemma read_path_keys (probe : string) :
  KEY_BUILDERS.userByEmail (Some probe)
    = Ok {[ ATTRIBUTES.EMAIL_KEY := JStr (email_index_value probe) ]} /\
  KEY_BUILDERS.userByClkkTag (Some probe)
    = Ok {[ ATTRIBUTES.CLKK_TAG_KEY
            := JStr (ENTITY_PREFIXES.TAG +:+ "#" +:+ toLowerCase probe) ]}.
Proof. done. Qed.




(** ** Strings *)

Lemma append_nil_l (s : string) : EmptyString +:+ s = s.
Proof. done. Qed.

Lemma append_cons (c : ascii) (a b : string) : String c a +:+ b = String c (a +:+ b).
Proof. done. Qed.

Lemma append_assoc (a b c : string) : (a +:+ b) +:+ c = a +:+ (b +:+ c).
Proof.
  induction a as [|x a IH]; [done|]. rewrite !append_cons. by f_equal.
Qed.

Lemma length_append (a b : string) :
  String.length (a +:+ b) = (String.length a + String.length b)%nat.
Proof.
  induction a as [|x a IH]; [done|]. rewrite append_cons. simpl. by f_equal.
Qed.

(** Brings the characters a text is known to begin with to its front. *)
Ltac front := rewrite ?append_assoc, ?append_cons, ?append_nil_l.

(** Induction over a string three characters at a time. *)
Lemma string_by_three (P : string -> Prop) :
  P EmptyString ->
  (forall a, P (String a EmptyString)) ->
  (forall a b, P (String a (String b EmptyString))) ->
  (forall a b c r, P r -> P (String a (String b (String c r)))) ->
  forall s, P s.
Proof.
  intros H0 H1 H2 H3 s.
  assert (forall n s, (String.length s <= n)%nat -> P s) as Hlen;
    [|by apply (Hlen (String.length s))].
  clear s. induction n as [|n IH]; intros s Hs.
  - destruct s; [done|simpl in Hs; lia].
  - destruct s as [|a [|b [|c r]]]; [done..|].
    apply H3, IH. simpl in Hs. lia.
Qed.

(** ** base64 *)

Lemma unbase64_b64_char (n : N) :
  (n < 64)%N -> unbase64 (b64_char n) = Some n /\ Ascii.eqb (b64_char n) "=" = false.
Proof.
  intros Hn. rewrite <- (N2Nat.id n). assert (N.to_nat n < 64)%nat as Hm by lia.
  clear Hn. generalize dependent (N.to_nat n). clear n. intros m Hm.
  do 64 (destruct m as [|m]; [by vm_compute|]). lia.
Qed.

Lemma sextet_step (n : N) (rest : string) :
  (n < 64)%N -> b64_sextets (String (b64_char n) rest) = n :: b64_sextets rest.
Proof.
  intros Hn. destruct (unbase64_b64_char n Hn) as [Hu He]. simpl. by rewrite He, Hu.
Qed.

Lemma hi_sextet (x : N) : (x < 256 -> x / 4 < 64)%N.
Proof. intros. apply N.Div0.div_lt_upper_bound. lia. Qed.

Lemma byte_div_mod (x d : N) : (0 < d -> x = x / d * d + x mod d /\ x mod d < d)%N.
Proof.
  intros Hd. split; [|by apply N.mod_lt; lia].
  rewrite N.mul_comm. apply N.div_mod. lia.
Qed.

Lemma div_add_small (a r d : N) : (r < d -> (a * d + r) / d = a)%N.
Proof. intros Hr. symmetry. apply (N.div_unique _ d _ r); lia. Qed.

(** The three bytes of a group come back from its four sextets. *)
Lemma group_bytes (x y z : N) :
  (x < 256 -> y < 256 -> z < 256 ->
   let s1 := x / 4 in
   let s2 := x mod 4 * 16 + y / 16 in
   let s3 := y mod 16 * 4 + z / 64 in
   let s4 := z mod 64 in
   (s1 < 64 /\ s2 < 64 /\ s3 < 64 /\ s4 < 64) /\
   s1 * 4 + s2 / 16 = x /\
   s2 mod 16 * 16 + s3 / 4 = y /\
   s3 mod 4 * 64 + s4 = z)%N.
Proof.
  intros Hx Hy Hz.
  destruct (byte_div_mod x 4) as [Ex Hx4]; [lia|].
  destruct (byte_div_mod y 16) as [Ey Hy16]; [lia|].
  destruct (byte_div_mod z 64) as [Ez Hz64]; [lia|].
  assert (x / 4 < 64)%N by (apply N.Div0.div_lt_upper_bound; lia).
  assert (y / 16 < 16)%N by (apply N.Div0.div_lt_upper_bound; lia).
  assert (z / 64 < 4)%N by (apply N.Div0.div_lt_upper_bound; lia).
  cbv zeta. split; [lia|].
  rewrite (div_add_small (x mod 4) (y / 16) 16) by done.
  rewrite (div_add_small (y mod 16) (z / 64) 4) by done.
  assert ((x mod 4 * 16 + y / 16) mod 16 = y / 16)%N as ->.
  { symmetry. apply (N.mod_unique _ 16 (x mod 4)); lia. }
  assert ((y mod 16 * 4 + z / 64) mod 4 = z / 64)%N as ->.
  { symmetry. apply (N.mod_unique _ 4 (y mod 16)); lia. }
  lia.
Qed.

Lemma one_byte (x : N) :
  (x < 256 -> x / 4 < 64 /\ x mod 4 * 16 < 64 /\ x / 4 * 4 + x mod 4 * 16 / 16 = x)%N.
Proof.
  intros Hx. destruct (byte_div_mod x 4) as [Ex Hx4]; [lia|].
  assert (x / 4 < 64)%N by (apply N.Div0.div_lt_upper_bound; lia).
  rewrite N.div_mul by lia. lia.
Qed.

Lemma two_bytes (x y : N) :
  (x < 256 -> y < 256 ->
   let s2 := x mod 4 * 16 + y / 16 in
   let s3 := y mod 16 * 4 in
   (x / 4 < 64 /\ s2 < 64 /\ s3 < 64) /\
   x / 4 * 4 + s2 / 16 = x /\ s2 mod 16 * 16 + s3 / 4 = y)%N.
Proof.
  intros Hx Hy.
  destruct (byte_div_mod x 4) as [Ex Hx4]; [lia|].
  destruct (byte_div_mod y 16) as [Ey Hy16]; [lia|].
  assert (x / 4 < 64)%N by (apply N.Div0.div_lt_upper_bound; lia).
  assert (y / 16 < 16)%N by (apply N.Div0.div_lt_upper_bound; lia).
  cbv zeta. split; [lia|].
  rewrite (div_add_small (x mod 4) (y / 16) 16) by done.
  rewrite N.div_mul by lia.
  assert ((x mod 4 * 16 + y / 16) mod 16 = y / 16)%N as ->.
  { symmetry. apply (N.mod_unique _ 16 (x mod 4)); lia. }
  lia.
Qed.

(** [Buffer.from(buf.toString('base64'), 'base64')] is [buf]. *)
Lemma b64_decode_encode (s : string) : b64_decode (b64_encode s) = s.
Proof.
  unfold b64_decode. induction s as [|a|a b|a b c r IH] using string_by_three.
  - done.
  - destruct (one_byte (N_of_ascii a) (N_ascii_bounded a)) as (H1 & H2 & E1).
    unfold b64_encode. rewrite !sextet_step by done.
    change (b64_sextets "==") with (@nil N). unfold b64_bytes.
    by rewrite E1, ascii_N_embedding.
  - destruct (two_bytes (N_of_ascii a) (N_of_ascii b) (N_ascii_bounded a)
                (N_ascii_bounded b)) as ((H1 & H2 & H3) & E1 & E2).
    cbv zeta in *. unfold b64_encode. rewrite !sextet_step by done.
    change (b64_sextets "=") with (@nil N). unfold b64_bytes.
    by rewrite E1, E2, !ascii_N_embedding.
  - destruct (group_bytes (N_of_ascii a) (N_of_ascii b) (N_of_ascii c)
                (N_ascii_bounded a) (N_ascii_bounded b) (N_ascii_bounded c))
      as ((H1 & H2 & H3 & H4) & E1 & E2 & E3).
    cbv zeta in *.
    change (b64_encode (String a (String b (String c r)))) with
      (String (b64_char (N_of_ascii a / 4))
         (String (b64_char (N_of_ascii a mod 4 * 16 + N_of_ascii b / 16))
            (String (b64_char (N_of_ascii b mod 16 * 4 + N_of_ascii c / 64))
               (String (b64_char (N_of_ascii c mod 64)) (b64_encode r))))).
    rewrite !sextet_step by done.
    change (b64_bytes (?s1 :: ?s2 :: ?s3 :: ?s4 :: ?l)) with
      (String (ascii_of_N (s1 * 4 + s2 / 16))
         (String (ascii_of_N (s2 mod 16 * 16 + s3 / 4))
            (String (ascii_of_N (s3 mod 4 * 64 + s4)) (b64_bytes l)))).
    by rewrite E1, E2, E3, !ascii_N_embedding, IH.
Qed.

Lemma b64_encode_nonempty (s : string) : s ≠ EmptyString -> b64_encode s ≠ EmptyString.
Proof. by destruct s as [|a [|b [|c r]]]. Qed.

(** ** JSON *)

(** A string written by [JSON.stringify] is read back by [JSON.parse],
    whatever follows its closing quote. *)
Lemma parse_string_body_escape (s rest : string) :
  parse_string_body (json_escape s +:+ String dquote rest) = Some (s, rest).
Proof.
  induction s as [|c s IH]; [done|].
  change (json_escape (String c s)) with (json_escape_chr c +:+ json_escape s).
  rewrite append_assoc.
  destruct c as [[] [] [] [] [] [] [] []];
    match goal with
    | |- context [json_escape_chr ?a] =>
        let e := eval vm_compute in (json_escape_chr a) in
        change (json_escape_chr a) with e
    end;
    rewrite ?append_cons, ?append_nil_l; simpl; by rewrite IH.
Qed.

Lemma parse_quoted (s rest : string) (fuel : nat) :
  parse_value (S fuel) (json_quote s +:+ rest) = Some (JStr s, rest).
Proof.
  unfold json_quote. rewrite append_cons, append_assoc, append_cons, append_nil_l.
  simpl. by rewrite parse_string_body_escape.
Qed.

Lemma append_nil_r (s : string) : s +:+ EmptyString = s.
Proof. induction s as [|c s IH]; [done|]. rewrite append_cons. by f_equal. Qed.

Lemma skip_ws_stop (c : ascii) (r : string) :
  is_json_ws c = false -> skip_ws (String c r) = String c r.
Proof. intros Hc. simpl. by rewrite Hc. Qed.

Lemma parse_member_text (k v rest : string) (fuel : nat) :
  parse_member (parse_value (S fuel))
    (json_quote k +:+ ":" +:+ json_quote v +:+ rest)
  = Some (k, JStr v, rest).
Proof.
  unfold json_quote at 1. rewrite append_cons, append_assoc, append_cons, append_nil_l.
  unfold parse_member. rewrite skip_ws_stop by done. cbv beta iota.
  rewrite Ascii.eqb_refl, parse_string_body_escape.
  unfold mbind, option_bind. cbv beta iota.
  rewrite append_cons, append_nil_l, skip_ws_stop by done. cbv beta iota.
  by rewrite parse_quoted.
Qed.

Lemma obj_set_fresh (k : string) (v : json) (o : document) :
  k ∉ o.*1 -> obj_set k v o = o ++ [(k, v)].
Proof.
  induction o as [|[k' v'] o IH]; [done|]. rewrite fmap_cons, not_elem_of_cons.
  intros [Hne Hnotin]. simpl.
  destruct (String.eqb_spec k' k) as [->|_]; [done|]. by rewrite IH.
Qed.

(** The members after the first, read back into the object. *)
Lemma parse_members_text (m : list (string * string)) : forall (acc : document) n fuel rest,
  (length m < n)%nat ->
  NoDup (acc.*1 ++ m.*1) ->
  parse_members n (parse_value (S fuel)) acc (members_tail m +:+ String "}" rest)
  = Some (JObj (acc ++ ((λ kv, (kv.1, JStr kv.2)) <$> m)), rest).
Proof.
  induction m as [|[k v] m IH]; intros acc n fuel rest Hn Hnd.
  - destruct n; [simpl in Hn; lia|]. simpl. by rewrite app_nil_r.
  - destruct n; [simpl in Hn; lia|].
    change (members_tail ((k, v) :: m)) with
      ("," +:+ json_quote k +:+ ":" +:+ json_quote v +:+ members_tail m).
    rewrite !append_assoc, append_cons, append_nil_l.
    cbn [parse_members]. rewrite skip_ws_stop by done. cbv beta iota.
    rewrite parse_member_text. unfold mbind at 1, option_bind at 1. cbv beta iota.
    rewrite IH.
    + rewrite obj_set_fresh.
      * by rewrite <- app_assoc.
      * apply NoDup_app in Hnd as (_ & Hdisj & _). intros Hin.
        apply (Hdisj k Hin). simpl. by left.
    + simpl in Hn. lia.
    + rewrite obj_set_fresh.
      * rewrite fmap_app, <- app_assoc. done.
      * apply NoDup_app in Hnd as (_ & Hdisj & _). intros Hin.
        apply (Hdisj k Hin). simpl. by left.
Qed.

Lemma concat_members (kv : string * string) (m : list (string * string)) :
  String.concat ","
    (map (λ kv : string * json, json_quote kv.1 +:+ ":" +:+ JSON_stringify kv.2)
         ((λ kv, (kv.1, JStr kv.2)) <$> (kv :: m)))
  = json_quote kv.1 +:+ ":" +:+ json_quote kv.2 +:+ members_tail m.
Proof.
  revert kv. induction m as [|kv' m IH]; intros kv.
  - simpl. by rewrite ?append_assoc, ?append_nil_r.
  - set (f := λ kv : string * json, json_quote kv.1 +:+ ":" +:+ JSON_stringify kv.2).
    set (g := λ kv : string * string, (kv.1, JStr kv.2)).
    change (String.concat "," (map f (g <$> kv :: kv' :: m))) with
      (f (g kv) +:+ "," +:+ String.concat "," (map f (g <$> kv' :: m))).
    rewrite IH. unfold f, g. cbn [fst snd JSON_stringify members_tail foldr].
    by rewrite ?append_assoc.
Qed.

Lemma stringify_marker (kv : string * string) (m : list (string * string)) :
  JSON_stringify (marker_json (kv :: m))
  = String "{" (json_quote kv.1 +:+ ":" +:+ json_quote kv.2 +:+ members_tail m
                +:+ String "}" EmptyString).
Proof.
  unfold marker_json. cbn [JSON_stringify].
  rewrite concat_members. by rewrite ?append_assoc, ?append_cons, ?append_nil_l.
Qed.

Lemma length_members_tail (m : list (string * string)) :
  (length m <= String.length (members_tail m))%nat.
Proof.
  induction m as [|kv m IH]; [done|].
  cbn [members_tail foldr]. fold (members_tail m).
  rewrite append_cons, append_nil_l. simpl String.length.
  rewrite !length_append. simpl length. lia.
Qed.

(** One step of [parse_value] into an object that is not empty. *)
Lemma parse_value_object (fuel : nat) (r : string) :
  parse_value (S fuel) (String "{" (String dquote r))
  = parse_member (parse_value fuel) (String dquote r)
    ≫= λ '(k, v, r'), parse_members fuel (parse_value fuel) [(k, v)] r'.
Proof. done. Qed.

(** [JSON.parse(JSON.stringify(k))] is [k] for a key object [k] with
    distinct attribute names. *)
Lemma JSON_parse_marker (m : list (string * string)) :
  NoDup m.*1 -> JSON_parse (JSON_stringify (marker_json m)) = Some (marker_json m).
Proof.
  intros Hnd. destruct m as [|kv m]; [done|].
  rewrite stringify_marker. unfold JSON_parse.
  set (body := json_quote kv.1 +:+ ":" +:+ json_quote kv.2 +:+ members_tail m
               +:+ String "}" EmptyString).
  assert (length m < String.length body)%nat as Hm.
  { unfold body. rewrite !length_append. pose proof (length_members_tail m).
    unfold json_quote at 1. simpl String.length. lia. }
  change (String.length (String "{" body)) with (S (String.length body)).
  destruct (String.length body) as [|f] eqn:Hf; [lia|].
  assert (exists r, body = String dquote r) as [r Hr].
  { unfold body, json_quote at 1. rewrite append_cons. by eexists. }
  rewrite Hr, parse_value_object, <- Hr.
  unfold body. rewrite parse_member_text.
  unfold mbind, option_bind. cbv beta iota.
  rewrite (parse_members_text m [(kv.1, JStr kv.2)]); [|lia|done].
  unfold mbind, option_bind. by cbv beta iota.
Qed.

(** ** The pagination codec *)

Lemma stringify_marker_nonempty (m : list (string * string)) :
  JSON_stringify (marker_json m) ≠ EmptyString.
Proof. destruct m as [|kv m]; [done|]. by rewrite stringify_marker. Qed.

(** The token of a key object with distinct attribute names decodes to
    the key object. *)
Lemma token_roundtrip_marker (m : list (string * string)) (lim : option Z) :
  NoDup m.*1 ->
  exists tok l,
    createNextToken (Some (marker_json m)) = Some tok /\
    parsePaginationParams (mkPaginationParams lim (Some tok))
      = Ok (Paging.mk l (Some (marker_json m))).
Proof.
  intros Hnd. unfold createNextToken, parsePaginationParams.
  cbn [truthy marker_json limit nextToken].
  pose proof (b64_encode_nonempty _ (stringify_marker_nonempty m)) as Hne.
  eexists _, _. split; [done|].
  cbn [truthy_str tmpl].
  destruct (b64_encode (JSON_stringify (marker_json m))) as [|c tok] eqn:Htok; [done|].
  cbn [String.eqb negb]. rewrite <- Htok, b64_decode_encode, JSON_parse_marker by done.
  done.
Qed.

Lemma marker_attrs_NoDup (hash v : string) (k : pkey) : NoDup (marker_attrs hash v k).*1.
Proof.
  unfold marker_attrs, is_key_attr.
  destruct (String.eqb_spec hash ATTRIBUTES.PARTITION_KEY) as [->|Hpk]; simpl.
  { apply (bool_decide_eq_true_1 _). by vm_compute. }
  destruct (String.eqb_spec hash ATTRIBUTES.SORT_KEY) as [->|Hsk]; simpl.
  { apply (bool_decide_eq_true_1 _). by vm_compute. }
  apply NoDup_cons. split.
  { rewrite !elem_of_cons, elem_of_nil. intros [?|[?|[]]]; [done|by apply Hpk]. }
  apply NoDup_cons. split; [|apply NoDup_singleton].
  rewrite elem_of_cons, elem_of_nil. intros [?|[]]. by apply Hsk.
Qed.

(** The marker of a page is a key object with distinct names. *)
Lemma run_query_marker (q : query_input) (t : table) (out : query_output) (k : json) :
  run_query q t = Some out -> LastEvaluatedKey out = Some k ->
  exists m, k = marker_json m /\ NoDup m.*1.
Proof.
  unfold run_query. intros Hrun Hk.
  destruct (index_hash_key (IndexName q)) as [hash|]; [|done].
  cbn [mbind option_bind] in Hrun.
  destruct (parse_key_condition (KeyConditionExpression q)) as [[a ph]|]; [|done].
  cbn [mbind option_bind] in Hrun.
  destruct (negb (String.eqb a hash)); [done|].
  destruct (QueryValues q !! ph) as [[| | |v| |]|]; try done.
  destruct (match ExclusiveStartKey q with
            | Some k0 => _
            | None => _
            end) as [rows|]; [|done].
  cbn [mbind option_bind] in Hrun.
  destruct (Limit q <? 1)%Z; [done|]. injection Hrun as <-. simpl in Hk.
  destruct (_ <=? _)%nat; [|done].
  destruct (last _) as [[k' row]|]; [|done]. simpl in Hk. injection Hk as <-.
  eexists. split; [done|]. apply marker_attrs_NoDup.
Qed.

(** C7. An absent marker gives an absent token; the token of a key object
    with distinct attribute names decodes to that key object; and so
    does the token of every marker a query returns. *)
Theorem token_roundtrip :
  createNextToken None = None /\
  (forall (m : list (string * string)) (lim : option Z),
     NoDup m.*1 ->
     exists tok l,
       createNextToken (Some (marker_json m)) = Some tok /\
       parsePaginationParams (mkPaginationParams lim (Some tok))
         = Ok (Paging.mk l (Some (marker_json m)))) /\
  (forall (q : query_input) (t : table) (out : query_output) (k : json) (lim : option Z),
     run_query q t = Some out -> LastEvaluatedKey out = Some k ->
     exists tok l,
       createNextToken (Some k) = Some tok /\
       parsePaginationParams (mkPaginationParams lim (Some tok))
         = Ok (Paging.mk l (Some k))).
Proof.
  split; [done|]. split; [apply token_roundtrip_marker|].
  intros q t out k lim Hrun Hk.
  destruct (run_query_marker q t out k Hrun Hk) as (m & -> & Hnd).
  by apply token_roundtrip_marker.
Qed.

Lemma token_roundtrip_witness :
  exists tok l,
    createNextToken (Some (marker_json [("PK", "USER#u1"); ("SK", "USER#u1");
                                        ("EmailKey", "EMAIL#test@example.com")]))
      = Some tok /\
    parsePaginationParams (mkPaginationParams (Some 1%Z) (Some tok))
      = Ok (Paging.mk l (Some (marker_json [("PK", "USER#u1"); ("SK", "USER#u1");
                                            ("EmailKey", "EMAIL#test@example.com")]))).
Proof.
  apply (proj1 (proj2 token_roundtrip)).
  apply (bool_decide_eq_true_1 _). vm_compute. reflexivity.
Defined.

(** C6, as amended. [parsePaginationParams] throws only the SyntaxError of
    JSON.parse, a generic error and no token error, and it throws it
    exactly for a token that is not empty and whose base64-decoded text
    is not a JSON text; a token whose decoded text is a JSON text is
    accepted and its value becomes the start key, whatever its shape; an
    absent or empty token gives no start key. *)
Theorem decode_token_cases (p : PaginationParams) :
  (forall e, parsePaginationParams p = Err e ->
     e = SyntaxError /\ kind_of e = GenericError /\
     exists tok, nextToken p = Some tok /\ tok ≠ EmptyString /\
                 JSON_parse (b64_decode tok) = None) /\
  (forall tok, nextToken p = Some tok -> tok ≠ EmptyString ->
     JSON_parse (b64_decode tok) = None ->
     parsePaginationParams p = Err SyntaxError) /\
  (forall tok k, nextToken p = Some tok -> tok ≠ EmptyString ->
     JSON_parse (b64_decode tok) = Some k ->
     exists l, parsePaginationParams p = Ok (Paging.mk l (Some k))) /\
  (nextToken p = None \/ nextToken p = Some EmptyString ->
   exists l, parsePaginationParams p = Ok (Paging.mk l None)).
Proof.
  unfold parsePaginationParams.
  destruct (nextToken p) as [[|c tok]|]; cbn [truthy_str tmpl String.eqb negb].
  - split_and!; [done|by intros ? [= <-]|by intros ? ? [= <-]|intros _; by eexists].
  - destruct (JSON_parse (b64_decode (String c tok))) as [k|] eqn:Hparse;
      cbv beta iota.
    + split_and!; [done| |intros ? ? [= <-] _ Hk; rewrite Hparse in Hk; injection Hk as <-; by eexists|by intros [?|?]].
      intros ? [= <-] _ Hnone. congruence.
    + split_and!; [|done|intros ? ? [= <-] _ ?; congruence|by intros [?|?]].
      intros e [= <-]. split_and!; [done..|]. by exists (String c tok).
  - split_and!; [done..|]. intros _. by eexists.
Qed.

Lemma decode_token_cases_witness :
  parsePaginationParams (mkPaginationParams None (Some "not a token"))
    = Err SyntaxError.
Proof.
  apply (proj1 (proj2 (decode_token_cases
                         (mkPaginationParams None (Some "not a token"))))
           "not a token").
  - reflexivity.
  - discriminate.
  - vm_compute. reflexivity.
Defined.

(** C6, the claim as stated fails: the token MQ== is no position of the
    table (it decodes to the number 1), and decoding it returns that
    number as the start key without any error; and the token that does
    fail fails with the generic SyntaxError. *)
Lemma foreign_token_accepted :
  ¬ names_position "MQ==" /\
  parsePaginationParams (mkPaginationParams None (Some "MQ=="))
    = Ok (Paging.mk 20 (Some (JNum "1"))) /\
  parsePaginationParams (mkPaginationParams None (Some "not a token"))
    = Err SyntaxError /\
  kind_of SyntaxError ≠ TokenDecodeError.
Proof.
  split; [|by vm_compute].
  intros (k & Hk & Hpos). vm_compute in Hk. injection Hk as <-.
  by destruct Hpos.
Qed.

(** ** Update expressions *)

Lemma free_of_app c s t : free_of c s = true -> free_of c t = true -> free_of c (s +:+ t) = true.
Proof.
  unfold free_of. induction s as [|d s IH]; [by rewrite append_nil_l|].
  rewrite append_cons. simpl. intros [-> Hs]%andb_true_iff Ht. by apply IH.
Qed.

Lemma pretty_N_char_free c x :
  c = ","%char \/ c = " "%char -> Ascii.eqb (pretty_N_char x) c = false.
Proof.
  intros [-> | ->]; unfold pretty_N_char; by repeat case_match.
Qed.

Lemma pretty_N_go_free c x s :
  c = ","%char \/ c = " "%char ->
  free_of c s = true -> free_of c (pretty_N_go x s) = true.
Proof.
  intros Hc. revert s.
  induction (N.lt_wf_0 x) as [x _ IH]. intros s Hs.
  destruct (decide (x = 0)%N) as [->|Hx]; [by rewrite pretty_N_go_0|].
  rewrite pretty_N_go_step by lia. apply IH.
  - apply N.div_lt; lia.
  - unfold free_of. simpl. rewrite pretty_N_char_free by done. done.
Qed.

Lemma pretty_nat_free c (n : nat) :
  c = ","%char \/ c = " "%char -> free_of c (pretty n) = true.
Proof.
  intros Hc. unfold pretty, pretty_nat, pretty, pretty_N.
  case_decide; [by destruct Hc as [-> | ->]|]. by apply pretty_N_go_free.
Qed.

Lemma name_placeholder_free c i :
  c = ","%char \/ c = " "%char -> free_of c (name_placeholder i) = true.
Proof.
  intros Hc. apply free_of_app; [by destruct Hc as [-> | ->]|by apply pretty_nat_free].
Qed.

Lemma value_placeholder_free c i :
  c = ","%char \/ c = " "%char -> free_of c (value_placeholder i) = true.
Proof.
  intros Hc. apply free_of_app; [by destruct Hc as [-> | ->]|by apply pretty_nat_free].
Qed.

Lemma set_action_free i : free_of "," (set_action i) = true.
Proof.
  unfold set_action.
  apply free_of_app; [apply name_placeholder_free; by left|].
  apply free_of_app; [done|apply value_placeholder_free; by left].
Qed.

(** Splitting at a separator. *)
Lemma split_chr_free c s : free_of c s = true -> split_chr c s = [s].
Proof.
  unfold free_of. induction s as [|d s IH]; [done|]. simpl.
  intros [Hd Hs]%andb_true_iff. apply negb_true_iff in Hd. by rewrite Hd, IH.
Qed.

Lemma split_chr_app c s r :
  free_of c s = true -> split_chr c (s +:+ String c r) = s :: split_chr c r.
Proof.
  unfold free_of. induction s as [|d s IH].
  - intros _. rewrite append_nil_l. simpl. by rewrite Ascii.eqb_refl.
  - rewrite append_cons. simpl.
    intros [Hd Hs]%andb_true_iff. apply negb_true_iff in Hd. by rewrite Hd, IH.
Qed.

Lemma split_concat (e : string) (exprs : list string) :
  Forall (λ x, free_of "," x = true) (e :: exprs) ->
  split_chr "," (String.concat ", " (e :: exprs)) = e :: map (String " ") exprs.
Proof.
  revert e. induction exprs as [|e' exprs IH]; intros e Hfree.
  - apply split_chr_free. by inversion Hfree.
  - inversion Hfree as [|? ? He Hrest]; subst.
    change (String.concat ", " (e :: e' :: exprs))
      with (e +:+ String "," (String " " (String.concat ", " (e' :: exprs)))).
    rewrite split_chr_app by done. f_equal.
    change (split_chr "," (String " " ?s))
      with (match split_chr "," s with w :: ws => String " " w :: ws
            | [] => [String " " EmptyString] end).
    by rewrite IH.
Qed.

Lemma parse_action_set i :
  parse_action (set_action i) = Some (name_placeholder i, value_placeholder i).
Proof.
  unfold parse_action, set_action.
  change (ltrim (name_placeholder i +:+ " = " +:+ value_placeholder i))
    with (name_placeholder i +:+ " = " +:+ value_placeholder i).
  change (" = " +:+ value_placeholder i)
    with (String " " ("=" +:+ String " " (value_placeholder i))).
  rewrite split_chr_app by (apply name_placeholder_free; by right).
  rewrite split_chr_app by done.
  rewrite split_chr_free by (apply value_placeholder_free; by right). done.
Qed.

Lemma parse_action_space s : parse_action (String " " s) = parse_action s.
Proof. done. Qed.

Lemma parse_actions (e : nat) (rest : list nat) :
  mapM parse_action (set_action e :: map (String " ") (set_action <$> rest))
  = Some ((λ i, (name_placeholder i, value_placeholder i)) <$> (e :: rest)).
Proof.
  apply mapM_Some. constructor; [apply parse_action_set|].
  induction rest as [|i rest IH]; [constructor|].
  constructor; [|done]. rewrite parse_action_space. apply parse_action_set.
Qed.

(** The SET clause over the actions of the entries [is] parses into
    their placeholders. *)
Lemma parse_set_clause (e : nat) (rest : list nat) :
  parse_update_expression ("SET " +:+ String.concat ", " (set_action <$> (e :: rest)))
  = Some ((λ i, (name_placeholder i, value_placeholder i)) <$> (e :: rest)).
Proof.
  unfold parse_update_expression.
  change (strip_prefix "SET " ("SET " +:+ ?s)) with (Some s).
  cbn [mbind option_bind]. rewrite fmap_cons, split_concat.
  - apply parse_actions.
  - rewrite <- fmap_cons. apply Forall_fmap, Forall_forall. intros i _. apply set_action_free.
Qed.

Lemma name_placeholder_inj i j : name_placeholder i = name_placeholder j -> i = j.
Proof. intros H%(inj (String.app _)). by apply (inj pretty). Qed.

Lemma value_placeholder_inj i j : value_placeholder i = value_placeholder j -> i = j.
Proof. intros H%(inj (String.app _)). by apply (inj pretty). Qed.

(** ** The builders of update expressions *)

Lemma defined_from_entries entries index :
  (defined_from entries index).*2 = defined_entries entries.
Proof.
  revert index. induction entries as [|[key [v|]] rest IH]; intros index; [done| |].
  - cbn. f_equal. apply IH.
  - cbn. apply IH.
Qed.

Lemma defined_from_bounds entries index i kv :
  (i, kv) ∈ defined_from entries index -> (index <= i < index + length entries)%nat.
Proof.
  revert index. induction entries as [|[key [v|]] rest IH]; intros index; simpl.
  - by intros ?%elem_of_nil.
  - intros [[= -> _]|Hin%IH]%elem_of_cons; lia.
  - intros Hin%IH. lia.
Qed.

Lemma set_entries_expressions entries index acc :
  expressions (set_entries entries index acc)
  = expressions acc ++ (set_action <$> (defined_from entries index).*1).
Proof.
  revert index acc.
  induction entries as [|[key [v|]] rest IH]; intros index acc;
    cbn [set_entries defined_from].
  - by rewrite app_nil_r.
  - rewrite IH. cbn [expressions fmap list_fmap fst]. by rewrite <- app_assoc.
  - apply IH.
Qed.

(** The entries from [index] on leave the placeholders of the entries
    before [index] as they are. *)
Lemma set_entries_before entries index acc i :
  (i < index)%nat ->
  expressionAttributeNames (set_entries entries index acc) !! name_placeholder i
    = expressionAttributeNames acc !! name_placeholder i /\
  expressionAttributeValues (set_entries entries index acc) !! value_placeholder i
    = expressionAttributeValues acc !! value_placeholder i.
Proof.
  revert index acc.
  induction entries as [|[key [v|]] rest IH]; intros index acc Hlt; cbn [set_entries].
  - done.
  - fold (name_placeholder index) (value_placeholder index).
    match goal with |- context [set_entries rest (S index) ?a] =>
      destruct (IH (S index) a) as [-> ->]; [lia|] end.
    cbn [expressionAttributeNames expressionAttributeValues].
    rewrite !lookup_insert_ne; [done| |].
    + intros ?%value_placeholder_inj. lia.
    + intros ?%name_placeholder_inj. lia.
  - apply IH. lia.
Qed.

(** Each entry with a value binds its two placeholders. *)
Lemma set_entries_binds entries index acc i key v :
  (i, (key, v)) ∈ defined_from entries index ->
  expressionAttributeNames (set_entries entries index acc) !! name_placeholder i = Some key /\
  expressionAttributeValues (set_entries entries index acc) !! value_placeholder i = Some v.
Proof.
  revert index acc.
  induction entries as [|[key' [v'|]] rest IH]; intros index acc;
    cbn [set_entries defined_from].
  - by intros ?%elem_of_nil.
  - intros [[= -> -> ->]|Hin]%elem_of_cons; [|by apply IH].
    fold (name_placeholder index) (value_placeholder index).
    match goal with |- context [set_entries rest (S index) ?a] =>
      destruct (set_entries_before rest (S index) a index) as [-> ->]; [lia|] end.
    cbn [expressionAttributeNames expressionAttributeValues].
    by rewrite !lookup_insert_eq.
  - apply IH.
Qed.

Lemma resolve_actions (names : gmap string string) (vals : item)
    (l : list (nat * (string * json))) :
  (forall i key v, (i, (key, v)) ∈ l ->
     names !! name_placeholder i = Some key /\ vals !! value_placeholder i = Some v) ->
  mapM (resolve_action names vals)
    ((λ i, (name_placeholder i, value_placeholder i)) <$> l.*1) = Some l.*2.
Proof.
  intros Hl. apply mapM_Some. induction l as [|[i [key v]] l IH]; [constructor|].
  cbn. constructor.
  - unfold resolve_action. simpl.
    destruct (Hl i key v) as [-> ->]; [by left|]. done.
  - apply IH. intros ? ? ? ?. apply Hl. by right.
Qed.

(** The expression of [UPDATE_BUILDERS.set] parses, and its placeholders
    resolve to the entries that have a value, in their order, followed
    by the timestamp. *)
Lemma set_resolves (updates : list (string * option json)) (now : string) :
  let p := UPDATE_BUILDERS.set updates now in
  resolved_actions p = Some (defined_entries updates ++ [(ATTRIBUTES.UPDATED_AT, JStr now)]).
Proof.
  unfold resolved_actions, UPDATE_BUILDERS.set.
  cbv zeta. cbn [UpdateExpression ExpressionAttributeNames ExpressionAttributeValues].
  fold (name_placeholder (length updates)) (value_placeholder (length updates)).
  fold (set_action (length updates)).
  set (acc := set_entries updates 0 (mkSetAcc [] ∅ ∅)).
  set (l := defined_from updates 0 ++ [(length updates, (ATTRIBUTES.UPDATED_AT, JStr now))]).
  assert (expressions acc ++ [set_action (length updates)] = set_action <$> l.*1) as ->.
  { unfold acc, l. rewrite set_entries_expressions, !fmap_app. done. }
  assert (defined_entries updates ++ [(ATTRIBUTES.UPDATED_AT, JStr now)] = l.*2) as ->.
  { unfold l. by rewrite fmap_app, defined_from_entries. }
  destruct (l.*1) as [|e rest] eqn:Hl.
  { unfold l in Hl. rewrite fmap_app in Hl. by apply app_nil in Hl as [_ ?]. }
  rewrite parse_set_clause. cbn [mbind option_bind]. rewrite <- Hl.
  apply resolve_actions. intros i key v Hin.
  unfold l in Hin. apply elem_of_app in Hin as [Hin|Hin].
  - pose proof (defined_from_bounds _ _ _ _ Hin) as Hi.
    rewrite !lookup_insert_ne.
    + by apply set_entries_binds.
    + intros ?%value_placeholder_inj. lia.
    + intros ?%name_placeholder_inj. lia.
  - apply list_elem_of_singleton in Hin as [= -> -> ->]. by rewrite !lookup_insert_eq.
Qed.

(** ** The SET actions on an item *)

Lemma apply_actions_other (acts : list (string * json)) (it : item) (a : string) :
  a ∉ acts.*1 -> apply_actions acts it !! a = it !! a.
Proof.
  unfold apply_actions. revert it.
  induction acts as [|[b v] acts IH]; intros it Hnot; [done|].
  simpl. rewrite IH.
  - apply lookup_insert_ne. intros ->. apply Hnot. by left.
  - intros ?. apply Hnot. by right.
Qed.

Lemma apply_actions_set (acts : list (string * json)) (it : item) (a : string) (v : json) :
  NoDup acts.*1 -> (a, v) ∈ acts -> apply_actions acts it !! a = Some v.
Proof.
  unfold apply_actions. revert it.
  induction acts as [|[b x] acts IH]; intros it Hnd Hin; [by apply elem_of_nil in Hin|].
  apply NoDup_cons in Hnd as [Hb Hnd]. simpl.
  apply elem_of_cons in Hin as [[= -> ->]|Hin].
  - fold (apply_actions acts (<[b:=x]> it)).
    rewrite apply_actions_other by done. apply lookup_insert_eq.
  - by apply IH.
Qed.

Lemma defined_entries_elem (updates : list (string * option json)) a v :
  (a, v) ∈ defined_entries updates <-> (a, Some v) ∈ updates.
Proof.
  unfold defined_entries. rewrite list_elem_of_omap. split.
  - intros ([b [x|]] & Hin & Heq); simplify_eq/=. done.
  - intros Hin. exists (a, Some v). done.
Qed.

Lemma defined_entries_NoDup (updates : list (string * option json)) :
  NoDup updates.*1 -> NoDup (defined_entries updates).*1.
Proof.
  induction updates as [|[a [v|]] updates IH]; [done| |]; cbn.
  - intros [Ha Hnd]%NoDup_cons. apply NoDup_cons. split; [|by apply IH].
    intros ([b x] & -> & Hin%defined_entries_elem)%list_elem_of_fmap. apply Ha.
    apply list_elem_of_fmap. by exists (b, Some x).
  - intros [_ Hnd]%NoDup_cons. by apply IH.
Qed.

(** ** Updates *)

(** An object has one value at a name. *)
Lemma object_value_unique (updates : list (string * option json)) a x y :
  NoDup updates.*1 -> (a, x) ∈ updates -> (a, y) ∈ updates -> x = y.
Proof.
  induction updates as [|[b z] updates IH]; [by intros _ ?%elem_of_nil|]. cbn.
  intros [Hb Hnd]%NoDup_cons Hx Hy.
  assert (forall v, (b, v) ∈ updates -> False) as Hfresh.
  { intros v Hin. apply Hb. apply list_elem_of_fmap. by exists (b, v). }
  apply elem_of_cons in Hx as [Hx|Hx]; apply elem_of_cons in Hy as [Hy|Hy];
    simplify_eq; [done|by destruct (Hfresh _ Hy)|by destruct (Hfresh _ Hx)|by apply IH].
Qed.

Section set_of_object.
Variables (now : string) (updates : list (string * option json)).
Hypothesis Hobject : NoDup updates.*1.
Hypothesis Hnames : forall a v, (a, Some v) ∈ updates ->
  a ≠ ATTRIBUTES.PARTITION_KEY /\ a ≠ ATTRIBUTES.SORT_KEY /\ a ≠ ATTRIBUTES.UPDATED_AT.

Lemma set_actions_NoDup :
  NoDup (defined_entries updates ++ [(ATTRIBUTES.UPDATED_AT, JStr now)]).*1.
Proof using Hobject Hnames.
  rewrite fmap_app. apply NoDup_app. split_and!.
  - by apply defined_entries_NoDup.
  - intros a ([b v] & -> & Hin%defined_entries_elem)%list_elem_of_fmap.
    intros Heq%list_elem_of_singleton. by destruct (Hnames _ _ Hin) as (_ & _ & ?).
  - apply NoDup_singleton.
Qed.

Lemma set_actions_no_key :
  existsb is_key_attr (defined_entries updates ++ [(ATTRIBUTES.UPDATED_AT, JStr now)]).*1
  = false.
Proof using Hnames.
  apply not_true_is_false. intros (a & Hin & Hkey)%existsb_exists.
  apply list_elem_of_In in Hin. rewrite fmap_app in Hin. apply elem_of_app in Hin as [Hin|Hin].
  - apply list_elem_of_fmap in Hin as ([b v] & -> & Hin%defined_entries_elem).
    destruct (Hnames _ _ Hin) as (Hpk & Hsk & _). unfold is_key_attr in Hkey. simpl in Hkey.
    apply orb_true_iff in Hkey as [?%String.eqb_eq|?%String.eqb_eq]; done.
  - apply list_elem_of_singleton in Hin as ->. done.
Qed.

Lemma updated_item_set (Key : item) (existing : option item) :
  updated_item Key (UPDATE_BUILDERS.set updates now) existing
  = Some (apply_actions (defined_entries updates ++ [(ATTRIBUTES.UPDATED_AT, JStr now)])
            (default Key existing)).
Proof using Hobject Hnames.
  unfold updated_item.
  pose proof (set_resolves updates now) as Hres. unfold resolved_actions in Hres.
  cbv zeta in Hres.
  destruct (parse_update_expression _) as [acts|]; [|done].
  cbn [mbind option_bind] in Hres |- *. rewrite Hres. cbn [mbind option_bind].
  rewrite set_actions_no_key, bool_decide_eq_true_2 by apply set_actions_NoDup. done.
Qed.

(** An update of a stored row. *)
Lemma update_run (u : User) (w : world) (old : item) :
  next_ok w -> tbl w !! user_key u = Some old ->
  exists new w',
    update now updates u w = (Ok (fromItem new), w') /\
    new = apply_actions (defined_entries updates ++ [(ATTRIBUTES.UPDATED_AT, JStr now)]) old /\
    sent w' = sent w ++ [UpdateCommand (getPrimaryKey u) (UPDATE_BUILDERS.set updates now)] /\
    tbl w' = <[user_key u := new]> (tbl w).
Proof using Hobject Hnames.
  intros Hok Hold. unfold update, try_catch, mbind, M_bind, sendUpdate. simpl.
  unfold next_ok in Hok. rewrite Hok, getPrimaryKey_key, updated_item_set, Hold. simpl.
  eexists _, _. split; [reflexivity|]. done.
Qed.

End set_of_object.

(** C10. An update of a stored row sends a SET expression whose actions
    are the entries of [updates] that have a value, in their order, and
    then the timestamp: an entry whose value is undefined is in no
    action. The row the update leaves has the supplied value at every
    entry with a value and the time of the call at updatedAt, and every
    other attribute, whether named in [updates] with an undefined value
    or not named at all, has the value it had. Here [updates] is an
    object, so no name occurs twice, and no entry with a value names a
    key attribute or updatedAt. *)
Theorem update_frame (now : string) (updates : list (string * option json))
    (u : User) (w : world) (old : item) :
  NoDup updates.*1 ->
  (forall a v, (a, Some v) ∈ updates ->
     a ≠ ATTRIBUTES.PARTITION_KEY /\ a ≠ ATTRIBUTES.SORT_KEY /\ a ≠ ATTRIBUTES.UPDATED_AT) ->
  next_ok w -> tbl w !! user_key u = Some old ->
  let p := UPDATE_BUILDERS.set updates now in
  resolved_actions p = Some (defined_entries updates ++ [(ATTRIBUTES.UPDATED_AT, JStr now)]) /\
  (forall a, (a, None) ∈ updates -> a ∉ (defined_entries updates).*1) /\
  exists new w',
    update now updates u w = (Ok (fromItem new), w') /\
    sent w' = sent w ++ [UpdateCommand (getPrimaryKey u) p] /\
    tbl w' = <[user_key u := new]> (tbl w) /\
    (forall a v, (a, Some v) ∈ updates -> new !! a = Some v) /\
    new !! ATTRIBUTES.UPDATED_AT = Some (JStr now) /\
    (forall a, (a, None) ∈ updates -> a ≠ ATTRIBUTES.UPDATED_AT -> new !! a = old !! a) /\
    (forall a, a ∉ updates.*1 -> a ≠ ATTRIBUTES.UPDATED_AT -> new !! a = old !! a).
Proof.
  intros Hobject Hnames Hok Hold p.
  assert (forall a, (a, None) ∈ updates -> a ∉ (defined_entries updates).*1) as Hundef.
  { intros a Hin ([b v] & -> & Hdef%defined_entries_elem)%list_elem_of_fmap.
    by pose proof (object_value_unique _ _ _ _ Hobject Hin Hdef). }
  assert (forall a, a ∉ (defined_entries updates).*1 -> a ≠ ATTRIBUTES.UPDATED_AT ->
            apply_actions (defined_entries updates ++ [(ATTRIBUTES.UPDATED_AT, JStr now)]) old
              !! a = old !! a) as Hframe.
  { intros a Hnot Hne. apply apply_actions_other. rewrite fmap_app, elem_of_app.
    intros [?|?%list_elem_of_singleton]; done. }
  split; [apply set_resolves|]. split; [done|].
  destruct (update_run now updates Hobject Hnames u w old Hok Hold)
    as (new & w' & Hrun & -> & Hsent & Htbl).
  pose proof (set_actions_NoDup now updates Hobject Hnames) as Hnd.
  eexists _, w'. split_and!; [exact Hrun|exact Hsent|exact Htbl|..].
  - intros a v Hin. apply apply_actions_set; [done|].
    apply elem_of_app. left. by apply defined_entries_elem.
  - apply apply_actions_set; [done|]. apply elem_of_app. right. by left.
  - intros a Hin. by apply Hframe, Hundef.
  - intros a Hnot. apply Hframe.
    intros ([b v] & -> & Hdef%defined_entries_elem)%list_elem_of_fmap.
    apply Hnot. apply list_elem_of_fmap. by exists (b, Some v).
Qed.

Lemma update_frame_witness :
  exists new w',
    update "2024-03-03T00:00:00.000Z" sample_updates sample_user world_with_sample
      = (Ok (fromItem new), w') /\
    new !! "firstName" = Some (JStr "Al") /\
    new !! "updatedAt" = Some (JStr "2024-03-03T00:00:00.000Z") /\
    new !! "phoneNumber" = sample_row !! "phoneNumber" /\
    new !! "email" = sample_row !! "email".
Proof.
  destruct (update_frame "2024-03-03T00:00:00.000Z" sample_updates sample_user
              world_with_sample sample_row)
    as (_ & _ & new & w' & Hrun & _ & _ & Hset & Hstamp & Hundef & Hother).
  - apply (bool_decide_eq_true_1 _). vm_compute. reflexivity.
  - intros a v Hin. unfold sample_updates in Hin.
    rewrite !elem_of_cons, elem_of_nil in Hin.
    destruct Hin as [[= -> _]|[[=]|[]]]. split; [|split]; discriminate.
  - reflexivity.
  - vm_compute. reflexivity.
  - exists new, w'. split; [exact Hrun|]. split; [|split; [exact Hstamp|split]].
    + apply Hset. left.
    + apply Hundef; [right; left|discriminate].
    + apply Hother; [|discriminate]. unfold sample_updates. cbn.
      rewrite !elem_of_cons, elem_of_nil. intros [[=]|[[=]|[]]].
Defined.

(** An update that throws leaves the table as it was. *)
Lemma update_error_frame now updates u w e w' :
  update now updates u w = (Err e, w') -> tbl w' = tbl w.
Proof.
  unfold update, try_catch, mbind, M_bind, sendUpdate. simpl.
  destruct (fault (default healthy (head (script w)))); simpl; [by intros [= _ <-]|].
  destruct (key_of (getPrimaryKey u)); simpl; [|by intros [= _ <-]].
  destruct (updated_item _ _ _); simpl; [done|by intros [= _ <-]].
Qed.

(** C10, the claim as stated fails: for an update object that names
    updatedAt, [UPDATE_BUILDERS.set] builds a SET expression with two
    actions on updatedAt, the one of the entry and the one it always
    appends; the service refuses the request, [update] throws the
    ValidationException, and the table, with the updatedAt of the row,
    stays as it was. *)
Lemma update_naming_updatedAt_refused :
  let updates := [("updatedAt", Some (JStr "2000-01-01T00:00:00.000Z"))] in
  let ran := update "2024-03-03T00:00:00.000Z" updates sample_user world_with_sample in
  resolved_actions (UPDATE_BUILDERS.set updates "2024-03-03T00:00:00.000Z")
    = Some [("updatedAt", JStr "2000-01-01T00:00:00.000Z");
            ("updatedAt", JStr "2024-03-03T00:00:00.000Z")] /\
  ran.1 = Err (SdkError ValidationException) /\
  tbl ran.2 = tbl world_with_sample.
Proof.
  intros updates ran.
  assert (ran.1 = Err (SdkError ValidationException)) as Hran
    by (vm_compute; reflexivity).
  split; [vm_compute; reflexivity|]. split; [done|].
  apply (update_error_frame "2024-03-03T00:00:00.000Z" updates sample_user _
           (SdkError ValidationException)).
  fold ran. rewrite <- Hran. by destruct ran.
Qed.

(** The builder of the common layer on the sample: the same actions; and
    on an object without a value its expression does not parse. *)
Lemma buildUpdateExpression_sample :
  resolved_actions (buildUpdateExpression sample_updates "2024-03-03T00:00:00.000Z")
    = Some [("firstName", JStr "Al"); ("updatedAt", JStr "2024-03-03T00:00:00.000Z")] /\
  UpdateExpression (buildUpdateExpression [("phoneNumber", None)] "2024-03-03T00:00:00.000Z")
    = "SET , #updatedAt = :updatedAt" /\
  resolved_actions (buildUpdateExpression [("phoneNumber", None)] "2024-03-03T00:00:00.000Z")
    = None.
Proof. split; [|split]; vm_compute; reflexivity. Qed.

(** * Further properties of the layer *)

(** ** BaseEntity: save, delete, exists *)

Lemma toItem_stamp c d u : toItem (stamp c d u) = toItem u.
Proof. done. Qed.

Lemma getByKey_missing key k w :
  next_ok w -> key_of key = Some k -> tbl w !! k = None ->
  exists w', getByKey key w = (Ok None, w') /\ tbl w' = tbl w.
Proof.
  intros Hnext Hk Hrow.
  unfold getByKey, try_catch, mbind, M_bind, sendGet. simpl.
  rewrite Hnext, Hk. simpl. rewrite Hrow. simpl. by eexists.
Qed.

(** [fromItem] reads a valid entity back from the item that the write
    operations store for it. *)
Lemma fromItem_stored u it :
  schema_ok u = true ->
  nonempty_opt (profileImageUrl u) -> nonempty_opt (dateOfBirth u) ->
  stored_item u = Ok it -> fromItem it = u.
Proof.
  intros Hok Hp Hd. unfold stored_item.
  destruct (toItem u) as [it0|] eqn:Hit0; [simpl|done]. intros [= <-].
  rewrite (fromItem_stamped u it0) by done.
  rewrite (fromItem_toItem_valid u it0) by done. by destruct u.
Qed.

(** A valid entity has a stored item. *)
Lemma stored_item_valid u : schema_ok u = true -> exists it, stored_item u = Ok it.
Proof.
  intros Hok. pose proof (schema_ok_inv u Hok) as (_ & _ & [m Hm] & _).
  destruct (toItem_total u m Hm) as [it0 Hit0].
  unfold stored_item. rewrite Hit0. by eexists.
Qed.

(** What a save of a valid entity does when the service lets it
    through. *)
Lemma save_run now u w :
  schema_ok u = true -> next_ok w ->
  let u' := stamp (if truthy_str (createdAt u) then createdAt u else Some now)
                  (Some now) u in
  exists it w',
    save now u w = (Ok u', w') /\
    stored_item u' = Ok it /\
    sent w' = sent w ++ [PutCommand it None] /\
    tbl w' = <[user_key u := it]> (tbl w) /\
    script w' = tail (script w).
Proof.
  intros Hok Hnext u'.
  pose proof (schema_ok_inv u Hok) as (_ & _ & [m Hm] & _).
  destruct (toItem_total u' m Hm) as [it0 Hit0].
  assert (exists it, stored_item u' = Ok it) as [it Hit].
  { unfold stored_item. rewrite Hit0. by eexists. }
  pose proof (stored_item_key _ _ Hit) as Hk.
  unfold save, try_catch, validate, mbind, M_bind. rewrite Hok. simpl.
  fold u'. rewrite Hit. simpl. unfold sendPut. simpl.
  rewrite Hk, Hnext. simpl. by exists it; eexists.
Qed.

(** X1. A save of a valid entity that the service lets through is an
    unconditional put: it keeps the creation time the entity carries
    (or takes the time of the call when it carries none), sets the
    update time, replaces whatever row was stored at the key, and a get
    at the key then returns the entity read from the item; that entity
    is the saved one when its optional strings are absent or not
    empty. *)
Theorem save_then_get now u w :
  schema_ok u = true -> next_ok w ->
  let u' := stamp (if truthy_str (createdAt u) then createdAt u else Some now)
                  (Some now) u in
  exists it w',
    save now u w = (Ok u', w') /\
    stored_item u' = Ok it /\
    sent w' = sent w ++ [PutCommand it None] /\
    tbl w' = <[user_key u := it]> (tbl w) /\
    (next_ok w' ->
     exists w'', getByKey (getPrimaryKey u) w' = (Ok (Some (fromItem it)), w'')) /\
    (nonempty_opt (profileImageUrl u) -> nonempty_opt (dateOfBirth u) ->
     fromItem it = u').
Proof.
  intros Hok Hnext u'.
  destruct (save_run now u w Hok Hnext) as (it & w' & Hsave & Hit & Hsent & Htbl & _).
  exists it, w'. split_and!; [done..| |].
  - intros Hnext'.
    destruct (getByKey_found (getPrimaryKey u) (user_key u) it w' Hnext')
      as (w'' & Hget & _); [apply getPrimaryKey_key| |by exists w''].
    rewrite Htbl. apply lookup_insert_eq.
  - intros Hp Hd.
    by apply (fromItem_stored u' it).
Qed.

Lemma save_then_get_witness :
  exists it w',
    save "2024-05-05T00:00:00.000Z" sample_user_stamped (fresh ∅ [])
      = (Ok (stamp (Some "2024-01-01T00:00:00.000Z") (Some "2024-05-05T00:00:00.000Z")
               sample_user), w') /\
    tbl w' = <[user_key sample_user := it]> ∅.
Proof.
  destruct (save_then_get "2024-05-05T00:00:00.000Z" sample_user_stamped (fresh ∅ []))
    as (it & w' & Hsave & _ & _ & Htbl & _).
  - vm_compute. reflexivity.
  - vm_compute. reflexivity.
  - exists it, w'. split; [exact Hsave|exact Htbl].
Defined.

(** X2. A delete that the service lets through removes the row at the
    key of the entity, whether or not there was one, and leaves every
    other row as it was; a get at the key then returns null and exists
    returns false. *)
Theorem delete_then_get u w :
  next_ok w ->
  exists w',
    delete_entity u w = (Ok tt, w') /\
    sent w' = sent w ++ [DeleteCommand (getPrimaryKey u)] /\
    tbl w' = delete (user_key u) (tbl w) /\
    (forall k, k ≠ user_key u -> tbl w' !! k = tbl w !! k) /\
    (next_ok w' ->
     (getByKey (getPrimaryKey u) w').1 = Ok None /\
     (exists_entity u w').1 = Ok false).
Proof.
  intros Hnext.
  unfold delete_entity, try_catch, mbind, M_bind, sendDelete. simpl.
  rewrite Hnext, getPrimaryKey_key. simpl. eexists. split; [reflexivity|].
  simpl. split_and!; [done..| |].
  - intros k Hk. by apply lookup_delete_ne.
  - intros Hnext'. split.
    + unfold getByKey, try_catch, mbind, M_bind, sendGet. simpl.
      unfold next_ok in Hnext'. simpl in Hnext'. rewrite Hnext', getPrimaryKey_key. simpl.
      by rewrite lookup_delete_eq.
    + unfold exists_entity, try_catch, mbind, M_bind, sendGet. simpl.
      unfold next_ok in Hnext'. simpl in Hnext'. rewrite Hnext', getPrimaryKey_key. simpl.
      by rewrite lookup_delete_eq.
Qed.

Lemma delete_then_get_witness :
  exists w',
    delete_entity sample_user (fresh {[ user_key sample_user := getPrimaryKey sample_user ]} [])
      = (Ok tt, w') /\
    tbl w' = delete (user_key sample_user)
               {[ user_key sample_user := getPrimaryKey sample_user ]} /\
    (getByKey (getPrimaryKey sample_user) w').1 = Ok None.
Proof.
  destruct (delete_then_get sample_user
              (fresh {[ user_key sample_user := getPrimaryKey sample_user ]} []))
    as (w' & Hrun & _ & Htbl & _ & Hafter).
  - reflexivity.
  - exists w'. split; [exact Hrun|]. split; [exact Htbl|].
    apply Hafter. injection Hrun as <-. reflexivity.
Defined.

(** X3. [exists] never throws and never writes; when the service lets
    its request through, it returns whether a row is stored at the key
    of the entity. *)
Theorem exists_reports_presence u w :
  (exists b, (exists_entity u w).1 = Ok b) /\
  tbl (exists_entity u w).2 = tbl w /\
  (next_ok w ->
   (exists_entity u w).1 = Ok (bool_decide (is_Some (tbl w !! user_key u)))).
Proof.
  unfold exists_entity, try_catch, mbind, M_bind, sendGet, next_ok. simpl.
  rewrite getPrimaryKey_key.
  destruct (fault (default healthy (head (script w)))) as [t|]; simpl.
  - split_and!; [by eexists|done|done].
  - split_and!; [by eexists|done|]. intros _. f_equal.
    by destruct (tbl w !! user_key u).
Qed.

(** ** BaseEntity: update without a stored row *)

(** X4. [update] does not look whether the row exists: on a key with no
    row, an update that the service lets through creates one, made of
    the two key attributes, the supplied values and the update time,
    and nothing else. *)
Theorem update_creates_row now updates u w :
  NoDup updates.*1 ->
  (forall a v, (a, Some v) ∈ updates ->
     a ≠ ATTRIBUTES.PARTITION_KEY /\ a ≠ ATTRIBUTES.SORT_KEY /\ a ≠ ATTRIBUTES.UPDATED_AT) ->
  next_ok w -> tbl w !! user_key u = None ->
  exists new w',
    update now updates u w = (Ok (fromItem new), w') /\
    tbl w' = <[user_key u := new]> (tbl w) /\
    key_of new = Some (user_key u) /\
    (forall a v, (a, Some v) ∈ updates -> new !! a = Some v) /\
    new !! ATTRIBUTES.UPDATED_AT = Some (JStr now) /\
    (forall a, (forall v, (a, Some v) ∉ updates) -> a ≠ ATTRIBUTES.UPDATED_AT ->
       a ≠ ATTRIBUTES.PARTITION_KEY -> a ≠ ATTRIBUTES.SORT_KEY -> new !! a = None).
Proof.
  intros Hobject Hnames Hnext Hrow.
  pose proof (set_actions_NoDup now updates Hobject Hnames) as Hnd.
  set (acts := defined_entries updates ++ [(ATTRIBUTES.UPDATED_AT, JStr now)]) in *.
  assert (forall a, (forall v, (a, Some v) ∉ updates) -> a ≠ ATTRIBUTES.UPDATED_AT ->
            a ∉ acts.*1) as Hout.
  { intros a Ha Hne. unfold acts. rewrite fmap_app, elem_of_app.
    intros [([b v] & -> & Hin%defined_entries_elem)%list_elem_of_fmap
           |?%list_elem_of_singleton]; [|done].
    by apply (Ha v). }
  assert (forall a, a = ATTRIBUTES.PARTITION_KEY \/ a = ATTRIBUTES.SORT_KEY -> a ∉ acts.*1)
    as Hkeys.
  { intros a Ha. apply Hout.
    - intros v Hin. destruct (Hnames _ _ Hin) as (? & ? & _). by destruct Ha.
    - by destruct Ha as [-> | ->]. }
  exists (apply_actions acts (getPrimaryKey u)). eexists.
  split; [|split_and!].
  - unfold update, try_catch, mbind, M_bind, sendUpdate. simpl.
    unfold next_ok in Hnext.
    rewrite Hnext, getPrimaryKey_key, (updated_item_set now updates Hobject Hnames), Hrow.
    reflexivity.
  - done.
  - unfold key_of. rewrite !apply_actions_other by (apply Hkeys; auto). done.
  - intros a v Hin. apply apply_actions_set; [done|].
    apply elem_of_app. left. by apply defined_entries_elem.
  - apply apply_actions_set; [done|]. apply elem_of_app. right. by left.
  - intros a Ha Hne Hpk Hsk. rewrite apply_actions_other by by apply Hout.
    by apply getPrimaryKey_lookup_other.
Qed.

Lemma update_creates_row_witness :
  exists new w',
    update "2024-03-03T00:00:00.000Z" sample_updates sample_user (fresh ∅ [])
      = (Ok (fromItem new), w') /\
    tbl w' = <[user_key sample_user := new]> ∅ /\
    new !! "firstName" = Some (JStr "Al") /\
    new !! "email" = None.
Proof.
  destruct (update_creates_row "2024-03-03T00:00:00.000Z" sample_updates sample_user
              (fresh ∅ []))
    as (new & w' & Hrun & Htbl & _ & Hset & _ & Hnone).
  - apply (bool_decide_eq_true_1 _). vm_compute. reflexivity.
  - intros a v Hin. unfold sample_updates in Hin.
    rewrite !elem_of_cons, elem_of_nil in Hin.
    destruct Hin as [[= -> _]|[[=]|[]]]. split; [|split]; discriminate.
  - vm_compute. reflexivity.
  - vm_compute. reflexivity.
  - exists new, w'. split; [exact Hrun|]. split; [exact Htbl|]. split.
    + apply Hset. left.
    + apply Hnone; try discriminate. intros v Hin. unfold sample_updates in Hin.
      rewrite !elem_of_cons, elem_of_nil in Hin.
      destruct Hin as [[=]|[[=]|[]]].
Defined.

(** ** User.updateKycStatus *)

(** X5. [updateKycStatus] on a stored row, for any status text
    whatsoever (it checks neither the status nor the entity): the row
    gets the status and the update time; with details it gets the
    details of the instance overlaid with the given ones and with the
    status; without details it gets the details of the instance, and
    keeps its own when the instance has none; every other attribute of
    the row stays. *)
Theorem updateKycStatus_row now status details u w old :
  next_ok w -> tbl w !! user_key u = Some old ->
  exists new w',
    updateKycStatus now status details u w = (Ok (fromItem new), w') /\
    tbl w' = <[user_key u := new]> (tbl w) /\
    new !! ATTRIBUTES.KYC_STATUS = Some (JStr status) /\
    new !! ATTRIBUTES.UPDATED_AT = Some (JStr now) /\
    new !! ATTRIBUTES.KYC_DETAILS
      = match details, kycDetails u with
        | Some d, mine =>
            Some (JObj (obj_set "status" (JStr status) (obj_spread (default [] mine) d)))
        | None, Some mine => Some (JObj mine)
        | None, None => old !! ATTRIBUTES.KYC_DETAILS
        end /\
    (forall a, a ≠ ATTRIBUTES.KYC_STATUS -> a ≠ ATTRIBUTES.KYC_DETAILS ->
               a ≠ ATTRIBUTES.UPDATED_AT -> new !! a = old !! a).
Proof.
  intros Hnext Hold. unfold updateKycStatus.
  set (mine := match details with
               | Some d => Some (obj_set "status" (JStr status)
                                   (obj_spread (default [] (kycDetails u)) d))
               | None => kycDetails u
               end).
  set (u' := with_kyc (Some status) mine u). simpl.
  set (updates := [(ATTRIBUTES.KYC_STATUS, Some (JStr status));
                   (ATTRIBUTES.KYC_DETAILS, JObj <$> mine)]).
  assert (NoDup updates.*1) as Hobject.
  { apply (bool_decide_eq_true_1 _). by vm_compute. }
  assert (forall a v, (a, Some v) ∈ updates ->
            a ≠ ATTRIBUTES.PARTITION_KEY /\ a ≠ ATTRIBUTES.SORT_KEY /\
            a ≠ ATTRIBUTES.UPDATED_AT) as Hnames.
  { intros a v Hin. unfold updates in Hin. rewrite !elem_of_cons, elem_of_nil in Hin.
    destruct Hin as [[= -> _]|[[= -> _]|[]]]; done. }
  destruct (update_run now updates Hobject Hnames u' w old Hnext Hold)
    as (new & w' & Hrun & Hnew & _ & Htbl).
  pose proof (set_actions_NoDup now updates Hobject Hnames) as Hnd.
  exists new, w'. split; [exact Hrun|]. split; [exact Htbl|]. rewrite Hnew.
  split_and!.
  - apply apply_actions_set; [done|]. by left.
  - apply apply_actions_set; [done|]. apply elem_of_app. right. by left.
  - unfold updates, mine. destruct details as [d|]; [|destruct (kycDetails u) as [m|]].
    + apply apply_actions_set; [done|]. right. by left.
    + apply apply_actions_set; [done|]. right. by left.
    + apply apply_actions_other. cbn. rewrite !elem_of_cons, elem_of_nil.
      intros [?|[?|[]]]; done.
  - intros a H1 H2 H3. apply apply_actions_other.
    assert (forall l : list (string * json), l.*1 ⊆ [ATTRIBUTES.KYC_STATUS; ATTRIBUTES.KYC_DETAILS;
              ATTRIBUTES.UPDATED_AT] -> a ∉ l.*1) as Hsub.
    { intros l Hl Hin. apply Hl in Hin. rewrite !elem_of_cons, elem_of_nil in Hin.
      by destruct Hin as [?|[?|[?|[]]]]. }
    apply Hsub. unfold updates, mine.
    destruct details as [d|]; [|destruct (kycDetails u) as [m|]]; cbn;
      intros x; rewrite !elem_of_cons, !elem_of_nil; tauto.
Qed.

Lemma updateKycStatus_row_witness :
  exists new w',
    updateKycStatus "2024-03-03T00:00:00.000Z" "no such status"
      (Some [("provider", JStr "acme")]) sample_user
      (fresh {[ user_key sample_user := getPrimaryKey sample_user ]} [])
      = (Ok (fromItem new), w') /\
    new !! "kycStatus" = Some (JStr "no such status") /\
    new !! "kycDetails"
      = Some (JObj [("provider", JStr "acme"); ("status", JStr "no such status")]) /\
    new !! "email" = None.
Proof.
  destruct (updateKycStatus_row "2024-03-03T00:00:00.000Z" "no such status"
              (Some [("provider", JStr "acme")]) sample_user
              (fresh {[ user_key sample_user := getPrimaryKey sample_user ]} [])
              (getPrimaryKey sample_user))
    as (new & w' & Hrun & _ & Hstatus & _ & Hdetails & Hother).
  - reflexivity.
  - vm_compute. reflexivity.
  - exists new, w'. split; [exact Hrun|]. split; [exact Hstatus|]. split; [exact Hdetails|].
    rewrite Hother by discriminate. vm_compute. reflexivity.
Defined.

(** ** Read, then save *)

(** The stored item of an entity under another update time. *)
Lemma stored_item_restamped u it c d :
  stored_item u = Ok it ->
  exists it', stored_item (stamp c d u) = Ok it' /\
    forall a, a ≠ ATTRIBUTES.CREATED_AT -> a ≠ ATTRIBUTES.UPDATED_AT -> it' !! a = it !! a.
Proof.
  unfold stored_item. rewrite toItem_stamp.
  destruct (toItem u) as [it0|]; [simpl|done]. intros [= <-].
  eexists. split; [done|]. intros a Hc Hd.
  rewrite !lookup_set_str_ne by done. done.
Qed.

(** X6. Reading a stored user and saving it unchanged rewrites its row
    with the same attributes and creation time; only the update time
    changes. *)
Theorem get_then_save now u it w :
  schema_ok u = true ->
  nonempty_opt (profileImageUrl u) -> nonempty_opt (dateOfBirth u) ->
  truthy_str (createdAt u) = true ->
  stored_item u = Ok it -> tbl w !! user_key u = Some it ->
  no_faults w ->
  exists w1 w2 it',
    getByKey (getPrimaryKey u) w = (Ok (Some u), w1) /\
    save now u w1 = (Ok (stamp (createdAt u) (Some now) u), w2) /\
    tbl w2 = <[user_key u := it']> (tbl w) /\
    it' !! ATTRIBUTES.UPDATED_AT = Some (JStr now) /\
    (forall a, a ≠ ATTRIBUTES.UPDATED_AT -> it' !! a = it !! a).
Proof.
  intros Hok Hp Hd Hc Hit Hrow Hnf.
  assert (next_ok w) as Hnext by by apply no_faults_next_ok.
  assert (exists w1, getByKey (getPrimaryKey u) w = (Ok (Some u), w1) /\
                     tbl w1 = tbl w /\ script w1 = tail (script w)) as (w1 & Hget & Htbl1 & Hs1).
  { unfold getByKey, try_catch, mbind, M_bind, sendGet. simpl.
    unfold next_ok in Hnext. rewrite Hnext, getPrimaryKey_key. simpl. rewrite Hrow. simpl.
    rewrite (fromItem_stored u it) by done. by eexists. }
  assert (next_ok w1) as Hnext1.
  { apply no_faults_next_ok. unfold no_faults. rewrite Hs1. by apply Forall_tail. }
  destruct (save_run now u w1 Hok Hnext1) as (it' & w2 & Hsave & Hit' & _ & Htbl2 & _).
  rewrite Hc in Hsave, Hit'.
  destruct (stored_item_restamped u it (createdAt u) (Some now) Hit) as (it2 & Hit2 & Hsame).
  rewrite Hit' in Hit2. injection Hit2 as <-.
  exists w1, w2, it'. split_and!; [done..|by rewrite Htbl2, Htbl1| |].
  - unfold stored_item in Hit'. destruct (toItem _); [simpl in Hit'|done].
    injection Hit' as <-. by rewrite lookup_set_str_eq.
  - intros a Ha. destruct (decide (a = ATTRIBUTES.CREATED_AT)) as [->|Hca]; [|by apply Hsame].
    unfold stored_item in Hit, Hit'. rewrite toItem_stamp in Hit'.
    destruct (toItem u) as [it0|]; [simpl in Hit, Hit'|done].
    injection Hit as <-. injection Hit' as <-.
    rewrite lookup_set_str_ne by done. rewrite (lookup_set_str_ne _ ATTRIBUTES.UPDATED_AT) by done.
    by rewrite !lookup_set_str_eq.
Qed.

Lemma get_then_save_witness :
  exists it w1 w2 it',
    getByKey (getPrimaryKey sample_user_stamped)
      (fresh {[ user_key sample_user_stamped := it ]} [])
      = (Ok (Some sample_user_stamped), w1) /\
    tbl w2 = <[user_key sample_user_stamped := it']> {[ user_key sample_user_stamped := it ]} /\
    it' !! "createdAt" = it !! "createdAt".
Proof.
  destruct (stored_item_valid sample_user_stamped) as [it Hit]; [reflexivity|].
  destruct (get_then_save "2024-05-05T00:00:00.000Z" sample_user_stamped it
              (fresh {[ user_key sample_user_stamped := it ]} []))
    as (w1 & w2 & it' & Hget & _ & Htbl & _ & Hsame).
  - vm_compute. reflexivity.
  - discriminate.
  - discriminate.
  - reflexivity.
  - exact Hit.
  - apply lookup_singleton_eq.
  - constructor.
  - exists it, w1, w2, it'. split; [exact Hget|]. split; [exact Htbl|].
    apply Hsame. discriminate.
Defined.

(** ** chunkArray, positions *)

Lemma chunk_from_lookup {A} fuel : forall i n (l : list A) k,
  (0 < n)%nat -> (length l <= i + fuel)%nat -> (i + k * n < length l)%nat ->
  chunk_from fuel i n l !! k = Some (take n (drop (i + k * n) l)).
Proof.
  induction fuel as [|fuel IH]; intros i n l k Hn Hfuel Hk; [lia|].
  rewrite chunk_from_more by lia. destruct k as [|k]; simpl.
  - by rewrite Nat.add_0_r.
  - rewrite IH by lia. do 3 f_equal. lia.
Qed.

(** X7. [chunkArray] with a positive size cuts the array into
    consecutive slices: chunk number k is the slice of [size] elements
    from position k * size, the chunks in order make up the array, none
    is empty, and there are ceil(length / size) of them (none for the
    empty array). *)
Theorem chunkArray_slices {A} (array : list A) (size : nat) :
  (0 < size)%nat ->
  concat (chunkArray array size) = array /\
  length (chunkArray array size) = ((length array + (size - 1)) / size)%nat /\
  (forall k, (k * size < length array)%nat ->
     chunkArray array size !! k = Some (take size (drop (k * size) array))) /\
  Forall (λ c, 1 <= length c <= size)%nat (chunkArray array size) /\
  (array = [] -> chunkArray array size = []).
Proof.
  intros Hsize. destruct (chunkArray_spec array size Hsize) as (Hcat & Hall & Hlen).
  split_and!; [done..| |done|by intros ->].
  intros k Hk. unfold chunkArray. rewrite chunk_from_lookup by lia. done.
Qed.

Lemma chunkArray_slices_witness :
  chunkArray [1; 2; 3; 4; 5; 6; 7]%nat 3 !! 2%nat = Some [7]%nat /\
  length (chunkArray [1; 2; 3; 4; 5; 6; 7]%nat 3) = 3%nat.
Proof.
  destruct (chunkArray_slices [1; 2; 3; 4; 5; 6; 7]%nat 3) as (_ & Hlen & Hk & _).
  - lia.
  - split; [apply (Hk 2%nat); simpl; lia|exact Hlen].
Defined.

(** ** UserRepository.createMany *)

(** The validation pass of [createMany] over valid users. *)
Lemma mapM_validate_ok (users : list User) (w : world) :
  Forall (λ u, schema_ok u = true) users ->
  mapM validate users w = (Ok (const tt <$> users), w).
Proof.
  induction 1 as [|u users Hu _ IH]; [done|].
  simpl. unfold mbind at 1, M_bind at 1. rewrite validate_ok by done.
  unfold mbind at 1, M_bind at 1. by rewrite IH.
Qed.

(** The validation pass stops at the first user that fails. *)
Lemma mapM_validate_fails (users : list User) (w : world) :
  Exists (λ u, schema_ok u = false) users ->
  exists w', mapM validate users w = (Err UserValidationFailed, w') /\
             tbl w' = tbl w /\ sent w' = sent w.
Proof.
  induction users as [|u users IH]; intros Hbad; [by apply Exists_nil in Hbad|].
  simpl. unfold mbind at 1, M_bind at 1.
  destruct (schema_ok u) eqn:Hu.
  - rewrite validate_ok by done. unfold mbind at 1, M_bind at 1.
    apply Exists_cons in Hbad as [Hbad|Hbad]; [congruence|].
    destruct (IH Hbad) as (w' & -> & ? & ?). by exists w'.
  - destruct (validate_fails u w Hu) as (w' & -> & ? & ? & _). by exists w'.
Qed.

(** X8. [createMany] validates every user before it writes any: when
    one user of the list fails validation, the call throws the
    validation error, sends no request and leaves the table as it
    is. *)
Theorem createMany_rejects_invalid now users w :
  Exists (λ u, schema_ok u = false) users ->
  exists w',
    createMany now users w = (Err UserValidationFailed, w') /\
    tbl w' = tbl w /\ sent w' = sent w.
Proof.
  intros Hbad. destruct users as [|u users]; [by apply Exists_nil in Hbad|].
  destruct (mapM_validate_fails (u :: users) w Hbad) as (w' & Hrun & Htbl & Hsent).
  unfold createMany, try_catch. unfold mbind at 1. unfold M_bind at 1.
  rewrite Hrun. simpl.
  eexists. split; [reflexivity|]. by split.
Qed.

Lemma createMany_rejects_invalid_witness :
  exists w',
    createMany "2024-01-01T00:00:00.000Z" [sample_user; sample_invalid] (fresh ∅ [])
      = (Err UserValidationFailed, w') /\
    tbl w' = ∅ /\ sent w' = [].
Proof.
  apply (createMany_rejects_invalid "2024-01-01T00:00:00.000Z"
           [sample_user; sample_invalid] (fresh ∅ [])).
  right. left. reflexivity.
Defined.

(** The chunks of valid users with distinct keys are well-formed
    batches. *)
Lemma chunks_of_valid (entities : list User) :
  Forall (λ e, schema_ok e = true) entities -> NoDup (user_key <$> entities) ->
  Forall (λ c, Forall (λ e, schema_ok e = true) c /\ (1 <= length c <= 25)%nat /\
               NoDup (user_key <$> c)) (chunkArray entities 25).
Proof.
  intros Hok Hnd.
  destruct (chunkArray_spec entities 25) as (_ & Hlen & _); [lia|].
  pose proof (chunk_from_shape (length entities) 0 25 entities) as Hshape.
  fold (chunkArray entities 25) in Hshape.
  rewrite Forall_forall in Hlen, Hshape. apply Forall_forall. intros c Hc.
  destruct (Hshape c Hc) as [j ->]. specialize (Hlen _ Hc). split_and!.
  - by apply Forall_take, Forall_drop.
  - lia.
  - lia.
  - rewrite fmap_take, fmap_drop.
    apply (sublist_NoDup _ (user_key <$> entities)); [done|].
    transitivity (drop j (user_key <$> entities)); [apply sublist_take|apply sublist_drop].
Qed.

(** X9. [createMany] of any number of valid users with distinct ids, on
    a service that processes every request in full, sends one batch
    write per chunk of 25 users, in order, each with the items of the
    users of its chunk: ceil(n / 25) requests, and none for the empty
    list. Afterwards [getById] returns, under the id of each user, the
    entity read from the row stored at its key; for a user whose
    optional strings are absent or not empty that is the user itself
    in every attribute, with time stamps, of which the creation time
    is the one the user carried when it carried one. *)
Theorem createMany_stores_all now users w :
  Forall (λ u, schema_ok u = true) users ->
  NoDup (id <$> users) ->
  all_healthy w ->
  exists w' batches,
    createMany now users w = (Ok tt, w') /\
    sent w' = sent w ++ (BatchWriteCommand <$> batches) /\
    length batches = ((length users + 24) / 25)%nat /\
    Forall2 (Forall2 (λ u it, put_request now u = Ok it)) (chunkArray users 25) batches /\
    forall u i, u ∈ users -> id u = Some i ->
      exists it w'',
        tbl w' !! user_key u = Some it /\
        getById i w' = (Ok (Some (fromItem it)), w'') /\
        id (fromItem it) = Some i /\
        (nonempty_opt (profileImageUrl u) -> nonempty_opt (dateOfBirth u) ->
         exists created updated,
           fromItem it = stamp created updated u /\
           (truthy_str (createdAt u) = true -> created = createdAt u)).
Proof.
  intros Hok Hids Hh.
  pose proof (user_key_NoDup users Hok Hids) as Hnd.
  destruct (chunkArray_spec users 25) as (Hcat & _ & Hlen); [lia|].
  destruct (batchWrite_chunks_run now (chunkArray users 25) w Hh (chunks_of_valid users Hok Hnd))
    as (w1 & batches & Hrun & Hfa & Hsent & Htbl & Hscript).
  assert (exists w', createMany now users w = (Ok tt, w') /\
                     sent w' = sent w1 /\ tbl w' = tbl w1 /\ script w' = script w1)
    as (w' & Hmany & Hsent' & Htbl' & Hscript').
  { destruct users as [|u0 users].
    - exists w. simpl in Hrun. injection Hrun as <-. done.
    - unfold createMany, try_catch. unfold mbind at 1. unfold M_bind at 1.
      rewrite mapM_validate_ok by done.
      unfold mbind at 1, M_bind at 1, batchWrite, try_catch. rewrite Hrun. simpl.
      by eexists. }
  exists w', batches. split; [done|]. split; [by rewrite Hsent'|]. split.
  { rewrite <- (Forall2_length _ _ _ Hfa). rewrite Hlen. done. }
  split; [done|].
  intros u i Hu Hi.
  pose proof (Forall2_concat_chunks _ _ _ Hfa) as Hitems. rewrite Hcat in Hitems.
  pose proof (put_requests_keys now users _ Hok Hitems) as Hkeys.
  apply list_elem_of_lookup_1 in Hu as [n Hn].
  destruct (Forall2_lookup_l _ _ _ _ _ Hitems Hn) as (it & Hitn & Hput).
  assert (tbl w' !! user_key u = Some it) as Hrow.
  { rewrite Htbl', Htbl. eapply (put_all_lookup _ _ _ n); [done|done|done|].
    by rewrite list_lookup_fmap, Hn. }
  destruct (getByKey_found (getPrimaryKey u) (user_key u) it w') as (w'' & Hget & _);
    [|apply getPrimaryKey_key|done|].
  { apply no_faults_next_ok, all_healthy_no_faults.
    unfold all_healthy. rewrite Hscript', Hscript. by apply Forall_drop. }
  rewrite Forall_forall in Hok.
  assert (schema_ok u = true) as Hu by (apply Hok; by eapply list_elem_of_lookup_2).
  exists it, w''. split; [done|]. split_and!.
  - unfold getById. unfold getPrimaryKey in Hget. by rewrite Hi in Hget.
  - destruct (put_request_valid now u Hu) as (it' & Hput' & _ & Hid).
    rewrite Hput in Hput'. injection Hput' as <-. by rewrite Hid.
  - intros Hp Hd. eexists _, _.
    split; [by apply (put_request_reads_back now u it)|]. by intros ->.
Qed.

Lemma createMany_stores_all_witness :
  exists w' batches,
    createMany "2024-01-01T00:00:00.000Z" (numbered_users 30) (fresh ∅ []) = (Ok tt, w') /\
    sent w' = BatchWriteCommand <$> batches /\
    length batches = 2%nat /\
    exists it w'' created updated,
      getById "u29" w' = (Ok (Some (fromItem it)), w'') /\
      fromItem it = stamp created updated (numbered_user 29).
Proof.
  destruct (createMany_stores_all "2024-01-01T00:00:00.000Z" (numbered_users 30)
              (fresh ∅ []))
    as (w' & batches & Hrun & Hsent & Hlen & _ & Hget).
  - apply (bool_decide_eq_true_1
             (Forall (λ e, schema_ok e = true) (numbered_users 30))).
    vm_compute. reflexivity.
  - apply (bool_decide_eq_true_1 (NoDup (id <$> numbered_users 30))).
    vm_compute. reflexivity.
  - constructor.
  - exists w', batches. split; [exact Hrun|]. split; [exact Hsent|]. split; [exact Hlen|].
    destruct (Hget (numbered_user 29) "u29") as (it & w'' & _ & Hrun' & _ & Hback).
    { apply (list_elem_of_lookup_2 _ 29). reflexivity. }
    { reflexivity. }
    destruct Hback as (created & updated & Hfrom & _); [discriminate|discriminate|].
    exists it, w'', created, updated. split; [exact Hrun'|exact Hfrom].
Defined.

(** ** batchWrite and unprocessed items *)

Lemma put_all_lookup_notin (its : list item) : forall (t : table) (k : pkey),
  (forall it, it ∈ its -> key_of it ≠ Some k) -> put_all its t !! k = t !! k.
Proof.
  induction its as [|x its IH]; intros t k Hk; [done|].
  destruct (key_of x) as [kx|] eqn:Hx.
  - rewrite (put_all_cons x kx) by done.
    rewrite IH by (intros it Hit; apply Hk; by right).
    apply lookup_insert_ne. intros ->. by apply (Hk x); [left|].
  - assert (put_all (x :: its) t = put_all its t) as ->
      by (unfold put_all; simpl; by rewrite Hx).
    apply IH. intros it Hit. apply Hk. by right.
Qed.

(** The puts of the items of a batch that satisfy [P]. *)
Lemma put_all_filter (P : item -> Prop) `{forall it, Decision (P it)}
    (its : list item) (ks : list pkey) : forall (t : table),
  Forall2 (λ it k, key_of it = Some k) its ks -> NoDup ks ->
  forall i it k, its !! i = Some it -> ks !! i = Some k ->
    put_all (filter P its) t !! k = if decide (P it) then Some it else t !! k.
Proof.
  intros t Hall. revert t.
  induction Hall as [|x kx its ks Hx Hall IH]; intros t Hnd i it k Hi Hk; [done|].
  apply NoDup_cons in Hnd as [Hnotin Hnd].
  assert (forall (t' : table), put_all (filter P its) t' !! kx = t' !! kx) as Hkeep.
  { intros t'. apply put_all_lookup_notin. intros y [_ Hy]%list_elem_of_filter Hyk.
    apply list_elem_of_lookup_1 in Hy as [j Hj].
    destruct (Forall2_lookup_l _ _ _ _ _ Hall Hj) as (ky & Hky & Hyk').
    rewrite Hyk in Hyk'. injection Hyk' as <-. apply Hnotin.
    by eapply list_elem_of_lookup_2. }
  destruct i as [|i]; simpl in Hi, Hk.
  - injection Hi as ->. injection Hk as ->.
    destruct (decide (P it)) as [Hp|Hp].
    + rewrite filter_cons_True by done. rewrite (put_all_cons it k) by done.
      rewrite Hkeep. apply lookup_insert_eq.
    + rewrite filter_cons_False by done. apply Hkeep.
  - assert (k ≠ kx) as Hne.
    { intros ->. apply Hnotin. by eapply list_elem_of_lookup_2. }
    destruct (decide (P x)) as [Hp|Hp].
    + rewrite filter_cons_True by done. rewrite (put_all_cons x kx) by done.
      rewrite (IH _ Hnd i it k) by done.
      destruct (decide (P it)); [done|]. by apply lookup_insert_ne.
    + rewrite filter_cons_False by done. by apply (IH _ Hnd i).
Qed.

(** X10. [batchWrite] does not retry: for a batch of at most 25 valid
    entities with distinct ids of which the service leaves some
    unprocessed, it sends its one request, logs a warning and returns
    normally; the processed entities are stored, and the row of each
    unprocessed entity is as it was before the call. *)
Theorem batchWrite_drops_unprocessed now entities w b s :
  entities ≠ [] -> (length entities <= 25)%nat ->
  Forall (λ e, schema_ok e = true) entities ->
  NoDup (id <$> entities) ->
  script w = b :: s -> fault b = None ->
  exists w' its,
    batchWrite now entities w = (Ok tt, w') /\
    sent w' = sent w ++ [BatchWriteCommand its] /\
    Forall2 (λ e it, put_request now e = Ok it) entities its /\
    (forall e, e ∈ entities -> user_key e ∈ unprocessed b ->
       tbl w' !! user_key e = tbl w !! user_key e) /\
    (forall e it, e ∈ entities -> user_key e ∉ unprocessed b ->
       put_request now e = Ok it -> tbl w' !! user_key e = Some it) /\
    (Exists (λ e, user_key e ∈ unprocessed b) entities ->
     logged w' = logged w ++ ["warn: Unprocessed items in batch write"]).
Proof.
  intros Hne Hlen Hok Hids Hscript Hfault.
  pose proof (user_key_NoDup entities Hok Hids) as Hnd.
  assert (chunkArray entities 25 = [entities]) as Hchunks.
  { unfold chunkArray. destruct entities as [|e entities]; [done|].
    change (length (e :: entities)) with (S (length entities)).
    rewrite chunk_from_more by (simpl; lia). rewrite chunk_from_done by (simpl in *; lia).
    rewrite drop_0, take_ge by done. done. }
  destruct (mapM_put_request now entities Hok) as (its & Hits & Hall).
  pose proof (put_requests_keys now entities its Hok Hall) as Hkeys.
  assert (batch_keys 25 its = Some (user_key <$> entities)) as Hbatch.
  { apply batch_keys_intro; [by apply mapM_Some| |done].
    rewrite length_fmap. destruct entities; [done|simpl in *; lia]. }
  set (P := λ it : item, item_unprocessed b it = false).
  assert (forall e it, e ∈ entities -> put_request now e = Ok it ->
            item_unprocessed b it = bool_decide (user_key e ∈ unprocessed b)) as Hunp.
  { intros e it He Hit. unfold item_unprocessed.
    rewrite Forall_forall in Hok. by rewrite (put_request_key now e it (Hok e He) Hit). }
  assert (forall e, e ∈ entities -> exists i it, entities !! i = Some e /\
            its !! i = Some it /\ put_request now e = Ok it) as Hpos.
  { intros e [i Hi]%list_elem_of_lookup_1.
    destruct (Forall2_lookup_l _ _ _ _ _ Hall Hi) as (it & Hit & Hput). by exists i, it. }
  unfold batchWrite, try_catch. rewrite Hchunks. simpl.
  unfold mbind at 1, M_bind at 1, lift. rewrite Hits.
  unfold mbind at 1, M_bind at 1, sendBatchWrite. simpl.
  rewrite Hscript. simpl. rewrite Hfault, Hbatch.
  fold P.
  set (left_out := filter (λ it, item_unprocessed b it = true) its).
  assert (forall e, e ∈ entities ->
            put_all (filter P its) (tbl w) !! user_key e
            = if bool_decide (user_key e ∈ unprocessed b)
              then tbl w !! user_key e
              else match put_request now e with Ok it => Some it | Err _ => None end)
    as Hrows.
  { intros e He. destruct (Hpos e He) as (i & it & Hi & Hiti & Hput).
    rewrite (put_all_filter P its (user_key <$> entities) _ Hkeys Hnd i it (user_key e))
      by (done || by rewrite list_lookup_fmap, Hi).
    unfold P. rewrite (Hunp e it He Hput), Hput.
    destruct (decide _) as [Hd|Hd]; case_bool_decide; done. }
  destruct left_out as [|x rest] eqn:Hleft; unfold mbind at 1, M_bind at 1; simpl;
    (eexists _, its; split; [reflexivity|]; simpl; split; [done|]; split; [done|]).
  - split_and!.
    + intros e He Hin. rewrite Hrows by done. by rewrite bool_decide_eq_true_2.
    + intros e it He Hin Hput. rewrite Hrows by done.
      by rewrite bool_decide_eq_false_2, Hput by done.
    + intros (e & He & Hin)%Exists_exists. exfalso.
      destruct (Hpos e He) as (i & it & Hi & Hiti & Hput).
      assert (it ∈ filter (λ it, item_unprocessed b it = true) its) as Hmem.
      { apply list_elem_of_filter. split; [|by eapply list_elem_of_lookup_2].
        rewrite (Hunp e it He Hput). by apply bool_decide_eq_true_2. }
      fold left_out in Hmem. rewrite Hleft in Hmem. by apply elem_of_nil in Hmem.
  - split_and!.
    + intros e He Hin. rewrite Hrows by done. by rewrite bool_decide_eq_true_2.
    + intros e it He Hin Hput. rewrite Hrows by done.
      by rewrite bool_decide_eq_false_2, Hput by done.
    + done.
Qed.

Lemma batchWrite_drops_unprocessed_witness :
  exists w',
    batchWrite "2024-01-01T00:00:00.000Z" (numbered_users 3) (fresh ∅ [one_unprocessed])
      = (Ok tt, w') /\
    tbl w' !! user_key (numbered_user 1) = None /\
    logged w' = ["warn: Unprocessed items in batch write"].
Proof.
  destruct (batchWrite_drops_unprocessed "2024-01-01T00:00:00.000Z" (numbered_users 3)
              (fresh ∅ [one_unprocessed]) one_unprocessed [])
    as (w' & its & Hrun & _ & _ & Hleft & _ & Hlog).
  - discriminate.
  - simpl. lia.
  - apply (bool_decide_eq_true_1
             (Forall (λ e, schema_ok e = true) (numbered_users 3))).
    vm_compute. reflexivity.
  - apply (bool_decide_eq_true_1 (NoDup (id <$> numbered_users 3))).
    vm_compute. reflexivity.
  - reflexivity.
  - reflexivity.
  - exists w'. split; [exact Hrun|]. split.
    + rewrite (Hleft (numbered_user 1)); [reflexivity| |left].
      right. left.
    + apply Hlog. right. left. left.
Defined.

(** ** BaseEntity.batchGet *)

(** X11. The static [BaseEntity.batchGet] is a loop of single gets:
    when the service fails no request, it sends one GetCommand per key,
    in the order of the keys and also for a key that occurs twice,
    leaves the table as it is, and returns the entities of the keys that
    have a row, in the order of the keys. *)
Theorem entity_batchGet_gets_each_key keys ks w :
  mapM key_of keys = Some ks -> no_faults w ->
  exists w',
    BaseEntity.batchGet keys w
      = (Ok (fromItem <$> omap (row_at (tbl w)) keys), w') /\
    sent w' = sent w ++ ((λ key, GetCommand key None) <$> keys) /\
    tbl w' = tbl w.
Proof.
  intros Hks Hnf. unfold BaseEntity.batchGet.
  assert (forall acc, exists w',
            BaseEntity.batchGet_loop keys acc w
            = (Ok (acc ++ (fromItem <$> omap (row_at (tbl w)) keys)), w') /\
            sent w' = sent w ++ ((λ key, GetCommand key None) <$> keys) /\
            tbl w' = tbl w) as Hloop; [|apply (Hloop [])].
  apply mapM_Some in Hks. revert w Hnf.
  induction Hks as [|key k keys ks Hk _ IH]; intros w Hnf acc.
  - exists w. simpl. by rewrite !app_nil_r.
  - assert (next_ok w) as Hnext by by apply no_faults_next_ok.
    simpl. unfold mbind at 1, M_bind at 1.
    unfold getByKey, try_catch, mbind at 1, M_bind at 1, log. simpl.
    unfold mbind at 1, M_bind at 1, sendGet. simpl.
    unfold next_ok in Hnext. rewrite Hnext, Hk. simpl.
    set (w1 := {| tbl := tbl w; script := tail (script w);
                  sent := sent w ++ [GetCommand key None];
                  logged := logged w ++ ["info" +:+ ": " +:+ "Getting entity by key"] |}).
    assert (no_faults w1) as Hnf1 by (by apply Forall_tail).
    unfold row_at at 1. rewrite Hk. simpl.
    destruct (tbl w !! k) as [row|]; simpl.
    + destruct (IH w1 Hnf1 (acc ++ [fromItem row])) as (w' & Hrun & Hsent & Htbl).
      exists w'. rewrite Hrun. split; [by rewrite <- app_assoc|].
      split; [|done]. rewrite Hsent. simpl. by rewrite <- app_assoc.
    + destruct (IH w1 Hnf1 acc) as (w' & Hrun & Hsent & Htbl).
      exists w'. rewrite Hrun. split; [done|].
      split; [|done]. rewrite Hsent. simpl. by rewrite <- app_assoc.
Qed.

Lemma entity_batchGet_gets_each_key_witness :
  exists w',
    BaseEntity.batchGet [getPrimaryKey sample_user; getPrimaryKey sample_user]
      (fresh ∅ [])
      = (Ok [], w') /\
    length (sent w') = 2%nat.
Proof.
  destruct (entity_batchGet_gets_each_key
              [getPrimaryKey sample_user; getPrimaryKey sample_user]
              [user_key sample_user; user_key sample_user] (fresh ∅ []))
    as (w' & Hrun & Hsent & _).
  - reflexivity.
  - constructor.
  - exists w'. split; [exact Hrun|]. rewrite Hsent. reflexivity.
Defined.

(** ** Index queries *)

Lemma index_hash_key_cases (indexName hash : string) :
  index_hash_key indexName = Some hash ->
  hash ∈ [ATTRIBUTES.EXTERNAL_ID_KEY; ATTRIBUTES.EMAIL_KEY; ATTRIBUTES.CLKK_TAG_KEY;
          ATTRIBUTES.PARTITION_KEY; ATTRIBUTES.TYPE_STATUS_KEY].
Proof.
  unfold index_hash_key. repeat case_match; intros [= <-]; set_solver.
Qed.

Lemma parse_key_condition_hash (indexName hash v : string) :
  index_hash_key indexName = Some hash ->
  parse_key_condition (expression (QUERY_BUILDERS.keyCondition hash v))
  = Some (hash, ":value").
Proof.
  intros Hcases%index_hash_key_cases.
  rewrite !elem_of_cons, elem_of_nil in Hcases.
  destruct Hcases as [->|[->|[->|[->|[->|[]]]]]]; by vm_compute.
Qed.

(** A query on an index by the key condition of the builders. *)
Lemma run_query_any_limit (indexName hash v : string) (lim : Z) (start : option json)
    (forward : bool) (t : table) :
  index_hash_key indexName = Some hash ->
  run_query (index_query indexName hash v lim start forward) t
  = rows ← match start with
           | None => Some (index_partition hash v forward t)
           | Some k => pos ← start_position k;
                       rows_after pos (index_partition hash v forward t)
           end;
    if (lim <? 1)%Z then None else Some (page_of hash v (Z.to_nat lim) rows).
Proof.
  intros Hidx. unfold run_query, index_query.
  cbn [IndexName KeyConditionExpression QueryValues Limit ExclusiveStartKey ScanIndexForward].
  rewrite Hidx. cbn [mbind option_bind].
  rewrite (parse_key_condition_hash indexName hash v Hidx). cbn [mbind option_bind].
  rewrite String.eqb_refl. cbn [negb].
  unfold QUERY_BUILDERS.keyCondition. cbn [values]. by rewrite lookup_singleton_eq.
Qed.

(** The same with a limit of at least one. *)
Lemma run_query_index (indexName hash v : string) (lim : Z) (start : option json)
    (forward : bool) (t : table) :
  index_hash_key indexName = Some hash -> (1 <= lim)%Z ->
  run_query (index_query indexName hash v lim start forward) t
  = rows ← match start with
           | None => Some (index_partition hash v forward t)
           | Some k => pos ← start_position k;
                       rows_after pos (index_partition hash v forward t)
           end;
    Some (page_of hash v (Z.to_nat lim) rows).
Proof.
  intros Hidx Hlim. rewrite run_query_any_limit by done.
  by apply Z.ltb_ge in Hlim as ->.
Qed.

(** [queryByIndex] with page parameters that parse: the one query it
    sends and what it makes of the answer. *)
Lemma queryByIndex_run (indexName hash v : string) (opts : query_options)
    (pp : Paging.t) (w : world) :
  parsePaginationParams (default (mkPaginationParams None None) (pagination opts)) = Ok pp ->
  next_ok w ->
  let q := index_query indexName hash v (Paging.Limit pp) (Paging.ExclusiveStartKey pp)
             (default false (scanIndexForward opts)) in
  exists w',
    queryByIndex indexName (QUERY_BUILDERS.keyCondition hash v) opts w
    = (match run_query q (tbl w) with
       | Some out => Ok (Page.mk (fromItem <$> Items out)
                                 (createNextToken (LastEvaluatedKey out)) (Count out))
       | None => Err (SdkError ValidationException)
       end, w') /\
    sent w' = sent w ++ [QueryCommand q] /\
    tbl w' = tbl w /\ script w' = tail (script w).
Proof.
  intros Hpp Hnext q.
  unfold queryByIndex, try_catch, mbind at 1, M_bind at 1, lift. rewrite Hpp.
  unfold mbind, M_bind, log, sendQuery. simpl.
  unfold next_ok in Hnext. rewrite Hnext.
  change (run_query _ (tbl w)) with (run_query q (tbl w)).
  destruct (run_query q (tbl w)); simpl; (eexists; split; [reflexivity|done]).
Qed.

Lemma last_take_is_Some {A} (n : nat) (l : list A) :
  (1 <= n)%nat -> l ≠ [] -> is_Some (last (take n l)).
Proof.
  intros Hn Hl. destruct n as [|n]; [lia|]. destruct l as [|x l]; [done|].
  simpl. destruct (take n l) eqn:E; [by eexists|]. rewrite <- E.
  apply (proj2 (last_is_Some _)). by rewrite E.
Qed.

(** A row of the partition of [v] in the index on [hash]. *)
Lemma index_partition_elem (hash v : string) (forward : bool) (t : table)
    (k : pkey) (row : item) :
  (k, row) ∈ index_partition hash v forward t ->
  t !! k = Some row /\ str_attr_is row hash v = true.
Proof.
  unfold index_partition. intros Hin.
  assert ((k, row) ∈ filter (λ kv : pkey * item, str_attr_is kv.2 hash v = true)
                       (map_to_list t)) as [Hattr Hrow%elem_of_map_to_list]%list_elem_of_filter.
  { destruct forward; [done|]. by rewrite elem_of_reverse in Hin. }
  done.
Qed.

Lemma index_partition_NoDup (hash v : string) (forward : bool) (t : table) :
  NoDup (index_partition hash v forward t).*1.
Proof.
  unfold index_partition.
  assert (NoDup (filter (λ kv : pkey * item, str_attr_is kv.2 hash v = true)
                   (map_to_list t)).*1) as Hnd.
  { apply (sublist_NoDup _ (map_to_list t).*1); [apply NoDup_fst_map_to_list|].
    apply fmap_sublist, sublist_filter. }
  destruct forward; [done|]. by rewrite fmap_reverse, reverse_Permutation.
Qed.

(** The number of rows is the same in both directions. *)
Lemma length_index_partition (hash v : string) (forward : bool) (t : table) :
  length (index_partition hash v forward t) = length (index_partition hash v false t).
Proof. unfold index_partition. destruct forward; by rewrite ?length_reverse. Qed.

(** X12. The first page of [queryByIndex] by a key condition of the
    builders on one of the three lookup indexes of the users (Clerk id,
    email, tag), when the service lets the query through. The limit is
    the one given, and 20 when none or 0 is given; a limit below one is
    refused by the service. Otherwise the page holds the entities of
    rows of the table that carry the index key asked for, each row at
    most once, as many as the limit or, when there are fewer, all of
    them; its count is the number of its items; and it carries a token
    exactly when the query stopped at the limit, that is when the
    limit is not above the number of such rows, also when no row is
    left for a next page. The table is not touched. *)
Theorem queryByIndex_first_page (indexName hash v : string) (lim : option Z)
    (fwd : option bool) (w : world) :
  index_hash_key indexName = Some hash ->
  hash ∈ [ATTRIBUTES.EXTERNAL_ID_KEY; ATTRIBUTES.EMAIL_KEY; ATTRIBUTES.CLKK_TAG_KEY] ->
  next_ok w ->
  let opts := {| pagination := Some (mkPaginationParams lim None);
                 scanIndexForward := fwd |} in
  let size := length (index_partition hash v false (tbl w)) in
  let n := Z.to_nat (limit_or_20 lim) in
  ((limit_or_20 lim < 1)%Z ->
   (queryByIndex indexName (QUERY_BUILDERS.keyCondition hash v) opts w).1
   = Err (SdkError ValidationException)) /\
  ((1 <= limit_or_20 lim)%Z ->
   exists page w' rows,
     queryByIndex indexName (QUERY_BUILDERS.keyCondition hash v) opts w = (Ok page, w') /\
     Page.items page = fromItem <$> rows.*2 /\
     NoDup rows.*1 /\
     (forall k row, (k, row) ∈ rows ->
        tbl w !! k = Some row /\ str_attr_is row hash v = true) /\
     length rows = (n `min` size)%nat /\
     Page.count page = Z.of_nat (length (Page.items page)) /\
     (is_Some (Page.nextToken page) <-> (n <= size)%nat) /\
     tbl w' = tbl w).
Proof.
  intros Hidx _ Hnext opts size n.
  set (rows := index_partition hash v (default false fwd) (tbl w)).
  assert (length rows = size) as Hsize by apply length_index_partition.
  destruct (queryByIndex_run indexName hash v opts
              (Paging.mk (limit_or_20 lim) None) w) as (w' & Hrun & _ & Htbl & _);
    [done|done|].
  cbn [Paging.Limit Paging.ExclusiveStartKey scanIndexForward opts] in Hrun.
  split.
  - intros Hlow. rewrite Hrun, run_query_any_limit by done.
    cbn [mbind option_bind]. by apply Z.ltb_lt in Hlow as ->.
  - intros Hlim. rewrite (run_query_index indexName hash v) in Hrun by done.
    cbn [mbind option_bind] in Hrun. fold rows n in Hrun.
    eexists _, w', (take n rows). split; [exact Hrun|].
    cbn [Page.items Page.count Page.nextToken page_of Items Count LastEvaluatedKey].
    split_and!; [done| | | |by rewrite length_fmap, length_fmap| |done].
    + apply (sublist_NoDup _ rows.*1); [apply index_partition_NoDup|].
      apply fmap_sublist, sublist_take.
    + intros k row Hin. apply (index_partition_elem hash v (default false fwd)).
      by apply (subseteq_take n rows).
    + by rewrite length_take, Hsize.
    + rewrite Hsize. destruct (n <=? size)%nat eqn:Hfull.
      * apply Nat.leb_le in Hfull. split; [done|]. intros _.
        destruct (last_take_is_Some n rows) as [[k row] ->]; [unfold n; lia| |by eexists].
        intros Hrows. rewrite Hrows in Hsize. simpl in Hsize. unfold n in *. lia.
      * apply Nat.leb_gt in Hfull. split; [by intros [? ?]|lia].
Qed.

(** One row with the email key asked for and a limit of one: the page
    holds the row and carries a token. *)
Lemma queryByIndex_first_page_witness :
  exists page w',
    queryByIndex INDEXES.EMAIL
      (QUERY_BUILDERS.keyCondition ATTRIBUTES.EMAIL_KEY "EMAIL#a@b.c")
      {| pagination := Some (mkPaginationParams (Some 1%Z) None);
         scanIndexForward := None |} (fresh one_email_row [])
      = (Ok page, w') /\
    length (Page.items page) = 1%nat /\
    is_Some (Page.nextToken page).
Proof.
  destruct (queryByIndex_first_page INDEXES.EMAIL ATTRIBUTES.EMAIL_KEY "EMAIL#a@b.c"
              (Some 1%Z) None (fresh one_email_row []))
    as (_ & Hpage); [reflexivity|set_solver|reflexivity|].
  destruct Hpage as (page & w' & rows & Hrun & Hitems & _ & _ & Hlen & _ & Htoken & _);
    [simpl; lia|].
  exists page, w'. split; [exact Hrun|]. split.
  - rewrite Hitems, !length_fmap, Hlen. vm_compute. reflexivity.
  - apply Htoken. vm_compute. lia.
Defined.

(** ** UserRepository.getByKycStatus *)





(** ** Lookups by Clerk id and by tag *)

Lemma first_of_page (rows : list (pkey * item)) :
  head (fromItem <$> (take 1 rows).*2) = fromItem <$> (snd <$> head rows).
Proof. by destruct rows as [|[k row] rows]. Qed.

(** The three lookups of the user repository ask their index for one
    row and return the entity of the first row of the partition. *)
Lemma lookup_runs (w : world) :
  next_ok w ->
  (forall c, exists w',
     getByClerkId c w
     = (Ok (fromItem <$> (snd <$> head (index_partition ATTRIBUTES.EXTERNAL_ID_KEY
                                          (clerk_index_value c) false (tbl w)))), w') /\
     tbl w' = tbl w) /\
  (forall t, exists w',
     getByClkkTag t w
     = (Ok (fromItem <$> (snd <$> head (index_partition ATTRIBUTES.CLKK_TAG_KEY
                                          (tag_index_value t) false (tbl w)))), w') /\
     tbl w' = tbl w) /\
  (forall m, exists w',
     getByEmail m w
     = (Ok (fromItem <$> (snd <$> head (index_partition ATTRIBUTES.EMAIL_KEY
                                          (email_index_value m) false (tbl w)))), w') /\
     tbl w' = tbl w).
Proof.
  intros Hnext.
  assert (forall indexName hash v,
            index_hash_key indexName = Some hash ->
            exists w',
              queryByIndex indexName (QUERY_BUILDERS.keyCondition hash v) limit_one w
              = (Ok (Page.mk (fromItem <$> (take 1 (index_partition hash v false (tbl w))).*2)
                       (createNextToken
                          (LastEvaluatedKey
                             (page_of hash v 1 (index_partition hash v false (tbl w)))))
                       (Count (page_of hash v 1 (index_partition hash v false (tbl w))))), w') /\
              tbl w' = tbl w) as Hpage.
  { intros indexName hash v Hidx.
    destruct (queryByIndex_run indexName hash v limit_one (Paging.mk 1 None) w)
      as (w' & Hq & _ & Htbl & _); [done|done|].
    cbn [Paging.Limit Paging.ExclusiveStartKey scanIndexForward default limit_one] in Hq.
    rewrite (run_query_index indexName) in Hq by done.
    cbn [mbind option_bind] in Hq. by exists w'. }
  split_and!.
  - intros c.
    destruct (Hpage INDEXES.EXTERNAL_ID ATTRIBUTES.EXTERNAL_ID_KEY (clerk_index_value c))
      as (w' & Hq & Htbl); [done|].
    unfold getByClerkId, try_catch, mbind at 1, M_bind at 1.
    change (tmpl (get_str (KEY_BUILDERS.userByClerkId (Some c)) ATTRIBUTES.EXTERNAL_ID_KEY))
      with (tmpl (get_str ({[ ATTRIBUTES.EXTERNAL_ID_KEY := JStr (clerk_index_value c) ]} : item)
                    ATTRIBUTES.EXTERNAL_ID_KEY)).
    unfold get_str. rewrite lookup_singleton_eq. cbn [tmpl]. rewrite Hq.
    cbn [mret M_ret Page.items]. rewrite first_of_page. by exists w'.
  - intros t.
    destruct (Hpage INDEXES.CLKK_TAG ATTRIBUTES.CLKK_TAG_KEY (tag_index_value t))
      as (w' & Hq & Htbl); [done|].
    unfold getByClkkTag, try_catch, mbind at 1, M_bind at 1, lift.
    cbn [KEY_BUILDERS.userByClkkTag].
    unfold mbind at 1, M_bind at 1.
    unfold get_str. rewrite lookup_singleton_eq. cbn [tmpl].
    fold (tag_index_value t). rewrite Hq.
    cbn [mret M_ret Page.items]. rewrite first_of_page. by exists w'.
  - intros m.
    destruct (Hpage INDEXES.EMAIL ATTRIBUTES.EMAIL_KEY (email_index_value m))
      as (w' & Hq & Htbl); [done|].
    unfold getByEmail, try_catch, mbind at 1, M_bind at 1, lift.
    cbn [KEY_BUILDERS.userByEmail].
    unfold mbind at 1, M_bind at 1.
    unfold get_str. rewrite lookup_singleton_eq. cbn [tmpl].
    fold (email_index_value m). rewrite Hq.
    cbn [mret M_ret Page.items]. rewrite first_of_page. by exists w'.
Qed.

Lemma toItem_clerk_key u it :
  toItem u = Ok it ->
  it !! ATTRIBUTES.EXTERNAL_ID_KEY = Some (JStr (clerk_index_value (tmpl (clerkId u)))).
Proof.
  unfold toItem. intros Hit.
  destruct (email u) as [m|]; [simpl in Hit|done].
  destruct (truthy_str (clkkTag u)).
  - destruct (clkkTag u); [simpl in Hit|done]. injection Hit as <-.
    rewrite !lookup_set_val_ne by done. unfold KEY_BUILDERS.userByClerkId.
    rewrite lookup_singleton_eq. apply lookup_set_val_eq.
  - injection Hit as <-. rewrite lookup_set_val_ne by done.
    unfold KEY_BUILDERS.userByClerkId.
    rewrite lookup_singleton_eq. apply lookup_set_val_eq.
Qed.

Lemma toItem_no_tag_key u it :
  toItem u = Ok it -> truthy_str (clkkTag u) = false ->
  it !! ATTRIBUTES.CLKK_TAG_KEY = None.
Proof.
  unfold toItem. intros Hit Ht.
  destruct (email u) as [m|]; [simpl in Hit|done]. rewrite Ht in Hit.
  injection Hit as <-. absent.
Qed.

(** What the row of a created entity is. *)
Lemma create_row now e w u w1 :
  create now e w = (Ok u, w1) ->
  exists it0 it,
    toItem u = Ok it0 /\ stored_item u = Ok it /\
    tbl w1 = <[user_key e := it]> (tbl w) /\
    (forall a, a ≠ ATTRIBUTES.CREATED_AT -> a ≠ ATTRIBUTES.UPDATED_AT ->
               a ≠ ATTRIBUTES.PARTITION_KEY -> a ≠ ATTRIBUTES.SORT_KEY ->
               it !! a = it0 !! a) /\
    fromItem it = stamp (createdAt u) (updatedAt u) (fromItem it0) /\
    clerkId u = clerkId e /\ clkkTag u = clkkTag e /\ email u = email e /\ id u = id e.
Proof.
  intros Hcreate.
  destruct (create_returned _ _ _ _ _ Hcreate) as (Hok & Hu & it & Hit & Htbl & _).
  unfold stored_item in Hit. destruct (toItem u) as [it0|] eqn:Hit0; [|done].
  simpl in Hit. injection Hit as <-. exists it0. eexists. split; [done|].
  split; [unfold stored_item; by rewrite Hit0|]. split; [done|]. split.
  - intros a ? ? ? ?. by apply lookup_stamped.
  - split; [by apply fromItem_stamped|]. by subst u.
Qed.

(** X14. After a create that returned, the lookup by the Clerk id of
    the entity returns the entity read from its row, and so does, for
    a tag of ASCII characters, the lookup by the tag in any spelling of
    its letters in upper and lower case, as long as no other row
    carries the same index key; an entity without a tag gets no tag
    index key at all. *)
Theorem create_then_lookups now e w u w1 :
  create now e w = (Ok u, w1) -> next_ok w1 ->
  exists it,
    stored_item u = Ok it /\ id (fromItem it) = id e /\
    (forall c, clerkId e = Some c ->
       (forall k row, tbl w !! k = Some row -> k ≠ user_key e ->
          str_attr_is row ATTRIBUTES.EXTERNAL_ID_KEY (clerk_index_value c) = false) ->
       (getByClerkId c w1).1 = Ok (Some (fromItem it))) /\
    (forall t probe, clkkTag e = Some t ->
       forallb_str is_ascii_chr t = true -> forallb_str is_ascii_chr probe = true ->
       toLowerCase probe = toLowerCase t ->
       (forall k row, tbl w !! k = Some row -> k ≠ user_key e ->
          str_attr_is row ATTRIBUTES.CLKK_TAG_KEY (tag_index_value t) = false) ->
       (getByClkkTag probe w1).1 = Ok (Some (fromItem it))) /\
    (clkkTag e = None -> it !! ATTRIBUTES.CLKK_TAG_KEY = None).
Proof.
  intros Hcreate Hnext.
  destruct (create_returned _ _ _ _ _ Hcreate) as (Hok & _).
  destruct (create_row _ _ _ _ _ Hcreate)
    as (it0 & it & Hit0 & Hit & Htbl & Hsame & Hfrom & Hc & Ht & Hm & Hi).
  destruct (lookup_runs w1 Hnext) as (Hclerk & Htag & _).
  pose proof (schema_ok_inv e Hok) as (_ & _ & _ & _ & _ & _ & _ & Hnonempty).
  exists it. split; [done|]. split.
  { rewrite Hfrom. simpl. rewrite <- Hi. by apply toItem_id. }
  assert (forall hash v,
            it !! hash = Some (JStr v) ->
            (forall k row, tbl w !! k = Some row -> k ≠ user_key e ->
               str_attr_is row hash v = false) ->
            index_partition hash v false (tbl w1) = [(user_key e, it)]) as Hone.
  { intros hash v Hattr Hothers. apply index_partition_one.
    - rewrite Htbl. apply lookup_insert_eq.
    - unfold str_attr_is. rewrite Hattr. apply String.eqb_refl.
    - intros k' row' Hrow' Hne. rewrite Htbl, lookup_insert_ne in Hrow' by done.
      by apply (Hothers k' row'). }
  split_and!.
  - intros c Hce Hothers. destruct (Hclerk c) as (w2 & -> & _).
    rewrite Hone; [done| |done].
    rewrite Hsame by done. rewrite (toItem_clerk_key u it0 Hit0). by rewrite Hc, Hce.
  - intros t probe Hte _ _ Hcase Hothers. destruct (Htag probe) as (w2 & -> & _).
    assert (tag_index_value probe = tag_index_value t) as ->
      by (unfold tag_index_value; by rewrite Hcase).
    rewrite Hone; [done| |done].
    rewrite Hsame by done. apply (toItem_tag_key u it0 t Hit0); [by rewrite Ht|].
    intros ->. by apply Hnonempty.
  - intros Hnone. rewrite Hsame by done.
    apply (toItem_no_tag_key u it0 Hit0). by rewrite Ht, Hnone.
Qed.

Lemma create_then_lookups_witness :
  exists it,
    stored_item (stamp (Some "2024-01-01T00:00:00.000Z") (Some "2024-01-01T00:00:00.000Z")
                   sample_user) = Ok it /\
    (getByClerkId "clerk_1" world_with_sample).1 = Ok (Some (fromItem it)) /\
    (getByClkkTag "ADA0042" world_with_sample).1 = Ok (Some (fromItem it)).
Proof.
  destruct (create_then_lookups "2024-01-01T00:00:00.000Z" sample_user (fresh ∅ [])
              (stamp (Some "2024-01-01T00:00:00.000Z") (Some "2024-01-01T00:00:00.000Z")
                 sample_user) world_with_sample)
    as (it & Hit & _ & Hclerk & Htag & _).
  - unfold world_with_sample.
    destruct (create "2024-01-01T00:00:00.000Z" sample_user (fresh ∅ [])) as [r w1] eqn:Hrun.
    assert (r = Ok (stamp (Some "2024-01-01T00:00:00.000Z")
                      (Some "2024-01-01T00:00:00.000Z") sample_user)) as ->; [|reflexivity].
    apply (f_equal fst) in Hrun. simpl in Hrun. rewrite <- Hrun. vm_compute. reflexivity.
  - vm_compute. reflexivity.
  - exists it. split; [exact Hit|]. split.
    + apply (Hclerk "clerk_1"); [reflexivity|]. intros k row Hrow. discriminate Hrow.
    + apply (Htag "ada0042" "ADA0042"); [reflexivity..|].
      intros k row Hrow. discriminate Hrow.
Defined.

(** ** create and the index keys of other rows *)

(** A create of a valid entity on a free key, when the service lets it
    through. *)
Lemma create_run now e w :
  schema_ok e = true -> next_ok w -> tbl w !! user_key e = None ->
  exists it w',
    create now e w = (Ok (stamp (Some now) (Some now) e), w') /\
    stored_item (stamp (Some now) (Some now) e) = Ok it /\
    tbl w' = <[user_key e := it]> (tbl w) /\
    script w' = tail (script w).
Proof.
  intros Hok Hnext Hfree.
  destruct (stored_item_valid (stamp (Some now) (Some now) e)) as [it Hit]; [done|].
  pose proof (stored_item_key _ _ Hit) as Hk.
  unfold create, try_catch, validate, mbind, M_bind. rewrite Hok. simpl.
  rewrite Hit. simpl. unfold sendPut. simpl.
  change (user_key (stamp (Some now) (Some now) e)) with (user_key e) in Hk.
  rewrite Hk, Hnext.
  unfold eval_condition, CONDITION_BUILDERS.attributeNotExists. simpl.
  rewrite lookup_singleton_eq. simpl. rewrite Hfree. simpl.
  exists it. by eexists.
Qed.

Lemma two_members {A} (l : list A) (x y : A) :
  x ∈ l -> y ∈ l -> x ≠ y -> (2 <= length l)%nat.
Proof.
  intros Hx Hy Hne. destruct l as [|a [|b l]]; simpl; [|exfalso|lia].
  - by apply elem_of_nil in Hx.
  - apply list_elem_of_singleton in Hx, Hy. congruence.
Qed.

Lemma index_partition_member (hash v : string) (forward : bool) (t : table)
    (k : pkey) (row : item) :
  t !! k = Some row -> str_attr_is row hash v = true ->
  (k, row) ∈ index_partition hash v forward t.
Proof.
  intros Hrow Hattr. unfold index_partition.
  assert ((k, row) ∈ filter (λ kv : pkey * item, str_attr_is kv.2 hash v = true)
                       (map_to_list t)) as Hin.
  { apply list_elem_of_filter. split; [done|]. by apply elem_of_map_to_list. }
  destruct forward; [done|]. by apply elem_of_reverse.
Qed.

(** X15. [create] guards the primary key and nothing else: a valid
    entity on a free key is created also when another row already
    carries the index key of its email. Afterwards the email partition
    of the index holds both rows, and [emailExists] answers true. *)
Theorem create_allows_shared_email now e w m k row :
  schema_ok e = true -> next_ok w -> tbl w !! user_key e = None ->
  email e = Some m ->
  tbl w !! k = Some row ->
  str_attr_is row ATTRIBUTES.EMAIL_KEY (email_index_value m) = true ->
  exists it w',
    create now e w = (Ok (stamp (Some now) (Some now) e), w') /\
    tbl w' !! user_key e = Some it /\
    tbl w' !! k = Some row /\
    (2 <= length (index_partition ATTRIBUTES.EMAIL_KEY (email_index_value m) false
                    (tbl w')))%nat /\
    (next_ok w' -> (emailExists m w').1 = Ok true).
Proof.
  intros Hok Hnext Hfree Hm Hrow Hattr.
  destruct (create_run now e w Hok Hnext Hfree) as (it & w' & Hcreate & Hit & Htbl & _).
  assert (k ≠ user_key e) as Hne by (intros ->; congruence).
  assert (tbl w' !! user_key e = Some it) as Hmine by (rewrite Htbl; apply lookup_insert_eq).
  assert (tbl w' !! k = Some row) as Hother by (by rewrite Htbl, lookup_insert_ne).
  assert (str_attr_is it ATTRIBUTES.EMAIL_KEY (email_index_value m) = true) as Hattr'.
  { unfold stored_item in Hit. rewrite toItem_stamp in Hit.
    destruct (toItem e) as [it0|] eqn:Hit0; [simpl in Hit|done]. injection Hit as <-.
    unfold str_attr_is. rewrite lookup_stamped by done.
    rewrite (toItem_email_key e it0 m Hit0 Hm). apply String.eqb_refl. }
  assert (2 <= length (index_partition ATTRIBUTES.EMAIL_KEY (email_index_value m) false
                         (tbl w')))%nat as Htwo.
  { apply (two_members _ (k, row) (user_key e, it)).
    - by apply index_partition_member.
    - by apply index_partition_member.
    - intros [= ? ?]. done. }
  exists it, w'. split_and!; [done..|].
  intros Hnext'. destruct (lookup_runs w' Hnext') as (_ & _ & Hemail).
  destruct (Hemail m) as (w'' & Hrun & _).
  assert (is_Some (fromItem <$> (snd <$> head (index_partition ATTRIBUTES.EMAIL_KEY
                                                 (email_index_value m) false (tbl w')))))
    as Hsome.
  { destruct (index_partition _ _ _ _) as [|[k0 r0] rest]; [simpl in Htwo; lia|by eexists]. }
  unfold emailExists, mbind, M_bind. rewrite Hrun. cbn [fst mret M_ret].
  by rewrite bool_decide_eq_true_2.
Qed.

Lemma create_allows_shared_email_witness :
  exists it w',
    create "2024-02-02T00:00:00.000Z" (numbered_user 2)
      (fresh {[ user_key (numbered_user 1)
                := {[ ATTRIBUTES.EMAIL_KEY := JStr "EMAIL#user@example.com" ]} ]} [])
      = (Ok (stamp (Some "2024-02-02T00:00:00.000Z") (Some "2024-02-02T00:00:00.000Z")
               (numbered_user 2)), w') /\
    tbl w' !! user_key (numbered_user 2) = Some it.
Proof.
  destruct (create_allows_shared_email "2024-02-02T00:00:00.000Z" (numbered_user 2)
              (fresh {[ user_key (numbered_user 1)
                        := {[ ATTRIBUTES.EMAIL_KEY := JStr "EMAIL#user@example.com" ]} ]} [])
              "user@example.com" (user_key (numbered_user 1))
              {[ ATTRIBUTES.EMAIL_KEY := JStr "EMAIL#user@example.com" ]})
    as (it & w' & Hrun & Hmine & _).
  - vm_compute. reflexivity.
  - reflexivity.
  - vm_compute. reflexivity.
  - reflexivity.
  - vm_compute. reflexivity.
  - vm_compute. reflexivity.
  - exists it, w'. split; [exact Hrun|exact Hmine].
Defined.

(** ** Paging through an index *)

Lemma parsePaginationParams_limit (p : PaginationParams) (pp : Paging.t) :
  parsePaginationParams p = Ok pp -> Paging.Limit pp = limit_or_20 (limit p).
Proof.
  unfold parsePaginationParams. destruct (truthy_str _); [|by intros [= <-]].
  destruct (JSON_parse _); [by intros [= <-]|done].
Qed.

(** The token of the marker of a row parses back to the marker. *)
Lemma marker_token (hash v : string) (k : pkey) (lim : option Z) :
  exists tok,
    createNextToken (Some (last_evaluated_key hash v k)) = Some tok /\
    truthy_str (Some tok) = true /\
    parsePaginationParams (mkPaginationParams lim (Some tok))
    = Ok (Paging.mk (limit_or_20 lim) (Some (last_evaluated_key hash v k))).
Proof.
  destruct (token_roundtrip_marker (marker_attrs hash v k) lim (marker_attrs_NoDup hash v k))
    as (tok & l & Htok & Hparse).
  exists tok. split; [done|].
  pose proof (parsePaginationParams_limit _ _ Hparse) as Hl. simpl in Hl. subst l.
  split; [|done]. unfold parsePaginationParams in Hparse. simpl in Hparse.
  destruct tok; [done|done].
Qed.

Lemma start_position_marker (hash v : string) (k : pkey) :
  start_position (last_evaluated_key hash v k) = Some k.
Proof.
  unfold last_evaluated_key, marker_attrs. destruct k as [p s].
  by destruct (is_key_attr hash).
Qed.

Lemma rows_after_lookup (rows : list (pkey * item)) : forall (i : nat) (k : pkey) (r : item),
  NoDup rows.*1 -> rows !! i = Some (k, r) ->
  rows_after k rows = Some (drop (S i) rows).
Proof.
  induction rows as [|[k0 r0] rows IH]; intros i k r Hnd Hi; [done|].
  apply NoDup_cons in Hnd as [Hnotin Hnd]. destruct i as [|i]; simpl in Hi |- *.
  - injection Hi as -> ->. by rewrite bool_decide_eq_true_2.
  - rewrite bool_decide_eq_false_2; [by apply (IH i k r)|].
    intros ->. apply Hnotin. apply list_elem_of_fmap. exists (k, r).
    split; [done|]. by eapply list_elem_of_lookup_2.
Qed.

Lemma last_take_drop {A} (l : list A) (c n : nat) :
  (1 <= n)%nat -> (c + n <= length l)%nat ->
  last (take n (drop c l)) = l !! (c + n - 1)%nat.
Proof.
  intros Hn Hlen. rewrite last_lookup, length_take, length_drop.
  replace (Init.Nat.pred (n `min` (length l - c))) with (n - 1)%nat by lia.
  rewrite lookup_take_lt by lia. rewrite lookup_drop. f_equal. lia.
Qed.

(** One page of the walk: the query at position [c] with a limit of
    [n] returns the next [n] rows, and a token for the position after
    them when it found [n] rows. *)
Lemma page_at (indexName hash v : string) (w : world) (c : nat) (tok : option string)
    (lim : Z) :
  index_hash_key indexName = Some hash -> next_ok w -> (1 <= lim)%Z ->
  let rows := index_partition hash v false (tbl w) in
  let n := Z.to_nat lim in
  at_position hash v rows c tok ->
  exists tok' w',
    queryByIndex indexName (QUERY_BUILDERS.keyCondition hash v)
      {| pagination := Some (mkPaginationParams (Some lim) tok);
         scanIndexForward := None |} w
    = (Ok (Page.mk (fromItem <$> (take n (drop c rows)).*2) tok'
             (Z.of_nat (length (take n (drop c rows))))), w') /\
    tbl w' = tbl w /\ script w' = tail (script w) /\
    (exists start,
       sent w' = sent w ++ [QueryCommand (index_query indexName hash v lim start false)] /\
       match c with
       | O => start = None
       | S _ => exists k r, rows !! (c - 1)%nat = Some (k, r) /\
                            start = Some (last_evaluated_key hash v k)
       end) /\
    (if decide (c + n <= length rows)%nat
     then at_position hash v rows (c + n) tok' /\ truthy_str tok' = true
     else tok' = None).
Proof.
  intros Hidx Hnext Hlim rows n Hpos.
  assert (limit_or_20 (Some lim) = lim) as Hlimit.
  { unfold limit_or_20. destruct (Z.eqb_spec lim 0); [lia|done]. }
  assert (exists start,
            parsePaginationParams (mkPaginationParams (Some lim) tok)
            = Ok (Paging.mk lim start) /\
            match start with
            | None => Some rows
            | Some k => pos ← start_position k; rows_after pos rows
            end = Some (drop c rows) /\
            match c with
            | O => start = None
            | S _ => exists k r, rows !! (c - 1)%nat = Some (k, r) /\
                                 start = Some (last_evaluated_key hash v k)
            end) as (start & Hpp & Hstart & Hkey).
  { destruct Hpos as [[-> ->]|(k & r & Hc & Hrow & ->)].
    - exists None. split; [by rewrite <- Hlimit at 2|done].
    - destruct (marker_token hash v k (Some lim)) as (t & -> & _ & Hparse).
      rewrite Hlimit in Hparse. exists (Some (last_evaluated_key hash v k)).
      split; [exact Hparse|]. cbv beta iota.
      rewrite start_position_marker. cbn [mbind option_bind].
      rewrite (rows_after_lookup rows (c - 1) k r);
        [|apply index_partition_NoDup|done].
      split; [do 2 f_equal; lia|]. destruct c; [lia|]. by exists k, r. }
  destruct (queryByIndex_run indexName hash v
              {| pagination := Some (mkPaginationParams (Some lim) tok);
                 scanIndexForward := None |} _ w Hpp Hnext)
    as (w' & Hq & Hsent & Htbl & Hscript).
  cbn [Paging.Limit Paging.ExclusiveStartKey scanIndexForward default] in Hq.
  rewrite (run_query_index indexName) in Hq by done. fold rows in Hq.
  rewrite Hstart in Hq. cbn [mbind option_bind] in Hq. fold n in Hq.
  eexists _, w'. split; [exact Hq|]. split; [done|]. split; [done|].
  split; [by exists start|].
  cbn [page_of LastEvaluatedKey]. rewrite length_drop.
  destruct (decide (c + n <= length rows)%nat) as [Hmore|Hend].
  - assert ((n <=? length rows - c)%nat = true) as -> by (apply Nat.leb_le; lia).
    rewrite last_take_drop by (unfold n; lia).
    destruct (lookup_lt_is_Some_2 rows (c + n - 1)) as [[k r] Hrow]; [lia|].
    rewrite Hrow. cbn [fmap option_fmap option_map fst].
    destruct (marker_token hash v k None) as (t & Ht & Htruthy & _).
    split; [|by rewrite Ht].
    right. exists k, r. split; [unfold n; lia|]. by split.
  - assert ((n <=? length rows - c)%nat = false) as -> by (apply Nat.leb_gt; lia). done.
Qed.

Lemma entities_take_app (rows : list (pkey * item)) (c n : nat) :
  (fromItem <$> (take c rows).*2) ++ (fromItem <$> (take n (drop c rows)).*2)
  = fromItem <$> (take (c + n) rows).*2.
Proof. by rewrite <- !fmap_app, take_take_drop. Qed.

(** The loop of [queryAllPages] from position [c] on: with no fault of
    the service and fuel for the rows that are left, it ends with the
    entities of the first [maxItems] rows of the partition, and these
    are the queries it sends. *)
Lemma queryAllPages_loop_run (indexName hash v : string) (maxItems : Z) (fuel : nat) :
  forall (c : nat) (tok : option string) (w : world),
  index_hash_key indexName = Some hash -> no_faults w ->
  let rows := index_partition hash v false (tbl w) in
  at_position hash v rows c tok ->
  (c <= length rows)%nat -> (Z.of_nat c < maxItems)%Z ->
  (length rows - c < fuel)%nat ->
  exists w' qs,
    queryAllPages_loop fuel indexName (QUERY_BUILDERS.keyCondition hash v) maxItems
      (fromItem <$> (take c rows).*2) tok w
    = (Ok (Some (fromItem <$> (take (Z.to_nat maxItems) rows).*2)), w') /\
    tbl w' = tbl w /\
    sent w' = sent w ++ (QueryCommand <$> qs) /\
    length qs = pages_from maxItems (length rows) c /\
    forall i q, qs !! i = Some q ->
      (Z.of_nat (c + 100 * i) < maxItems)%Z /\
      IndexName q = indexName /\
      Limit q = Z.min 100 (maxItems - Z.of_nat (c + 100 * i)) /\
      match (c + 100 * i)%nat with
      | O => ExclusiveStartKey q = None
      | S p => exists k r, rows !! p = Some (k, r) /\
                           ExclusiveStartKey q = Some (last_evaluated_key hash v k)
      end.
Proof.
  induction fuel as [|fuel IH]; intros c tok w Hidx Hnf rows Hpos Hc Hmax Hfuel; [lia|].
  assert (next_ok w) as Hnext by by apply no_faults_next_ok.
  assert (length (fromItem <$> (take c rows).*2) = c) as Hlen
    by (rewrite !length_fmap, length_take; lia).
  set (lim := Z.min 100 (maxItems - Z.of_nat c)).
  assert (1 <= lim)%Z as Hlim by (unfold lim; lia).
  destruct (page_at indexName hash v w c tok lim Hidx Hnext Hlim Hpos)
    as (tok' & w1 & Hq & Htbl & Hscript & (start & Hsent & Hstart) & Hnextpos).
  fold rows in Hq, Hnextpos, Hstart. set (n := Z.to_nat lim) in *.
  set (q := index_query indexName hash v lim start false) in *.
  assert (forall i q', [q] !! i = Some q' ->
            (Z.of_nat (c + 100 * i) < maxItems)%Z /\
            IndexName q' = indexName /\
            Limit q' = Z.min 100 (maxItems - Z.of_nat (c + 100 * i)) /\
            match (c + 100 * i)%nat with
            | O => ExclusiveStartKey q' = None
            | S p => exists k r, rows !! p = Some (k, r) /\
                                 ExclusiveStartKey q' = Some (last_evaluated_key hash v k)
            end) as Honly.
  { intros [|i] q' Hq'; [|done]. injection Hq' as <-.
    rewrite Nat.mul_0_r, Nat.add_0_r. split_and!; [done|done|done|].
    destruct c as [|p]; [done|]. by rewrite Nat.sub_1_r in Hstart. }
  cbn [queryAllPages_loop]. rewrite Hlen. fold lim.
  unfold mbind at 1, M_bind at 1. rewrite Hq. cbn [Page.items Page.nextToken].
  rewrite entities_take_app.
  assert (length (fromItem <$> (take (c + n) rows).*2) = (c + n) `min` length rows)%nat
    as Hlen' by (by rewrite !length_fmap, length_take).
  rewrite Hlen'.
  destruct (Z.leb_spec maxItems (Z.of_nat ((c + n) `min` length rows))) as [Hfull|Hless].
  - exists w1, [q]. split_and!; [|done|done| |done].
    + replace (c + n)%nat with (Z.to_nat maxItems) by (unfold n, lim in *; lia). done.
    + unfold pages_from. destruct (Z.leb_spec maxItems (Z.of_nat (length rows))); [|lia].
      cbn [length].
      apply (Nat.div_unique _ 100 1 (Z.to_nat maxItems - c - 1)); unfold n, lim in *; lia.
  - destruct (decide (c + n <= length rows)%nat) as [Hmore|Hend].
    + destruct Hnextpos as [Hpos' Htruthy]. rewrite Htruthy.
      assert (n = 100%nat) as Hn by (unfold n, lim in *; lia).
      assert (no_faults w1) as Hnf1.
      { unfold no_faults. rewrite Hscript. by apply Forall_tail. }
      destruct (IH (c + n)%nat tok' w1 Hidx Hnf1) as (w' & qs & Hrun & Htbl' & Hsent' & Hcount & Hqs).
      * by rewrite Htbl.
      * rewrite Htbl. fold rows. lia.
      * lia.
      * rewrite Htbl. fold rows. unfold n in *. lia.
      * rewrite Htbl in Hrun, Hcount, Hqs. fold rows in Hrun, Hcount, Hqs.
        exists w', (q :: qs). split_and!; [done|congruence| | |].
        -- rewrite Hsent', Hsent. by rewrite <- app_assoc.
        -- cbn [length]. rewrite Hcount, Hn. unfold pages_from.
           destruct (Z.leb_spec maxItems (Z.of_nat (length rows))).
           ++ replace (Z.to_nat maxItems - c + 99)%nat
                with (1 * 100 + (Z.to_nat maxItems - (c + 100) + 99))%nat by lia.
              by rewrite Nat.div_add_l by lia.
           ++ replace (length rows - c)%nat
                with (1 * 100 + (length rows - (c + 100)))%nat by lia.
              rewrite Nat.div_add_l by lia. lia.
        -- intros [|i] q' Hq'; [by apply (Honly 0%nat)|].
           cbn [lookup list_lookup] in Hq'. fold (qs !! i) in Hq'.
           specialize (Hqs i q' Hq'). rewrite Hn in Hqs.
           by replace (c + 100 * S i)%nat with (c + 100 + 100 * i)%nat by lia.
    + subst tok'. cbn [truthy_str]. exists w1, [q]. split_and!; [|done|done| |done].
      * rewrite !take_ge by lia. done.
      * unfold pages_from. destruct (Z.leb_spec maxItems (Z.of_nat (length rows))); [lia|].
        cbn [length]. rewrite Nat.div_small; [done|]. unfold n, lim in *. lia.
Qed.

(** X16. [queryAllPages] on one of the three lookup indexes of the
    users (called without sort-key condition and filter) walks the rows
    of the table that carry the index key asked for, page by page. Each
    query asks for at most 100 rows and for no more than are still
    wanted; the first has no start key, and every later one starts
    after the last row of the page before. When the service fails no
    request, the walk comes to its end (fuel above the number of such
    rows is enough): it returns the entities of [maxItems] of these
    rows, or of all of them when there are fewer, each row once, after
    ceil(maxItems / 100) queries in the first case and after one query
    more than there are full hundreds of rows in the second; [maxItems]
    is 1000 when none or 0 is given. The table is not touched. *)
Theorem queryAllPages_complete (indexName hash v : string) (maxItems : option Z)
    (fuel : nat) (w : world) :
  index_hash_key indexName = Some hash ->
  hash ∈ [ATTRIBUTES.EXTERNAL_ID_KEY; ATTRIBUTES.EMAIL_KEY; ATTRIBUTES.CLKK_TAG_KEY] ->
  no_faults w ->
  (1 <= maxItems_or_1000 maxItems)%Z ->
  (length (index_partition hash v false (tbl w)) < fuel)%nat ->
  let wanted := maxItems_or_1000 maxItems in
  let size := length (index_partition hash v false (tbl w)) in
  exists w' rows qs,
    queryAllPages fuel indexName (QUERY_BUILDERS.keyCondition hash v) maxItems w
    = (Ok (Some (fromItem <$> rows.*2)), w') /\
    tbl w' = tbl w /\
    NoDup rows.*1 /\
    (forall k row, (k, row) ∈ rows ->
       tbl w !! k = Some row /\ str_attr_is row hash v = true) /\
    length rows = (Z.to_nat wanted `min` size)%nat /\
    sent w' = sent w ++ (QueryCommand <$> qs) /\
    length qs = (if (wanted <=? Z.of_nat size)%Z
                 then (Z.to_nat wanted + 99) / 100 else size / 100 + 1)%nat /\
    forall i q, qs !! i = Some q ->
      IndexName q = indexName /\
      Limit q = Z.min 100 (wanted - 100 * Z.of_nat i) /\
      match i with
      | O => ExclusiveStartKey q = None
      | S _ => exists k row, rows !! (100 * i - 1)%nat = Some (k, row) /\
                             ExclusiveStartKey q = Some (last_evaluated_key hash v k)
      end.
Proof.
  intros Hidx _ Hnf Hmax Hfuel wanted size.
  set (all := index_partition hash v false (tbl w)) in *.
  destruct (queryAllPages_loop_run indexName hash v wanted fuel 0 None w Hidx Hnf)
    as (w' & qs & Hrun & Htbl & Hsent & Hcount & Hqs);
    [by left|lia|lia|fold all; lia|].
  fold all in Hrun, Hcount, Hqs.
  rewrite take_0 in Hrun. cbn [fmap list_fmap] in Hrun.
  exists w', (take (Z.to_nat wanted) all), qs. split_and!.
  - unfold queryAllPages. fold (maxItems_or_1000 maxItems). fold wanted.
    unfold mbind at 1, M_bind at 1. rewrite Hrun.
    cbn [mret M_ret fmap option_fmap option_map].
    unfold slice0. destruct (Z.ltb_spec wanted 0); [lia|].
    rewrite take_ge; [done|]. rewrite !length_fmap, length_take. lia.
  - done.
  - apply (sublist_NoDup _ all.*1); [apply index_partition_NoDup|].
    apply fmap_sublist, sublist_take.
  - intros k row Hin. apply (index_partition_elem hash v false).
    by apply (subseteq_take (Z.to_nat wanted) all).
  - by rewrite length_take.
  - done.
  - rewrite Hcount. unfold pages_from. fold size. by rewrite !Nat.sub_0_r.
  - intros i q Hq. destruct (Hqs i q Hq) as (Hbelow & Hname & Hlimit & Hstart).
    rewrite Nat.add_0_l in Hbelow, Hlimit, Hstart.
    split; [done|]. split; [rewrite Hlimit; f_equal; lia|].
    destruct i as [|i]; [done|].
    destruct (100 * S i)%nat as [|p] eqn:Hp; [lia|].
    destruct Hstart as (k & r & Hrow & Hkey). exists k, r. split; [|done].
    rewrite Nat.sub_1_r. cbn [Nat.pred]. rewrite lookup_take_lt by lia. done.
Qed.

(** 120 rows with the same email key and 150 rows wanted: a first query
    for 100 rows, a second for 50 that finds the 20 that are left, and
    the 120 entities. *)
Lemma queryAllPages_complete_witness :
  exists w' (rows : list (pkey * item)) qs,
    queryAllPages 121 INDEXES.EMAIL
      (QUERY_BUILDERS.keyCondition ATTRIBUTES.EMAIL_KEY "EMAIL#a@b.c") (Some 150%Z)
      (fresh (shared_email_table 120) [])
    = (Ok (Some (fromItem <$> rows.*2)), w') /\
    length rows = 120%nat /\
    sent w' = QueryCommand <$> qs /\
    Limit <$> qs = [100%Z; 50%Z].
Proof.
  destruct (queryAllPages_complete INDEXES.EMAIL ATTRIBUTES.EMAIL_KEY "EMAIL#a@b.c"
              (Some 150%Z) 121 (fresh (shared_email_table 120) []))
    as (w' & rows & qs & Hrun & _ & _ & _ & Hlen & Hsent & Hcount & Hqs).
  - reflexivity.
  - set_solver.
  - constructor.
  - simpl. lia.
  - vm_compute. lia.
  - exists w', rows, qs. split; [exact Hrun|]. split.
    { rewrite Hlen. vm_compute. reflexivity. }
    split; [exact Hsent|].
    assert (length qs = 2%nat) as Htwo by (rewrite Hcount; vm_compute; reflexivity).
    destruct qs as [|q0 [|q1 [|q2 qs]]]; try discriminate Htwo.
    cbn [fmap list_fmap].
    destruct (Hqs 0%nat q0 eq_refl) as (_ & -> & _).
    destruct (Hqs 1%nat q1 eq_refl) as (_ & -> & _).
    reflexivity.
Defined.

(** ** The key builders of the two layers *)

(** X17. The key builders of the common layer ([TableKeys]) and of the
    constants layer ([KEY_BUILDERS]) build the same keys for the same
    arguments, and fail on the same arguments. *)
Theorem TableKeys_agree (a b c : option string) :
  TableKeys.user a = KEY_BUILDERS.user a /\
  TableKeys.userByClerkId a = KEY_BUILDERS.userByClerkId a /\
  TableKeys.userByEmail a = KEY_BUILDERS.userByEmail a /\
  TableKeys.userByClkkTag a = KEY_BUILDERS.userByClkkTag a /\
  TableKeys.wallet a b = KEY_BUILDERS'.wallet a b /\
  TableKeys.transaction a b c = KEY_BUILDERS'.transaction a b c /\
  TableKeys.kycDocument a b = KEY_BUILDERS'.kycDocument a b.
Proof. by split_and!. Qed.

(** X18. The rows of the entities of one user share the partition of
    the user and lie at different sort keys: the key of the user row,
    of a wallet, of a transaction and of a KYC document of the same
    user agree on PK and differ pairwise on SK, whatever the ids. *)
Theorem entity_keys_apart (userId x y z t : option string) :
  exists p s1 s2 s3 s4,
    key_of (KEY_BUILDERS.user userId) = Some (p, s1) /\
    key_of (KEY_BUILDERS'.wallet userId x) = Some (p, s2) /\
    key_of (KEY_BUILDERS'.transaction userId t y) = Some (p, s3) /\
    key_of (KEY_BUILDERS'.kycDocument userId z) = Some (p, s4) /\
    s1 ≠ s2 /\ s1 ≠ s3 /\ s1 ≠ s4 /\ s2 ≠ s3 /\ s2 ≠ s4 /\ s3 ≠ s4.
Proof.
  eexists _, _, _, _, _. split_and!; [reflexivity..| | | | | |]; discriminate.
Qed.

(** ** buildUpdateExpression of the common layer *)

Lemma concat_snoc (e : string) (exprs : list string) (z : string) :
  String.concat ", " (e :: exprs) +:+ ", " +:+ z = String.concat ", " ((e :: exprs) ++ [z]).
Proof.
  revert e. induction exprs as [|e' exprs IH]; intros e; [done|].
  change (String.concat ", " (e :: e' :: exprs))
    with (e +:+ ", " +:+ String.concat ", " (e' :: exprs)).
  change (String.concat ", " ((e :: e' :: exprs) ++ [z]))
    with (e +:+ ", " +:+ String.concat ", " ((e' :: exprs) ++ [z])).
  rewrite <- IH. by rewrite !append_assoc.
Qed.

Lemma name_placeholder_not_updatedAt i : name_placeholder i ≠ "#updatedAt".
Proof. discriminate. Qed.

Lemma value_placeholder_not_updatedAt i : value_placeholder i ≠ ":updatedAt".
Proof. discriminate. Qed.

(** X19. [buildUpdateExpression] on an object with at least one value
    gives a SET expression whose actions are the entries that have a
    value, in their order, followed by updatedAt with the time of the
    call; on an object without any value it gives the text
    [SET , #updatedAt = :updatedAt], which is no update expression. *)
Theorem buildUpdateExpression_actions (updates : list (string * option json))
    (now : string) :
  (defined_entries updates ≠ [] ->
   resolved_actions (buildUpdateExpression updates now)
   = Some (defined_entries updates ++ [(ATTRIBUTES.UPDATED_AT, JStr now)])) /\
  (defined_entries updates = [] ->
   UpdateExpression (buildUpdateExpression updates now) = "SET , #updatedAt = :updatedAt" /\
   resolved_actions (buildUpdateExpression updates now) = None).
Proof.
  unfold resolved_actions, buildUpdateExpression.
  cbv zeta. cbn [UpdateExpression ExpressionAttributeNames ExpressionAttributeValues].
  set (acc := set_entries updates 0 (mkSetAcc [] ∅ ∅)).
  set (l := defined_from updates 0).
  assert (expressions acc = set_action <$> l.*1) as Hexprs.
  { unfold acc, l. by rewrite set_entries_expressions. }
  assert (defined_entries updates = l.*2) as Hdef.
  { unfold l. by rewrite defined_from_entries. }
  rewrite Hexprs, Hdef. split.
  - intros Hne. destruct l as [|[i [key val]] l'] eqn:Hl; [done|]. rewrite <- Hl.
    assert (exists e rest, l.*1 = e :: rest) as (e & rest & Hix)
      by (rewrite Hl; by eexists _, _).
    rewrite Hix.
    change ("SET " +:+ String.concat ", " (set_action <$> e :: rest)
            +:+ ", #updatedAt = :updatedAt")
      with ("SET " +:+ (String.concat ", " (set_action e :: (set_action <$> rest))
                        +:+ ", " +:+ "#updatedAt = :updatedAt")).
    rewrite concat_snoc. unfold parse_update_expression.
    change (strip_prefix "SET " ("SET " +:+ ?s)) with (Some s).
    cbn [mbind option_bind]. cbn [app]. rewrite split_concat.
    2: { apply Forall_cons_2; [apply set_action_free|].
         apply Forall_app. split; [|by repeat constructor].
         apply Forall_fmap, Forall_forall. intros j _. apply set_action_free. }
    rewrite map_app. cbn [map].
    assert (mapM parse_action
              (set_action e :: map (String " ") (set_action <$> rest)
                 ++ [String " " "#updatedAt = :updatedAt"])
            = Some (((λ i, (name_placeholder i, value_placeholder i)) <$> (e :: rest))
                      ++ [("#updatedAt", ":updatedAt")])) as ->.
    { apply mapM_Some. rewrite app_comm_cons. apply Forall2_app.
      - apply mapM_Some. apply parse_actions.
      - by repeat constructor. }
    cbn [mbind option_bind]. rewrite <- Hix.
    apply mapM_Some. apply Forall2_app.
    + apply mapM_Some. apply resolve_actions. intros j key' v' Hin.
      rewrite !lookup_insert_ne
        by (apply not_eq_sym; first [apply name_placeholder_not_updatedAt
                                    |apply value_placeholder_not_updatedAt]).
      unfold l in Hin. by apply set_entries_binds.
    + repeat constructor. unfold resolve_action. cbn [fst snd].
      by rewrite !lookup_insert_eq.
  - intros Hnil. assert (l.*1 = []) as -> by (by destruct l).
    split; by vm_compute.
Qed.

Lemma buildUpdateExpression_actions_witness :
  resolved_actions (buildUpdateExpression sample_updates "2024-03-03T00:00:00.000Z")
  = Some [("firstName", JStr "Al"); ("updatedAt", JStr "2024-03-03T00:00:00.000Z")].
Proof.
  apply (proj1 (buildUpdateExpression_actions sample_updates "2024-03-03T00:00:00.000Z")).
  discriminate.
Defined.

(** ** withRetry *)

Lemma doubling_S (b : Z) (n : nat) :
  doubling b (S n) = doubling b n ++ [(b * 2 ^ Z.of_nat n)%Z].
Proof. unfold doubling. by rewrite seq_S, fmap_app. Qed.

(** The rounds that fail: each one records the error and, unless it is
    the last round there can be, awaits its timer. *)
Lemma withRetry_from_failures {A} (fn : M A) (b : Z) (k : nat) :
  forall (rounds i : nat) (lastError : option error) (w w1 : world) (last : option error),
  run_failures fn k w = Some (w1, last) ->
  (k <= rounds)%nat ->
  withRetry_from fn (Z.of_nat (i + rounds)) b rounds (Z.of_nat i) lastError
    (doubling b (i `min` (i + rounds - 1))) w
  = withRetry_from fn (Z.of_nat (i + rounds)) b (rounds - k) (Z.of_nat (i + k))
      (match last with Some e => Some e | None => lastError end)
      (doubling b ((i + k) `min` (i + rounds - 1))) w1.
Proof.
  induction k as [|k IH]; intros rounds i lastError w w1 last Hrun Hk.
  - injection Hrun as <- <-. by rewrite Nat.sub_0_r, Nat.add_0_r.
  - destruct rounds as [|rounds]; [lia|]. cbn [run_failures] in Hrun.
    cbn [withRetry_from]. destruct (fn w) as [[a|e] w'] eqn:Hfn; [done|].
    destruct (run_failures fn k w') as [[w2 last']|] eqn:Hrest; [|done].
    assert (w2 = w1 /\ last = Some (default e last')) as [-> ->]
      by (destruct last'; by injection Hrun as <- <-).
    replace (Z.of_nat (i + S rounds)) with (Z.of_nat (S i + rounds)) by lia.
    replace (Z.of_nat i + 1)%Z with (Z.of_nat (S i)) by lia.
    replace (S rounds - S k)%nat with (rounds - k)%nat by lia.
    replace (i + S k)%nat with (S i + k)%nat by lia.
    replace (i + S rounds - 1)%nat with (S i + rounds - 1)%nat by lia.
    assert ((if (Z.of_nat i <? Z.of_nat (S i + rounds) - 1)%Z
             then doubling b (i `min` (S i + rounds - 1))
                  ++ [(b * 2 ^ Z.of_nat i)%Z]
             else doubling b (i `min` (S i + rounds - 1)))
            = doubling b (S i `min` (S i + rounds - 1))) as ->.
    { destruct (Z.ltb_spec (Z.of_nat i) (Z.of_nat (S i + rounds) - 1)).
      - replace (i `min` (S i + rounds - 1))%nat with i by lia.
        replace (S i `min` (S i + rounds - 1))%nat with (S i) by lia.
        by rewrite doubling_S.
      - f_equal. lia. }
    rewrite (IH rounds (S i) (Some e) w' w1 last') by (done || lia).
    by destruct last'.
Qed.

(** X20. [withRetry] calls [fn] until it returns, at most [maxRetries]
    times (3 unless given), and between two calls it waits: first
    [backoffMs] (100 ms unless given), then twice as long each time.
    When [fn] throws k times in a row and then returns, with k below
    [maxRetries], [withRetry] returns that value after k waits. When
    [fn] throws [maxRetries] times in a row, [withRetry] throws the
    error of the last call and has waited [maxRetries] - 1 times, not
    after the last call. With [maxRetries] of zero or less it throws
    undefined without calling [fn]. *)
Theorem withRetry_attempts {A} (fn : M A) (maxRetries backoffMs : option Z) (w : world) :
  let most := default 3%Z maxRetries in
  let b := default 100%Z backoffMs in
  (forall k w1 last a w2,
     run_failures fn k w = Some (w1, last) -> fn w1 = (Ok a, w2) ->
     (Z.of_nat k < most)%Z ->
     withRetry fn maxRetries backoffMs w = (Returned a, doubling b k, w2)) /\
  (forall w1 last,
     (1 <= most)%Z -> run_failures fn (Z.to_nat most) w = Some (w1, last) ->
     withRetry fn maxRetries backoffMs w
     = (Thrown last, doubling b (Z.to_nat most - 1), w1) /\ is_Some last) /\
  ((most <= 0)%Z -> withRetry fn maxRetries backoffMs w = (Thrown None, [], w)).
Proof.
  intros most b. unfold withRetry. fold most b. split_and!.
  - intros k w1 last a w2 Hrun Hfn Hk.
    pose proof (withRetry_from_failures fn b k (Z.to_nat most) 0 None w w1 last Hrun)
      as Hskip.
    rewrite Nat.add_0_l, Z2Nat.id in Hskip by lia.
    change (doubling b (0 `min` _)) with (@nil Z) in Hskip.
    change (Z.of_nat 0) with 0%Z in Hskip.
    rewrite Hskip by lia.
    destruct (Z.to_nat most - k)%nat as [|rounds] eqn:Hleft; [lia|].
    cbn [withRetry_from]. rewrite Hfn. do 2 f_equal. f_equal. lia.
  - intros w1 last Hmost Hrun.
    pose proof (withRetry_from_failures fn b (Z.to_nat most) (Z.to_nat most) 0 None
                  w w1 last Hrun) as Hskip.
    rewrite Nat.add_0_l, Z2Nat.id in Hskip by lia.
    change (doubling b (0 `min` _)) with (@nil Z) in Hskip.
    change (Z.of_nat 0) with 0%Z in Hskip.
    rewrite Hskip by lia. rewrite Nat.sub_diag. cbn [withRetry_from].
    assert (is_Some last) as [e ->].
    { destruct (Z.to_nat most) as [|k] eqn:Hk; [lia|]. cbn [run_failures] in Hrun.
      destruct (fn w) as [[?|e] w']; [done|].
      destruct (run_failures fn k w') as [[w2 [e'|]]|]; [| |done];
        injection Hrun as <- <-; by eexists. }
    split; [|by eexists]. do 2 f_equal. f_equal. lia.
  - intros Hmost. by replace (Z.to_nat most) with 0%nat by lia.
Qed.

Lemma withRetry_attempts_witness :
  withRetry (getByKey (getPrimaryKey sample_user)) None None (fresh ∅ timeout_once)
  = (Returned None, [100%Z],
     (getByKey (getPrimaryKey sample_user)
        (getByKey (getPrimaryKey sample_user) (fresh ∅ timeout_once)).2).2).
Proof.
  apply (proj1 (withRetry_attempts (getByKey (getPrimaryKey sample_user)) None None
                  (fresh ∅ timeout_once))
           1%nat (getByKey (getPrimaryKey sample_user) (fresh ∅ timeout_once)).2
           (Some (SdkError (Transient RequestTimeout)))).
  - reflexivity.
  - reflexivity.
  - simpl. lia.
Defined.

(** ** UserRepository.getByIds *)

Lemma id_key_inj : Inj (=) (=) id_key.
Proof. intros i j H. by injection H. Qed.

Lemma keys_of_ids (ids : list string) :
  mapM key_of ((λ i, KEY_BUILDERS.user (Some i)) <$> ids) = Some (id_key <$> ids).
Proof.
  apply mapM_Some. induction ids as [|i ids IH]; [constructor|].
  rewrite !fmap_cons. by constructor.
Qed.

(** X21. [getByIds] of the empty list returns the empty list without a
    request. It does not remove repeated ids: a list of at most 100 ids
    in which one occurs twice goes out as one batch, the service
    refuses it, and the ValidationException is logged and thrown on;
    the table is not touched. For ids without repetition, on a service
    that fails no request and leaves no key unprocessed, it returns the
    users of the ids that have a row, each once, in the order in which
    the service answers, and passes over the ids that have none. *)
Theorem getByIds_cases (ids : list string) (w : world) :
  (ids = [] -> getByIds ids w = (Ok [], w)) /\
  (ids ≠ [] -> (length ids <= 100)%nat -> ¬ NoDup ids -> next_ok w ->
   exists w',
     getByIds ids w = (Err (SdkError ValidationException), w') /\
     tbl w' = tbl w /\
     sent w' = sent w ++ [BatchGetCommand ((λ i, KEY_BUILDERS.user (Some i)) <$> ids)] /\
     logged w' = logged w ++ ["error: Failed to batch get items";
                              "error: Failed to get users by IDs"]) /\
  (NoDup ids -> no_faults w -> all_processed w ->
   exists r w',
     getByIds ids w = (Ok r, w') /\
     r ≡ₚ fromItem <$> omap (λ i, tbl w !! id_key i) ids /\
     tbl w' = tbl w).
Proof.
  set (keys := (λ i, KEY_BUILDERS.user (Some i)) <$> ids).
  pose proof (keys_of_ids ids) as Hks. fold keys in Hks. split_and!.
  - by intros ->.
  - intros Hne Hlen Hdup Hnext.
    assert (chunkArray keys 100 = [keys]) as Hchunks.
    { unfold chunkArray. assert (length keys = length ids) as Hl by apply length_fmap.
      destruct keys as [|key keys']; [by destruct ids|].
      change (length (key :: keys')) with (S (length keys')).
      rewrite chunk_from_more by (simpl; lia).
      rewrite chunk_from_done by (simpl in *; lia).
      rewrite drop_0, take_ge by (simpl in *; lia). done. }
    assert (batch_keys 100 keys = None) as Hbatch.
    { destruct (batch_keys 100 keys) as [ks|] eqn:Hb; [|done].
      apply batch_keys_inv in Hb as (Hks' & _ & Hnd). rewrite Hks in Hks'.
      injection Hks' as <-. destruct Hdup. by apply (NoDup_fmap_1 id_key). }
    destruct ids as [|i ids']; [done|]. fold keys.
    unfold getByIds, batchGet, try_catch. fold keys. rewrite Hchunks.
    cbn [batchGet_chunks]. unfold mbind at 1, M_bind at 1, sendBatchGet. simpl.
    unfold next_ok in Hnext. rewrite Hnext, Hbatch. simpl.
    eexists. split; [reflexivity|]. simpl. split; [done|]. split; [done|].
    by rewrite <- app_assoc.
  - intros Hnd Hnf Hall. destruct ids as [|i ids']; [by exists [], w|].
    assert (NoDup (id_key <$> i :: ids')) as Hndk.
    { pose proof id_key_inj as Hinj. by apply (NoDup_fmap_2 id_key). }
    destruct (batchGet_chunks_run (chunkArray keys 100) [] w Hnf)
      as (r & w1 & Hrun & _ & Htbl & _ & Hr & _).
    { by apply (chunks_are_batches 100 keys (id_key <$> i :: ids')); [lia| |]. }
    rewrite processed_all in Hr by done.
    destruct (chunkArray_spec keys 100) as (Hcat & _); [lia|].
    rewrite Hcat in Hr. rewrite app_nil_l in Hr.
    rewrite (omap_row_at (tbl w) keys _ Hks) in Hr.
    unfold getByIds, batchGet, try_catch. fold keys. rewrite Hrun.
    exists r, w1. split; [done|]. split; [|done]. rewrite Hr.
    assert (omap (tbl w !!.) (id_key <$> i :: ids')
            = omap (λ j, tbl w !! id_key j) (i :: ids')) as ->; [|done].
    clear. induction (i :: ids') as [|j l IH]; [done|].
    rewrite fmap_cons. cbn [omap list_omap]. by rewrite IH.
Qed.

Lemma getByIds_cases_witness :
  (exists w',
     getByIds ["u1"; "u2"; "u1"] (fresh ∅ [])
     = (Err (SdkError ValidationException), w') /\
     tbl w' = ∅) /\
  (exists r w',
     getByIds ["u1"; "u9"] world_with_sample = (Ok r, w') /\
     length r = 1%nat).
Proof.
  split.
  - destruct (proj1 (proj2 (getByIds_cases ["u1"; "u2"; "u1"] (fresh ∅ []))))
      as (w' & Hrun & Htbl & _).
    + discriminate.
    + simpl. lia.
    + intros Hnd. apply NoDup_cons in Hnd as [Hnotin _]. apply Hnotin. right. left.
    + reflexivity.
    + exists w'. split; [exact Hrun|exact Htbl].
  - destruct (proj2 (proj2 (getByIds_cases ["u1"; "u9"] world_with_sample)))
      as (r & w' & Hrun & Hr & _).
    + apply (bool_decide_eq_true_1 (NoDup ["u1"; "u9"])). reflexivity.
    + constructor.
    + constructor.
    + exists r, w'. split; [exact Hrun|].
      rewrite (Permutation_length Hr). vm_compute. reflexivity.
Defined.

(** ** Generated tags *)

Lemma length_toLowerCase (s : string) : String.length (toLowerCase s) = String.length s.
Proof. induction s as [|c s IH]; [done|]. simpl. by rewrite IH. Qed.

Lemma lower_ascii_idem (c : ascii) : lower_ascii (lower_ascii c) = lower_ascii c.
Proof. by destruct c as [[] [] [] [] [] [] [] []]. Qed.

Lemma toLowerCase_idem (s : string) : toLowerCase (toLowerCase s) = toLowerCase s.
Proof. induction s as [|c s IH]; [done|]. simpl. by rewrite lower_ascii_idem, IH. Qed.

Lemma toLowerCase_app (s t : string) :
  toLowerCase (s +:+ t) = toLowerCase s +:+ toLowerCase t.
Proof. induction s as [|c s IH]; [done|]. rewrite append_cons. simpl. by rewrite IH. Qed.

Lemma length_repeat_chr (n : nat) (c : ascii) : String.length (repeat_chr n c) = n.
Proof. induction n as [|n IH]; [done|]. simpl. by rewrite IH. Qed.

Lemma length_padStart (n : nat) (c : ascii) (s : string) :
  String.length (padStart n c s) = (n `max` String.length s)%nat.
Proof. unfold padStart. rewrite length_append, length_repeat_chr. lia. Qed.

Lemma length_pretty_N_go (n : nat) : forall (x : N) (s : string),
  (x < 10 ^ N.of_nat n)%N ->
  (String.length (pretty_N_go x s) <= String.length s + n)%nat.
Proof.
  induction n as [|n IH]; intros x s Hx.
  - assert (x = 0%N) as -> by (simpl in Hx; lia). rewrite pretty_N_go_0. lia.
  - destruct (decide (x = 0)%N) as [->|Hpos]; [rewrite pretty_N_go_0; lia|].
    rewrite pretty_N_go_step by lia.
    etransitivity; [apply IH|simpl; lia].
    apply N.Div0.div_lt_upper_bound.
    rewrite Nat2N.inj_succ, N.pow_succ_r' in Hx. lia.
Qed.

Lemma pretty_N_char_digit (x : N) : is_digit (pretty_N_char x) = true.
Proof. unfold pretty_N_char. by repeat case_match. Qed.

Lemma pretty_N_go_digits (x : N) : forall (s : string),
  forallb_str is_digit s = true -> forallb_str is_digit (pretty_N_go x s) = true.
Proof.
  induction (N.lt_wf_0 x) as [x _ IH]. intros s Hs.
  destruct (decide (x = 0)%N) as [->|Hx]; [by rewrite pretty_N_go_0|].
  rewrite pretty_N_go_step by lia. apply IH.
  - apply N.div_lt; lia.
  - simpl. by rewrite pretty_N_char_digit.
Qed.

Lemma toLowerCase_digits (s : string) :
  forallb_str is_digit s = true -> toLowerCase s = s.
Proof.
  induction s as [|c s IH]; [done|]. simpl. intros [Hc Hs]%andb_true_iff.
  rewrite IH by done. f_equal.
  by destruct c as [[] [] [] [] [] [] [] []].
Qed.

Lemma forallb_str_app (p : ascii -> bool) (s t : string) :
  forallb_str p (s +:+ t) = forallb_str p s && forallb_str p t.
Proof.
  induction s as [|c s IH]; [done|]. rewrite append_cons. simpl.
  by rewrite IH, andb_assoc.
Qed.

(** The four digits of a random number below 10000. *)
Lemma padStart_random (random : N) :
  (random < 10000)%N ->
  String.length (padStart 4 "0" (pretty random)) = 4%nat /\
  toLowerCase (padStart 4 "0" (pretty random)) = padStart 4 "0" (pretty random).
Proof.
  intros Hr.
  assert ((String.length (pretty random) <= 4)%nat /\
          forallb_str is_digit (pretty random) = true) as [Hlen Hdig].
  { unfold pretty, pretty_N. case_decide; [by split; [simpl; lia|]|]. split.
    - apply (length_pretty_N_go 4 random EmptyString). simpl. lia.
    - by apply pretty_N_go_digits. }
  split; [rewrite length_padStart; lia|].
  apply toLowerCase_digits. unfold padStart. rewrite forallb_str_app, Hdig.
  rewrite andb_true_r. generalize (4 - String.length (pretty random))%nat.
  intros n. induction n as [|n IH]; [done|by simpl].
Qed.

Lemma forallb_str_impl (p q : ascii -> bool) (s : string) :
  (forall c, p c = true -> q c = true) ->
  forallb_str p s = true -> forallb_str q s = true.
Proof.
  intros Hpq. induction s as [|c s IH]; [done|]. simpl.
  intros [Hc Hs]%andb_true_iff. by rewrite (Hpq c Hc), IH.
Qed.

(** An ASCII text has as many code units as bytes. *)
Lemma utf16_length_ascii (s : string) :
  forallb_str is_ascii_chr s = true -> utf16_length s = String.length s.
Proof.
  induction s as [|c s IH]; [done|]. simpl. intros [Hc Hs]%andb_true_iff.
  rewrite IH by done. unfold utf16_units. unfold is_ascii_chr in Hc. by rewrite Hc.
Qed.

Lemma ascii_toLowerCase (s : string) :
  forallb_str is_ascii_chr s = true -> forallb_str is_ascii_chr (toLowerCase s) = true.
Proof.
  induction s as [|c s IH]; [done|]. simpl. intros [Hc Hs]%andb_true_iff.
  rewrite IH by done. rewrite andb_true_r. revert Hc.
  by destruct c as [[] [] [] [] [] [] [] []].
Qed.

Lemma forallb_str_rev_app (p : ascii -> bool) (s t : string) :
  forallb_str p (String.rev_app s t) = forallb_str p s && forallb_str p t.
Proof.
  revert t. induction s as [|c s IH]; intros t; [done|]. simpl.
  rewrite IH. simpl. by rewrite andb_assoc, (andb_comm (forallb_str p s)).
Qed.

Lemma forallb_str_drop_spaces (p : ascii -> bool) p2 p3 (s : string) :
  forallb_str p s = true -> forallb_str p (drop_spaces p2 p3 s) = true.
Proof.
  assert (forall n s, (String.length s <= n)%nat ->
            forallb_str p s = true -> forallb_str p (drop_spaces p2 p3 s) = true) as Hlen;
    [|by apply (Hlen (String.length s))].
  clear s. induction n as [|n IH]; intros s Hn Hs.
  - destruct s; [done|simpl in Hn; lia].
  - destruct s as [|a r]; [done|]. cbn [drop_spaces]. simpl in Hn, Hs.
    apply andb_true_iff in Hs as [Ha Hr].
    destruct (is_space a); [apply IH; [lia|done]|].
    destruct r as [|b r2]; [by simpl; rewrite Ha|]. simpl in Hn, Hr.
    apply andb_true_iff in Hr as [Hb Hr2].
    destruct (p2 a b); [apply IH; [lia|done]|].
    destruct r2 as [|c r3]; [by simpl; rewrite Ha, Hb|]. simpl in Hn, Hr2.
    apply andb_true_iff in Hr2 as [Hc Hr3].
    destruct (p3 a b c); [apply IH; [lia|done]|].
    simpl. by rewrite Ha, Hb, Hc, Hr3.
Qed.

Lemma forallb_str_keep (p : ascii -> bool) (s : string) :
  forallb_str p s = true -> forallb_str p (keep_word_space_hyphen s) = true.
Proof.
  assert (forall n s, (String.length s <= n)%nat ->
            forallb_str p s = true -> forallb_str p (keep_word_space_hyphen s) = true)
    as Hlen; [|by apply (Hlen (String.length s))].
  clear s. induction n as [|n IH]; intros s Hn Hs.
  - destruct s; [done|simpl in Hn; lia].
  - destruct s as [|a r]; [done|]. cbn [keep_word_space_hyphen]. simpl in Hn, Hs.
    apply andb_true_iff in Hs as [Ha Hr].
    destruct (is_word a || is_space a || Ascii.eqb a "-").
    { simpl. rewrite Ha. apply IH; [lia|done]. }
    destruct r as [|b r2]; [done|]. simpl in Hn.
    pose proof Hr as Hr'. simpl in Hr. apply andb_true_iff in Hr as [Hb Hr2].
    destruct (is_space2 a b).
    { simpl. rewrite Ha, Hb. apply IH; [lia|done]. }
    destruct r2 as [|c r3]; [apply IH; [simpl; lia|done]|]. simpl in Hn.
    pose proof Hr2 as Hr2'. simpl in Hr2. apply andb_true_iff in Hr2 as [Hc Hr3].
    destruct (is_space3 a b c).
    { simpl. rewrite Ha, Hb, Hc. apply IH; [lia|done]. }
    apply IH; [simpl; lia|done].
Qed.

Lemma forallb_str_sanitizeString (p : ascii -> bool) (s : string) :
  forallb_str p s = true -> forallb_str p (sanitizeString s) = true.
Proof.
  intros Hs. unfold sanitizeString, trim, trimEnd, trimStart, String.rev.
  apply forallb_str_keep. rewrite forallb_str_rev_app, andb_true_r.
  apply forallb_str_drop_spaces. rewrite forallb_str_rev_app, andb_true_r.
  by apply forallb_str_drop_spaces.
Qed.

Lemma padStart_digits (random : N) :
  forallb_str is_digit (padStart 4 "0" (pretty random)) = true.
Proof.
  assert (forallb_str is_digit (pretty random) = true) as Hdig.
  { unfold pretty, pretty_N. case_decide; [done|]. by apply pretty_N_go_digits. }
  unfold padStart. rewrite forallb_str_app, Hdig, andb_true_r.
  generalize (4 - String.length (pretty random))%nat.
  intros n. induction n as [|n IH]; [done|by simpl].
Qed.

(** The tag of two ASCII names is ASCII: its length in code units is its
    length in bytes. *)
Lemma generateClkkTag_ascii (firstName lastName : string) (random : N) :
  forallb_str is_ascii_chr firstName = true ->
  forallb_str is_ascii_chr lastName = true ->
  utf16_length (generateClkkTag firstName lastName random)
  = String.length (generateClkkTag firstName lastName random).
Proof.
  intros Hf Hl. apply utf16_length_ascii. unfold generateClkkTag. cbv zeta.
  rewrite !forallb_str_app, !ascii_toLowerCase by by apply forallb_str_sanitizeString.
  apply (forallb_str_impl is_digit); [|apply padStart_digits].
  intros c. by destruct c as [[] [] [] [] [] [] [] []].
Qed.

Lemma opt_len_false_schema (u : User) :
  opt_len 3 20 (clkkTag u) = false -> schema_ok u = false.
Proof. unfold schema_ok. intros ->. by rewrite andb_false_r. Qed.

(** X22. [generateClkkTag] with a random number below 10000 gives the
    lower-cased sanitized first name, the lower-cased sanitized last
    name and four digits: for ASCII names its length is the lengths of
    the two sanitized names and four, it is its own lower case, and it
    passes the length check of the user schema (3 to 20 characters)
    exactly when the two sanitized names have at most 16 characters
    together. *)
Theorem generateClkkTag_length (firstName lastName : string) (random : N) :
  forallb_str is_ascii_chr firstName = true ->
  forallb_str is_ascii_chr lastName = true ->
  (random < 10000)%N ->
  let sf := sanitizeString firstName in
  let sl := sanitizeString lastName in
  let tag := generateClkkTag firstName lastName random in
  String.length tag = (String.length sf + String.length sl + 4)%nat /\
  toLowerCase tag = tag /\
  (opt_len 3 20 (Some tag) = true <-> (String.length sf + String.length sl <= 16)%nat).
Proof.
  intros Hf Hl Hr sf sl tag. destruct (padStart_random random Hr) as [Hlen Hlow].
  assert (String.length tag = (String.length sf + String.length sl + 4)%nat) as Hsize.
  { unfold tag, generateClkkTag. cbv zeta.
    rewrite !length_append, !length_toLowerCase, Hlen. unfold sf, sl. lia. }
  split; [done|]. split.
  - unfold tag, generateClkkTag. cbv zeta.
    by rewrite !toLowerCase_app, !toLowerCase_idem, Hlow.
  - unfold opt_len, tag. rewrite generateClkkTag_ascii by done. fold tag.
    rewrite Hsize. rewrite andb_true_iff, !Nat.leb_le. lia.
Qed.

Lemma generateClkkTag_length_witness :
  generateClkkTag "Mary Ann" "O'Neil" 42 = "mary annoneil0042" /\
  String.length (generateClkkTag "Mary Ann" "O'Neil" 42) = 17%nat /\
  opt_len 3 20 (Some (generateClkkTag "Mary Ann" "O'Neil" 42)) = true.
Proof.
  destruct (generateClkkTag_length "Mary Ann" "O'Neil" 42) as (Hlen & _ & Hcheck).
  - reflexivity.
  - reflexivity.
  - lia.
  - split; [reflexivity|]. split; [exact Hlen|]. apply Hcheck. simpl. lia.
Defined.

(** X23. A user made by [fromGraphQLInput] from two non-empty names
    gets the generated tag; when the names are ASCII and their
    sanitized forms have more than 16 characters together the tag is
    longer than the schema allows, so the user fails validation, and a
    create of it throws the validation error, sends nothing and leaves
    the table as it is. *)
Theorem fromGraphQLInput_long_names (input : CreateUserInput) (uuid : string)
    (random : N) (f l : string) :
  input_firstName input = Some f -> input_lastName input = Some l ->
  f ≠ EmptyString -> l ≠ EmptyString ->
  forallb_str is_ascii_chr f = true -> forallb_str is_ascii_chr l = true ->
  (random < 10000)%N ->
  (16 < String.length (sanitizeString f) + String.length (sanitizeString l))%nat ->
  let u := fromGraphQLInput input uuid random in
  id u = Some ("user_" +:+ uuid) /\
  clkkTag u = Some (generateClkkTag f l random) /\
  schema_ok u = false /\
  forall now w, exists w',
    create now u w = (Err UserValidationFailed, w') /\
    tbl w' = tbl w /\ sent w' = sent w.
Proof.
  intros Hfirst Hlast Hf Hl Haf Hal Hr Hlong u.
  assert (String.length (generateClkkTag f l random)
          = (String.length (sanitizeString f) + String.length (sanitizeString l) + 4)%nat)
    as Hsize.
  { destruct (padStart_random random Hr) as [Hlen _]. unfold generateClkkTag. cbv zeta.
    rewrite !length_append, !length_toLowerCase, Hlen. lia. }
  assert (clkkTag u = Some (generateClkkTag f l random)) as Htag.
  { unfold u, fromGraphQLInput. cbv zeta. cbn [clkkTag]. rewrite Hfirst, Hlast.
    unfold or_undefined. destruct f as [|cf f]; [done|]. by destruct l as [|cl l]. }
  assert (schema_ok u = false) as Hbad.
  { apply opt_len_false_schema. rewrite Htag. unfold opt_len.
    rewrite generateClkkTag_ascii, Hsize by done.
    apply andb_false_iff. right. apply Nat.leb_gt. lia. }
  split_and!; [done..|].
  intros now w. destruct (create_invalid now u w Hbad) as (w' & ? & ? & ? & _).
  by exists w'.
Qed.

Lemma fromGraphQLInput_long_names_witness :
  clkkTag (fromGraphQLInput long_names_input "0000" 7)
    = Some "christophermontgomery0007" /\
  schema_ok (fromGraphQLInput long_names_input "0000" 7) = false.
Proof.
  destruct (fromGraphQLInput_long_names long_names_input "0000" 7
              "Christopher" "Montgomery")
    as (_ & Htag & Hbad & _).
  - reflexivity.
  - reflexivity.
  - discriminate.
  - discriminate.
  - reflexivity.
  - reflexivity.
  - lia.
  - simpl. lia.
  - split; [exact Htag|exact Hbad].
Defined.

(** ** The webhook handler *)

Lemma no_faults_tail (w w' : world) :
  no_faults w -> script w' = tail (script w) -> no_faults w'.
Proof. unfold no_faults. intros Hnf ->. by apply Forall_tail. Qed.

(** The lookup by Clerk id asks the index for one row and returns the
    entity of the first row of the partition. *)
Lemma getByClerkId_run (c : string) (w : world) :
  next_ok w ->
  exists w',
    getByClerkId c w
    = (Ok (fromItem <$> (snd <$> head (index_partition ATTRIBUTES.EXTERNAL_ID_KEY
                                         (clerk_index_value c) false (tbl w)))), w') /\
    tbl w' = tbl w /\ script w' = tail (script w) /\
    exists q, sent w' = sent w ++ [QueryCommand q].
Proof.
  intros Hnext.
  destruct (queryByIndex_run INDEXES.EXTERNAL_ID ATTRIBUTES.EXTERNAL_ID_KEY
              (clerk_index_value c) limit_one (Paging.mk 1 None) w)
    as (w' & Hq & Hsent & Htbl & Hscript); [done|done|].
  cbn [Paging.Limit Paging.ExclusiveStartKey scanIndexForward default limit_one] in Hq.
  rewrite (run_query_index INDEXES.EXTERNAL_ID) in Hq by done.
  cbn [mbind option_bind] in Hq.
  exists w'. split; [|by eauto].
  unfold getByClerkId, try_catch, mbind at 1, M_bind at 1.
  change (tmpl (get_str (KEY_BUILDERS.userByClerkId (Some c)) ATTRIBUTES.EXTERNAL_ID_KEY))
    with (tmpl (get_str ({[ ATTRIBUTES.EXTERNAL_ID_KEY := JStr (clerk_index_value c) ]} : item)
                  ATTRIBUTES.EXTERNAL_ID_KEY)).
  unfold get_str. rewrite lookup_singleton_eq. cbn [tmpl]. rewrite Hq.
  cbn [mret M_ret Page.items Items page_of].
  change (Z.to_nat 1) with 1%nat. by rewrite first_of_page.
Qed.

Lemma index_partition_empty (hash v : string) (forward : bool) (t : table)
    (k : pkey) (row : item) :
  index_partition hash v forward t = [] -> t !! k = Some row ->
  str_attr_is row hash v = false.
Proof.
  intros Hnil Hrow. apply not_true_is_false. intros Hattr.
  pose proof (index_partition_member hash v forward t k row Hrow Hattr) as Hin.
  rewrite Hnil in Hin. by apply elem_of_nil in Hin.
Qed.

Lemma tag_from_names_fields (random : N) (u : User) :
  id (tag_from_names random u) = id u /\
  clerkId (tag_from_names random u) = clerkId u /\
  email (tag_from_names random u) = email u.
Proof. unfold tag_from_names. by destruct (_ && _). Qed.

(** The row of a created entity lies in the partition of its Clerk id. *)
Lemma create_clerk_row now e w u w1 c :
  create now e w = (Ok u, w1) -> clerkId e = Some c ->
  exists it,
    tbl w1 = <[user_key e := it]> (tbl w) /\
    script w1 = tail (script w) /\
    str_attr_is it ATTRIBUTES.EXTERNAL_ID_KEY (clerk_index_value c) = true /\
    id (fromItem it) = id e.
Proof.
  intros Hcreate Hc.
  destruct (create_returned _ _ _ _ _ Hcreate) as (_ & _ & it' & Hit' & _ & Hscript).
  destruct (create_row _ _ _ _ _ Hcreate)
    as (it0 & it & Hit0 & Hit & Htbl & Hsame & Hfrom & Hcu & _ & _ & Hi).
  exists it. split_and!; [done..| |].
  - unfold str_attr_is. rewrite Hsame by done.
    rewrite (toItem_clerk_key u it0 Hit0), Hcu, Hc. apply String.eqb_refl.
  - rewrite Hfrom. simpl. rewrite <- Hi. by apply toItem_id.
Qed.

(** The handler of user.created in front of a row with the Clerk id. *)
Lemma handleUserCreated_existing now uuid random webhook w k row rows :
  next_ok w ->
  index_partition ATTRIBUTES.EXTERNAL_ID_KEY
    (clerk_index_value (clerk_user_id (data webhook))) false (tbl w) = (k, row) :: rows ->
  exists w2,
    handleUserCreated now uuid random webhook w
    = (Ok (Responded {| success := true; message := "User already exists";
                        userId := id (fromItem row) |}), w2) /\
    tbl w2 = tbl w.
Proof.
  intros Hnext Hpart.
  destruct (getByClerkId_run (clerk_user_id (data webhook)) w Hnext)
    as (w2 & Hget & Htbl & _).
  rewrite Hpart in Hget.
  unfold handleUserCreated. cbv zeta.
  unfold mbind at 1. unfold M_bind at 1. rewrite Hget.
  cbn [head fmap option_fmap option_map snd].
  unfold mbind, M_bind, log, mret, M_ret. cbv beta iota.
  eexists. split; [reflexivity|]. cbn [tbl]. exact Htbl.
Qed.

(** The stored item of an entity carries the index key of its Clerk id. *)
Lemma stored_clerk_attr u it c :
  stored_item u = Ok it -> clerkId u = Some c ->
  str_attr_is it ATTRIBUTES.EXTERNAL_ID_KEY (clerk_index_value c) = true.
Proof.
  unfold stored_item. intros Hit Hc.
  destruct (toItem u) as [it0|] eqn:Hit0; [simpl in Hit|done]. injection Hit as <-.
  unfold str_attr_is. rewrite lookup_stamped by done.
  rewrite (toItem_clerk_key u it0 Hit0), Hc. apply String.eqb_refl.
Qed.

(** X24. A user-created webhook that is delivered again creates no
    second user: when the handler answered that it created the user
    (the service failing no request), the new row lies at the key of
    the fresh id, and every later delivery of the same webhook,
    whatever fresh id and random number it would use, answers that the
    user already exists, names the id of the first delivery and leaves
    the table as it is. *)
Theorem webhook_created_once now uuid random webhook w r w1 :
  no_faults w ->
  handleUserCreated now uuid random webhook w = (Ok (Responded r), w1) ->
  message r = "User created successfully" ->
  userId r = Some ("user_" +:+ uuid) /\
  (exists it, tbl w1 = <[id_key ("user_" +:+ uuid) := it]> (tbl w)) /\
  forall now' uuid' random', exists w2,
    handleUserCreated now' uuid' random' webhook w1
    = (Ok (Responded {| success := true; message := "User already exists";
                        userId := userId r |}), w2) /\
    tbl w2 = tbl w1.
Proof.
  intros Hnf Hrun Hmsg.
  destruct (getByClerkId_run (clerk_user_id (data webhook)) w (no_faults_next_ok w Hnf))
    as (wq & Hget & Htblq & Hscriptq & _).
  unfold handleUserCreated in Hrun. cbv zeta in Hrun.
  unfold mbind at 1 in Hrun. unfold M_bind at 1 in Hrun. rewrite Hget in Hrun.
  destruct (index_partition ATTRIBUTES.EXTERNAL_ID_KEY
              (clerk_index_value (clerk_user_id (data webhook))) false (tbl w))
    as [|[k0 row0] rows] eqn:Hpart.
  2: { simpl in Hrun. injection Hrun as <- _. done. }
  cbn [head fmap option_fmap option_map] in Hrun.
  destruct (truthy_str (verified_email (data webhook))) eqn:Hmail;
    [cbn [negb] in Hrun|simpl in Hrun; done].
  match type of Hrun with
  | context [create now ?user] => set (e := user) in *
  end.
  destruct (tag_from_names_fields random
              {| id := Some (generateUserId uuid); createdAt := None; updatedAt := None;
                 clerkId := Some (clerk_user_id (data webhook));
                 email := verified_email (data webhook);
                 phoneNumber := first_phone (data webhook);
                 firstName := first_name (data webhook);
                 lastName := last_name (data webhook);
                 clkkTag := None; kycStatus := Some "NOT_STARTED"; kycDetails := None;
                 profileImageUrl := None; dateOfBirth := None;
                 address := None; metadata := None |}) as (Hid & Hclerk & _).
  fold e in Hid, Hclerk. cbn [id clerkId] in Hid, Hclerk.
  unfold mbind at 1 in Hrun. unfold M_bind at 1 in Hrun.
  destruct (create now e wq) as [[u|err] wc] eqn:Hcreate; [|done].
  destruct (create_returned _ _ _ _ _ Hcreate) as (_ & Hu & _).
  destruct (create_clerk_row _ _ _ _ _ _ Hcreate Hclerk)
    as (it & Htbl & Hscript & Hattr & Hfrom).
  simpl in Hrun. injection Hrun as <- <-.
  assert (user_key e = id_key ("user_" +:+ uuid)) as Hkey.
  { unfold user_key, id_key. by rewrite Hid. }
  assert (id u = Some ("user_" +:+ uuid)) as Hidu by (by rewrite Hu).
  split; [done|]. split.
  { exists it. cbn [tbl]. by rewrite Htbl, Htblq, Hkey. }
  intros now' uuid' random'.
  match goal with |- context [handleUserCreated _ _ _ _ ?w] => set (w1 := w) end.
  assert (tbl w1 = <[user_key e := it]> (tbl w)) as Htbl1.
  { unfold w1. cbn [tbl]. by rewrite Htbl, Htblq. }
  assert (no_faults w1) as Hnf1.
  { apply (no_faults_tail wq); [by apply (no_faults_tail w)|].
    unfold w1. cbn [script]. done. }
  destruct (handleUserCreated_existing now' uuid' random' webhook w1 (user_key e) it [])
    as (w2 & Hrun2 & Htbl2); [by apply no_faults_next_ok| |].
  - apply index_partition_one; [rewrite Htbl1; apply lookup_insert_eq|done|].
    intros k' row' Hrow' Hne. rewrite Htbl1, lookup_insert_ne in Hrow' by done.
    by apply (index_partition_empty _ _ false (tbl w) k').
  - exists w2. split; [|done]. by rewrite Hrun2, Hfrom, Hid, Hidu.
Qed.

Lemma webhook_created_once_witness :
  exists w2,
    handleUserCreated "2024-05-06T00:00:00.000Z" "u2" 7 (webhook_of "user.created" ada_clerk)
      (handleUserCreated "2024-05-05T00:00:00.000Z" "u1" 42
         (webhook_of "user.created" ada_clerk) (fresh ∅ [])).2
    = (Ok (Responded {| success := true; message := "User already exists";
                        userId := Some "user_u1" |}), w2).
Proof.
  destruct (webhook_created_once "2024-05-05T00:00:00.000Z" "u1" 42
              (webhook_of "user.created" ada_clerk) (fresh ∅ [])
              {| success := true; message := "User created successfully";
                 userId := Some "user_u1" |}
              (handleUserCreated "2024-05-05T00:00:00.000Z" "u1" 42
                 (webhook_of "user.created" ada_clerk) (fresh ∅ [])).2)
    as (_ & _ & Hagain).
  - apply Forall_nil_2.
  - vm_compute. reflexivity.
  - reflexivity.
  - destruct (Hagain "2024-05-06T00:00:00.000Z" "u2" 7%N) as (w2 & Hrun & _).
    exists w2. exact Hrun.
Defined.

(** X25. The handler of user.deleted deletes nothing.  In front of the
    stored row of a valid user, the only row with the Clerk id of the
    webhook, and with the service failing no request, it answers that
    the user is marked as deleted and rewrites the row of the user under
    the same key, with the metadata entries deletedAt and deletedBy;
    the lookup by Clerk id then still returns the user, and a later
    user.created webhook for the same Clerk id answers that the user
    already exists and writes nothing. *)
Theorem webhook_deleted_keeps_user deletedAt now webhook u it w :
  schema_ok u = true ->
  nonempty_opt (profileImageUrl u) -> nonempty_opt (dateOfBirth u) ->
  clerkId u = Some (clerk_user_id (data webhook)) ->
  stored_item u = Ok it -> tbl w !! user_key u = Some it ->
  (forall k row, tbl w !! k = Some row -> k ≠ user_key u ->
     str_attr_is row ATTRIBUTES.EXTERNAL_ID_KEY
       (clerk_index_value (clerk_user_id (data webhook))) = false) ->
  no_faults w ->
  let marked :=
    stamp (if truthy_str (createdAt u) then createdAt u else Some now) (Some now)
      (with_metadata (Some (obj_set "deletedBy" (JStr "clerk_webhook")
                              (obj_set "deletedAt" (JStr deletedAt)
                                 (default [] (metadata u))))) u) in
  exists w1 it1,
    handleUserDeleted deletedAt now webhook w
    = (Ok {| success := true; message := "User marked as deleted"; userId := id u |}, w1) /\
    stored_item marked = Ok it1 /\
    tbl w1 = <[user_key u := it1]> (tbl w) /\
    (exists w2, getByClerkId (clerk_user_id (data webhook)) w1 = (Ok (Some marked), w2)) /\
    forall now' uuid random, exists w2,
      handleUserCreated now' uuid random webhook w1
      = (Ok (Responded {| success := true; message := "User already exists";
                          userId := id u |}), w2) /\
      tbl w2 = tbl w1.
Proof.
  intros Hok Hp Hd Hc Hit Hrow Hothers Hnf marked.
  set (c := clerk_user_id (data webhook)) in *.
  destruct (getByClerkId_run c w (no_faults_next_ok w Hnf))
    as (wq & Hget & Htblq & Hscriptq & _).
  rewrite (index_partition_one _ _ _ _ (user_key u) it) in Hget
    by eauto using stored_clerk_attr.
  cbn [head fmap option_fmap option_map snd] in Hget.
  rewrite (fromItem_stored u it) in Hget by done.
  set (u' := with_metadata (Some (obj_set "deletedBy" (JStr "clerk_webhook")
                                    (obj_set "deletedAt" (JStr deletedAt)
                                       (default [] (metadata u))))) u) in *.
  assert (no_faults wq) as Hnfq by by apply (no_faults_tail w).
  destruct (save_run now u' wq) as (it1 & ws & Hsave & Hit1 & _ & Htbls & Hscripts);
    [done|by apply no_faults_next_ok|].
  fold marked in Hsave, Hit1.
  set (w1 := {| tbl := tbl ws; script := script ws; sent := sent ws;
                logged := logged ws ++ ["info" +:+ ": " +:+ "User marked as deleted"] |}).
  assert (tbl w1 = <[user_key u := it1]> (tbl w)) as Htbl1.
  { unfold w1. cbn [tbl]. by rewrite Htbls, Htblq. }
  assert (no_faults w1) as Hnf1 by by apply (no_faults_tail wq).
  assert (index_partition ATTRIBUTES.EXTERNAL_ID_KEY (clerk_index_value c) false (tbl w1)
          = [(user_key u, it1)]) as Hpart.
  { apply index_partition_one.
    - rewrite Htbl1. apply lookup_insert_eq.
    - by apply (stored_clerk_attr marked).
    - intros k' row' Hrow' Hne. rewrite Htbl1, lookup_insert_ne in Hrow' by done. eauto. }
  assert (fromItem it1 = marked) as Hfrom by by apply fromItem_stored.
  exists w1, it1. split_and!; [|done|done| |].
  - unfold handleUserDeleted. cbv zeta. fold c.
    unfold mbind at 1. unfold M_bind at 1. rewrite Hget. fold u'.
    unfold mbind at 1. unfold M_bind at 1. rewrite Hsave.
    reflexivity.
  - destruct (getByClerkId_run c w1 (no_faults_next_ok w1 Hnf1)) as (w2 & Hget2 & _).
    rewrite Hpart in Hget2. cbn [head fmap option_fmap option_map snd] in Hget2.
    rewrite Hfrom in Hget2. by exists w2.
  - intros now' uuid random.
    destruct (handleUserCreated_existing now' uuid random webhook w1 (user_key u) it1 [])
      as (w2 & Hrun2 & Htbl2); [by apply no_faults_next_ok|done|].
    exists w2. split; [|done]. by rewrite Hrun2, Hfrom.
Qed.

Lemma webhook_deleted_keeps_user_witness :
  exists it w1 w2,
    handleUserDeleted "2024-05-05T00:00:00.000Z" "2024-05-05T00:00:01.000Z"
      (webhook_of "user.deleted" sample_clerk)
      (fresh {[ user_key sample_user_stamped := it ]} [])
    = (Ok {| success := true; message := "User marked as deleted"; userId := Some "u1" |},
       w1) /\
    handleUserCreated "2024-05-06T00:00:00.000Z" "u2" 7
      (webhook_of "user.created" sample_clerk) w1
    = (Ok (Responded {| success := true; message := "User already exists";
                        userId := Some "u1" |}), w2).
Proof.
  destruct (stored_item_valid sample_user_stamped) as [it Hit]; [reflexivity|].
  destruct (webhook_deleted_keeps_user "2024-05-05T00:00:00.000Z" "2024-05-05T00:00:01.000Z"
              (webhook_of "user.deleted" sample_clerk) sample_user_stamped it
              (fresh {[ user_key sample_user_stamped := it ]} []))
    as (w1 & it1 & Hrun & _ & _ & _ & Hagain).
  - vm_compute. reflexivity.
  - discriminate.
  - discriminate.
  - reflexivity.
  - exact Hit.
  - apply lookup_singleton_eq.
  - intros k row Hrow Hne. cbn [tbl fresh] in Hrow.
    apply lookup_singleton_Some in Hrow as [<- _]. done.
  - constructor.
  - destruct (Hagain "2024-05-06T00:00:00.000Z" "u2" 7%N) as (w2 & Hrun2 & _).
    exists it, w1, w2. split; [exact Hrun|exact Hrun2].
Defined.

Lemma generateClkkTag_truthy (f l : string) (random : N) :
  truthy_str (Some (generateClkkTag f l random)) = true.
Proof.
  unfold truthy_str. apply negb_true_iff, String.eqb_neq. intros Hnil.
  apply (f_equal String.length) in Hnil. revert Hnil.
  unfold generateClkkTag. cbv zeta. rewrite !length_append, length_padStart. simpl. lia.
Qed.

Ltac split_if :=
  match goal with
  | |- context [if ?c then _ else _] => destruct c eqn:?
  end.

Ltac user_fields :=
  cbn [id createdAt updatedAt clerkId email firstName lastName phoneNumber clkkTag
       kycStatus kycDetails profileImageUrl dateOfBirth address metadata
       with_email with_firstName with_lastName with_phoneNumber with_clkkTag stamp] in *.

(** A condition of the second pass is false: it is the one that failed
    in the first pass, or it compares a field with what the first pass
    put there. *)
Ltac settled :=
  match goal with
  | H : ?c = false |- context [if ?c then _ else _] => rewrite H
  | |- context [if ?a && bool_decide (?x ≠ ?x) then _ else _] =>
      rewrite (bool_decide_eq_false_2 (x ≠ x)) by (intros Hne; by apply Hne);
      rewrite andb_false_r
  | |- context [truthy_str (Some (generateClkkTag ?f ?l ?r))] =>
      rewrite (generateClkkTag_truthy f l r); cbn [negb andb]
  end; cbv beta iota.

(** Taking the same webhook over a second time changes nothing, also
    after the time stamps of a save. *)
Lemma take_over_again (d : ClerkUser) (random random' : N) (c t : option string) (u : User) :
  take_over d random' (stamp c t (take_over d random u).1)
  = (stamp c t (take_over d random u).1, false).
Proof.
  unfold take_over at 2 3. cbv zeta.
  do 5 (split_if; cbv beta iota).
  all: cbn [fst]; unfold take_over; cbv zeta; user_fields.
  all: do 5 (user_fields; try settled).
  all: reflexivity.
  all: reflexivity.
Qed.

Lemma take_over_keeps (d : ClerkUser) (random : N) (u : User) :
  let u1 := (take_over d random u).1 in
  id u1 = id u /\ clerkId u1 = clerkId u /\ createdAt u1 = createdAt u /\
  profileImageUrl u1 = profileImageUrl u /\ dateOfBirth u1 = dateOfBirth u.
Proof. unfold take_over. cbv zeta. do 5 (split_if; cbv beta iota). all: done. Qed.

Lemma take_over_unchanged (d : ClerkUser) (random : N) (u : User) :
  (take_over d random u).2 = false -> (take_over d random u).1 = u.
Proof. unfold take_over. cbv zeta. do 5 (split_if; cbv beta iota). all: done. Qed.

Lemma stamp_own (u : User) : stamp (createdAt u) (updatedAt u) u = u.
Proof. by destruct u. Qed.

(** The handler of user.updated in front of the only row with the
    Clerk id, which is the stored row of [u]. *)
Lemma handleUserUpdated_found now uuid random webhook u it w :
  schema_ok u = true ->
  nonempty_opt (profileImageUrl u) -> nonempty_opt (dateOfBirth u) ->
  clerkId u = Some (clerk_user_id (data webhook)) ->
  stored_item u = Ok it -> tbl w !! user_key u = Some it ->
  (forall k row, tbl w !! k = Some row -> k ≠ user_key u ->
     str_attr_is row ATTRIBUTES.EXTERNAL_ID_KEY
       (clerk_index_value (clerk_user_id (data webhook))) = false) ->
  next_ok w ->
  exists wq,
    handleUserUpdated now uuid random webhook w
    = (let '(user, hasChanges) := take_over (data webhook) random u in
       (if hasChanges then save now user;; log "info" "User updated successfully"
        else log "info" "No changes detected for user");;
       mret (Responded {| success := true;
                          message := if hasChanges then "User updated successfully"
                                     else "No changes detected";
                          userId := id user |})) wq /\
    tbl wq = tbl w /\ script wq = tail (script w) /\
    exists q, sent wq = sent w ++ [QueryCommand q].
Proof.
  intros Hok Hp Hd Hc Hit Hrow Hothers Hnext.
  destruct (getByClerkId_run (clerk_user_id (data webhook)) w Hnext)
    as (wq & Hget & Htblq & Hscriptq & Hsentq).
  rewrite (index_partition_one _ _ _ _ (user_key u) it) in Hget
    by eauto using stored_clerk_attr.
  cbn [head fmap option_fmap option_map snd] in Hget.
  rewrite (fromItem_stored u it) in Hget by done.
  exists wq. split; [|done].
  unfold handleUserUpdated. cbv zeta.
  unfold mbind at 1. unfold M_bind at 1. by rewrite Hget.
Qed.

(** The handler of user.updated when the webhook brings nothing new. *)
Lemma handleUserUpdated_settled now uuid random webhook u it w :
  schema_ok u = true ->
  nonempty_opt (profileImageUrl u) -> nonempty_opt (dateOfBirth u) ->
  clerkId u = Some (clerk_user_id (data webhook)) ->
  stored_item u = Ok it -> tbl w !! user_key u = Some it ->
  (forall k row, tbl w !! k = Some row -> k ≠ user_key u ->
     str_attr_is row ATTRIBUTES.EXTERNAL_ID_KEY
       (clerk_index_value (clerk_user_id (data webhook))) = false) ->
  next_ok w ->
  take_over (data webhook) random u = (u, false) ->
  exists w2 q,
    handleUserUpdated now uuid random webhook w
    = (Ok (Responded {| success := true; message := "No changes detected";
                        userId := id u |}), w2) /\
    tbl w2 = tbl w /\ sent w2 = sent w ++ [QueryCommand q].
Proof.
  intros Hok Hp Hd Hc Hit Hrow Hothers Hnext Hto.
  destruct (handleUserUpdated_found now uuid random webhook u it w)
    as (wq & Hrun & Htblq & _ & q & Hsentq); [done..|].
  rewrite Hto in Hrun. rewrite Hrun.
  unfold mbind, M_bind, log, mret, M_ret. cbv beta iota.
  eexists _, q. split; [reflexivity|]. cbn [tbl sent]. done.
Qed.

(** X26. A user-updated webhook that is delivered again changes
    nothing.  In front of the stored row of a valid user, the only row
    with the Clerk id of the webhook, with the service failing no
    request and the user still valid with the fields of the webhook,
    the handler saves the user when a field differs and answers
    accordingly; every later delivery of the same webhook answers that
    no changes were detected, sends its query and nothing else, and
    leaves the table as it is. *)
Theorem webhook_updated_twice now uuid random webhook u it w :
  schema_ok u = true ->
  nonempty_opt (profileImageUrl u) -> nonempty_opt (dateOfBirth u) ->
  clerkId u = Some (clerk_user_id (data webhook)) ->
  stored_item u = Ok it -> tbl w !! user_key u = Some it ->
  (forall k row, tbl w !! k = Some row -> k ≠ user_key u ->
     str_attr_is row ATTRIBUTES.EXTERNAL_ID_KEY
       (clerk_index_value (clerk_user_id (data webhook))) = false) ->
  no_faults w ->
  schema_ok (take_over (data webhook) random u).1 = true ->
  exists w1,
    handleUserUpdated now uuid random webhook w
    = (Ok (Responded {| success := true;
                        message := if (take_over (data webhook) random u).2
                                   then "User updated successfully"
                                   else "No changes detected";
                        userId := id u |}), w1) /\
    ((take_over (data webhook) random u).2 = false -> tbl w1 = tbl w) /\
    forall now' uuid' random', exists w2 q,
      handleUserUpdated now' uuid' random' webhook w1
      = (Ok (Responded {| success := true; message := "No changes detected";
                          userId := id u |}), w2) /\
      tbl w2 = tbl w1 /\ sent w2 = sent w1 ++ [QueryCommand q].
Proof.
  intros Hok Hp Hd Hc Hit Hrow Hothers Hnf Hok1.
  destruct (handleUserUpdated_found now uuid random webhook u it w)
    as (wq & Hfirst & Htblq & Hscriptq & _); [done..|by apply no_faults_next_ok|].
  rewrite Hfirst. clear Hfirst.
  assert (no_faults wq) as Hnfq by by apply (no_faults_tail w).
  pose proof (take_over_keeps (data webhook) random u) as Hkeeps.
  pose proof (λ random' c t, take_over_again (data webhook) random random' c t u) as Hagain.
  pose proof (take_over_unchanged (data webhook) random u) as Hsame.
  destruct (take_over (data webhook) random u) as [u1 changed] eqn:Hto.
  cbn [fst snd] in Hkeeps, Hagain, Hsame, Hok1 |- *. cbv zeta in Hkeeps.
  destruct Hkeeps as (Hid1 & Hc1 & Hcr1 & Hp1 & Hd1).
  destruct changed.
  - destruct (save_run now u1 wq Hok1) as (it1 & ws & Hsave & Hit1 & _ & Htbls & Hscripts);
      [by apply no_faults_next_ok|].
    set (marked := stamp (if truthy_str (createdAt u1) then createdAt u1 else Some now)
                     (Some now) u1) in *.
    set (w1 := {| tbl := tbl ws; script := script ws; sent := sent ws;
                  logged := logged ws
                            ++ ["info" +:+ ": " +:+ "User updated successfully"] |}).
    assert (user_key u1 = user_key u) as Hkey1 by (unfold user_key; by rewrite Hid1).
    assert (user_key marked = user_key u) as Hkey by done.
    assert (tbl w1 = <[user_key u := it1]> (tbl w)) as Htbl1.
    { unfold w1. cbn [tbl]. by rewrite Htbls, Hkey1, Htblq. }
    exists w1. split; [|split; [done|]].
    { unfold mbind, M_bind. rewrite Hsave. unfold log, mret, M_ret. by rewrite Hid1. }
    intros now' uuid' random'.
    destruct (handleUserUpdated_settled now' uuid' random' webhook marked it1 w1)
      as (w2 & q & Hrun2 & Htbl2 & Hsent2).
    + exact Hok1.
    + unfold marked. cbn [profileImageUrl stamp]. by rewrite Hp1.
    + unfold marked. cbn [dateOfBirth stamp]. by rewrite Hd1.
    + unfold marked. cbn [clerkId stamp]. by rewrite Hc1.
    + exact Hit1.
    + rewrite Htbl1, Hkey. apply lookup_insert_eq.
    + intros k row Hk Hne. rewrite Hkey in Hne.
      rewrite Htbl1, lookup_insert_ne in Hk by done. eauto.
    + apply no_faults_next_ok. by apply (no_faults_tail wq).
    + apply Hagain.
    + exists w2, q. split; [|done]. rewrite Hrun2. unfold marked. cbn [id stamp].
      by rewrite Hid1.
  - specialize (Hsame eq_refl). subst u1.
    eexists. split; [reflexivity|]. split; [intros _; cbn [tbl]; exact Htblq|].
    intros now' uuid' random'.
    apply (handleUserUpdated_settled now' uuid' random' webhook u it).
    + exact Hok.
    + exact Hp.
    + exact Hd.
    + exact Hc.
    + exact Hit.
    + cbn [tbl]. by rewrite Htblq.
    + intros k row Hk. cbn [tbl] in Hk. rewrite Htblq in Hk. eauto.
    + by apply no_faults_next_ok, (no_faults_tail w).
    + specialize (Hagain random' (createdAt u) (updatedAt u)).
      by rewrite stamp_own in Hagain.
Qed.

Lemma webhook_updated_twice_witness :
  exists it w1 w2 q,
    handleUserUpdated "2024-05-05T00:00:00.000Z" "u2" 7
      (webhook_of "user.updated" ada_update)
      (fresh {[ user_key sample_user_stamped := it ]} [])
    = (Ok (Responded {| success := true; message := "User updated successfully";
                        userId := Some "u1" |}), w1) /\
    handleUserUpdated "2024-05-06T00:00:00.000Z" "u3" 8
      (webhook_of "user.updated" ada_update) w1
    = (Ok (Responded {| success := true; message := "No changes detected";
                        userId := Some "u1" |}), w2) /\
    sent w2 = sent w1 ++ [QueryCommand q].
Proof.
  destruct (stored_item_valid sample_user_stamped) as [it Hit]; [reflexivity|].
  destruct (webhook_updated_twice "2024-05-05T00:00:00.000Z" "u2" 7
              (webhook_of "user.updated" ada_update) sample_user_stamped it
              (fresh {[ user_key sample_user_stamped := it ]} []))
    as (w1 & Hrun & _ & Hagain).
  - vm_compute. reflexivity.
  - discriminate.
  - discriminate.
  - reflexivity.
  - exact Hit.
  - apply lookup_singleton_eq.
  - intros k row Hrow Hne. cbn [tbl fresh] in Hrow.
    apply lookup_singleton_Some in Hrow as [<- _]. done.
  - constructor.
  - vm_compute. reflexivity.
  - destruct (Hagain "2024-05-06T00:00:00.000Z" "u3" 8%N) as (w2 & q & Hrun2 & _ & Hsent).
    exists it, w1, w2, q. split; [exact Hrun|]. split; [exact Hrun2|exact Hsent].
Defined.
